(** * babolivier/scripts: three operator scripts, embedded and verified

    - [sort_photos.py]                      (module [SortPhotos])
    - [delete_forgotten_rooms.py]           (module [DeleteForgottenRooms])
    - [set_display_name_in_matrix_space.py] (module [SetDisplayName])

    The scripts are effectful Python: they talk to an HTTP server, to the
    file system and to the console.  Each script is embedded as a
    computation in a small state-and-error monad over a [world] that holds
    the responses the server is still going to give (the script of the
    run) and the trace of observable events produced so far. *)

From Stdlib Require Import ZArith List String Ascii Bool Lia DecimalString.
From Stdlib Require Import Permutation.
Import ListNotations.
Local Open Scope string_scope.
Local Open Scope list_scope.
Local Set Warnings "-register-all".

(** ** Python values

    Values decoded from JSON bodies.  Numbers are restricted to integers;
    strings are sequences of characters (one [ascii] per character). *)

Inductive json : Type :=
| JNull
| JBool (b : bool)
| JInt (n : Z)
| JStr (s : string)
| JArr (items : list json)
| JObj (fields : list (string * json)).

(** The exceptions the three scripts can meet. *)
Inductive exn : Type :=
| KeyError (key : string)
| TypeError
| AttributeError
| ValueError
| JSONDecodeError
| OSError
| RuntimeError (msg : string)
| HttpError (code : Z) (content : string) (url : string).

(** A pure Python operation either returns or raises. *)
Inductive result (A : Type) : Type :=
| Return (a : A)
| Raises (e : exn).
Arguments Return {A} a.
Arguments Raises {A} e.

Fixpoint lookup (k : string) (fields : list (string * json)) : option json :=
  match fields with
  | [] => None
  | (k', v) :: rest => if String.eqb k k' then Some v else lookup k rest
  end.

Definition keys (fields : list (string * json)) : list string :=
  map fst fields.

Definition mem (k : string) (l : list string) : bool :=
  existsb (String.eqb k) l.

(** [v[k]] for a string literal [k]. *)
Definition py_getitem (v : json) (k : string) : result json :=
  match v with
  | JObj fields =>
      match lookup k fields with
      | Some x => Return x
      | None => Raises (KeyError k)
      end
  | _ => Raises TypeError
  end.

(** [v.get(k, default)]: only dicts have the method. *)
Definition py_get (v : json) (k : string) (default : json) : result json :=
  match v with
  | JObj fields =>
      match lookup k fields with
      | Some x => Return x
      | None => Return default
      end
  | _ => Raises AttributeError
  end.

(** [len(v)]. *)
Definition py_len (v : json) : result Z :=
  match v with
  | JArr items => Return (Z.of_nat (List.length items))
  | JObj fields => Return (Z.of_nat (List.length fields))
  | JStr s => Return (Z.of_nat (String.length s))
  | _ => Raises TypeError
  end.

Fixpoint chars (s : string) : list json :=
  match s with
  | EmptyString => []
  | String c rest => JStr (String c EmptyString) :: chars rest
  end.

(** The elements [for x in v] goes through: a list gives its items, a dict
    its keys, a string its characters. *)
Definition py_iter (v : json) : result (list json) :=
  match v with
  | JArr items => Return items
  | JObj fields => Return (map JStr (keys fields))
  | JStr s => Return (chars s)
  | _ => Raises TypeError
  end.

(** [v.keys()] and [v.items()]. *)
Definition py_keys (v : json) : result (list string) :=
  match v with
  | JObj fields => Return (keys fields)
  | _ => Raises AttributeError
  end.

Definition py_items (v : json) : result (list (string * json)) :=
  match v with
  | JObj fields => Return fields
  | _ => Raises AttributeError
  end.

(** [v == n] for an integer literal [n]: booleans are integers in Python. *)
Definition py_eq_int (v : json) (n : Z) : bool :=
  match v with
  | JInt m => Z.eqb m n
  | JBool b => Z.eqb (Z.b2z b) n
  | _ => false
  end.

(** [v == s] for a string [s]. *)
Definition py_eq_str (v : json) (s : string) : bool :=
  match v with
  | JStr t => String.eqb t s
  | _ => false
  end.

(** [a == b] on decoded values. *)
Fixpoint py_eq (a b : json) {struct a} : bool :=
  match a, b with
  | JNull, JNull => true
  | JBool x, JBool y => Bool.eqb x y
  | JBool x, JInt n => Z.eqb (Z.b2z x) n
  | JInt n, JBool x => Z.eqb n (Z.b2z x)
  | JInt m, JInt n => Z.eqb m n
  | JStr s, JStr t => String.eqb s t
  | JArr xs, JArr ys =>
      (fix all2 (xs ys : list json) {struct xs} : bool :=
         match xs, ys with
         | [], [] => true
         | x :: xs', y :: ys' => py_eq x y && all2 xs' ys'
         | _, _ => false
         end) xs ys
  | JObj fs, JObj gs =>
      Nat.eqb (List.length fs) (List.length gs) &&
      (fix sub (fs : list (string * json)) {struct fs} : bool :=
         match fs with
         | [] => true
         | (k, v) :: fs' =>
             match lookup k gs with
             | Some v' => py_eq v v'
             | None => false
             end && sub fs'
         end) fs
  | _, _ => false
  end.

(** Lists and dicts cannot be hashed, so they cannot be dict keys. *)
Definition hashable (v : json) : bool :=
  match v with
  | JArr _ | JObj _ => false
  | _ => true
  end.

Fixpoint substring_of (t s : string) : bool :=
  String.prefix t s ||
  match s with
  | EmptyString => false
  | String _ rest => substring_of t rest
  end.

(** [x in v]. *)
Definition py_in (x v : json) : result bool :=
  match v with
  | JArr items => Return (existsb (py_eq x) items)
  | JObj fields =>
      if hashable x then
        Return (match x with JStr s => mem s (keys fields) | _ => false end)
      else Raises TypeError
  | JStr s =>
      match x with
      | JStr t => Return (substring_of t s)
      | _ => Raises TypeError
      end
  | _ => Raises TypeError
  end.

(** A Python dict built by the scripts themselves: insertion-ordered, keyed
    by hashable values. *)
Definition pydict : Type := list (json * json).

Fixpoint dict_mem (k : json) (d : pydict) : bool :=
  match d with
  | [] => false
  | (k', _) :: rest => py_eq k k' || dict_mem k rest
  end.

Fixpoint dict_update (k v : json) (d : pydict) : pydict :=
  match d with
  | [] => [(k, v)]
  | (k', v') :: rest =>
      if py_eq k k' then (k', v) :: rest else (k', v') :: dict_update k v rest
  end.

(** [k in d.keys()]. *)
Definition dict_contains (k : json) (d : pydict) : result bool :=
  if hashable k then Return (dict_mem k d) else Raises TypeError.

(** [d[k] = v]. *)
Definition dict_set (k v : json) (d : pydict) : result pydict :=
  if hashable k then Return (dict_update k v d) else Raises TypeError.

(** [str(x)] of an optional command-line argument: a missing one is
    [None]. *)
Definition str_opt (o : option string) : string :=
  match o with
  | Some s => s
  | None => "None"
  end.

(** ** The world: server, console, file system *)

(** What an HTTP exchange gives back: the status code, the raw body and
    the body decoded as JSON when it is JSON. *)
Record response : Type := mkResponse {
  status : Z;
  text : string;
  json_body : option json
}.

Inductive event : Type :=
| Print (line : string)
| PPrint (v : json)
| Sleep (seconds : Z)
| Http (method url : string) (body : option json)
| Prompt (text : string)
| Mkdir (path : string)
| Move (src dst : string).

Record world : Type := mkWorld {
  script : list response;
  trace : list event
}.

(** How a computation stops short of a value. *)
Inductive abort : Type :=
| Raised (e : exn)      (* an uncaught exception *)
| Exited (code : Z)     (* [exit(code)] *)
| Blocked               (* a request the script has no response for *)
| OutOfFuel.            (* a [while] loop cut by the model *)

Inductive outcome (A : Type) : Type :=
| Ok (a : A)
| Abort (why : abort).
Arguments Ok {A} a.
Arguments Abort {A} why.

Definition M (A : Type) : Type := world -> outcome A * world.

Definition ret {A} (a : A) : M A := fun w => (Ok a, w).

Definition bind {A B} (m : M A) (f : A -> M B) : M B :=
  fun w =>
    match m w with
    | (Ok a, w') => f a w'
    | (Abort why, w') => (Abort why, w')
    end.

Declare Scope py_scope.
Delimit Scope py_scope with py.
Notation "x <- m ;; k" := (bind m (fun x => k))
  (at level 100, m at next level, right associativity) : py_scope.
Notation "' p <- m ;; k" := (bind m (fun x => match x with p => k end))
  (at level 100, p pattern, m at next level, right associativity) : py_scope.
Notation "m ;; k" := (bind m (fun _ => k))
  (at level 100, right associativity) : py_scope.
Local Open Scope py_scope.

Definition stop {A} (why : abort) : M A := fun w => (Abort why, w).
Definition raise {A} (e : exn) : M A := stop (Raised e).
Definition exit {A} (code : Z) : M A := stop (Exited code).

Definition lift {A} (r : result A) : M A :=
  match r with
  | Return a => ret a
  | Raises e => raise e
  end.

Definition emit (e : event) : M unit :=
  fun w => (Ok tt, mkWorld (script w) (trace w ++ [e])).

Definition print (line : string) : M unit := emit (Print line).
Definition pprint (v : json) : M unit := emit (PPrint v).

(** One HTTP exchange: the request is recorded, the server answers with
    the next response of the script. *)
Definition http (method url : string) (body : option json) : M response :=
  fun w =>
    match script w with
    | [] => (Abort Blocked, mkWorld [] (trace w ++ [Http method url body]))
    | r :: rest => (Ok r, mkWorld rest (trace w ++ [Http method url body]))
    end.

(** [try: m  except HttpError as e: handler e]. *)
Definition except_HttpError {A} (m : M A) (handler : Z -> string -> string -> M A) : M A :=
  fun w =>
    match m w with
    | (Abort (Raised (HttpError code content url)), w') => handler code content url w'
    | r => r
    end.

(** [for x in l: acc = body x acc]. *)
Fixpoint for_each {A S} (l : list A) (body : A -> S -> M S) (acc : S) : M S :=
  match l with
  | [] => ret acc
  | x :: rest => acc' <- body x acc ;; for_each rest body acc'
  end.

(** [res.json()]. *)
Definition res_json (res : response) : M json :=
  match json_body res with
  | Some v => ret v
  | None => raise JSONDecodeError
  end.

Definition run {A} (m : M A) (server : list response) : outcome A * world :=
  m (mkWorld server []).

(** [str(n)] of an integer: its decimal writing. *)
Definition str_int (n : Z) : string :=
  NilZero.string_of_int (Z.to_int n).

(** ** sort_photos.py *)

Module SortPhotos.

(** *** [re.match(FILE_NAME_REGEX, file)]

    [FILE_NAME_REGEX = "^[IMG|PANO]+_([0-9]{8})_([0-9]{6})"].  The bracket
    is a character class, so the name has to start with one or more
    characters among [I M G | P A N O].  Neither [_] nor a digit is in the
    class, so the greedy run can only be followed by [_] at its full
    length: the match is found without backtracking. *)

Definition in_class (c : ascii) : bool :=
  existsb (Ascii.eqb c) (list_ascii_of_string "IMG|PANO").

Definition is_digit (c : ascii) : bool :=
  (48 <=? nat_of_ascii c)%nat && (nat_of_ascii c <=? 57)%nat.

Fixpoint skip_class (s : string) : string :=
  match s with
  | String c rest => if in_class c then skip_class rest else s
  | EmptyString => s
  end.

(** [[0-9]{n}]: the [n] digits and what follows them. *)
Fixpoint take_digits (n : nat) (s : string) : option (string * string) :=
  match n with
  | O => Some (EmptyString, s)
  | S n' =>
      match s with
      | String c rest =>
          if is_digit c then
            match take_digits n' rest with
            | Some (ds, tl) => Some (String c ds, tl)
            | None => None
            end
          else None
      | EmptyString => None
      end
  end.

Definition underscore : ascii := "_"%char.

(** The two groups of the match, or [None]. *)
Definition re_match (file : string) : option (string * string) :=
  match file with
  | String c rest =>
      if in_class c then
        match skip_class rest with
        | String u after_run =>
            if Ascii.eqb u underscore then
              match take_digits 8 after_run with
              | Some (date_group, String u' after_date) =>
                  if Ascii.eqb u' underscore then
                    match take_digits 6 after_date with
                    | Some (time_group, _) => Some (date_group, time_group)
                    | None => None
                    end
                  else None
              | _ => None
              end
            else None
        | EmptyString => None
        end
      else None
  | EmptyString => None
  end.

(** *** [datetime.strptime(group, "%Y%m%d")] and [date.strftime("%Y/%m")]

    The argument is always a group of eight digits.  On those, [%Y] takes
    four digits and [%m], [%d] two each, and the parse succeeds exactly on
    the dates of the calendar from year 1 on. *)

Record date : Type := mkDate { year : Z; month : Z; day : Z }.

Definition digit_val (c : ascii) : Z := Z.of_nat (nat_of_ascii c) - 48.

Fixpoint number_from (acc : Z) (s : string) : Z :=
  match s with
  | EmptyString => acc
  | String c rest => number_from (10 * acc + digit_val c) rest
  end.

Definition number (s : string) : Z := number_from 0 s.

Definition is_leap (y : Z) : bool :=
  ((y mod 4 =? 0) && (negb (y mod 100 =? 0) || (y mod 400 =? 0)))%Z.

Definition days_in_month (y m : Z) : Z :=
  if (m =? 2)%Z then (if is_leap y then 29 else 28)%Z
  else if ((m =? 4) || (m =? 6) || (m =? 9) || (m =? 11))%Z then 30%Z
  else 31%Z.

Definition valid_date (d : date) : bool :=
  ((1 <=? year d) && (1 <=? month d) && (month d <=? 12) &&
   (1 <=? day d) && (day d <=? days_in_month (year d) (month d)))%Z.

Definition strptime_Ymd (group : string) : result date :=
  let d := mkDate (number (substring 0 4 group))
                  (number (substring 4 2 group))
                  (number (substring 6 2 group)) in
  if valid_date d then Return d else Raises ValueError.

(** [%Y] is the plain decimal year (the C library does not pad it), [%m]
    the month on two digits. *)
Definition strftime_Ym (d : date) : string :=
  str_int (year d) ++ "/" ++
  (if (month d <? 10)%Z then "0" else "") ++ str_int (month d).

(** *** [os.path.join] and [os.listdir] *)

Fixpoint ends_with_slash (s : string) : bool :=
  match s with
  | EmptyString => false
  | String c EmptyString => Ascii.eqb c "/"%char
  | String _ rest => ends_with_slash rest
  end.

Definition posix_join (a b : string) : string :=
  if String.prefix "/" b then b
  else if String.eqb a "" || ends_with_slash a then a ++ b
  else a ++ "/" ++ b.

(** [os.path.join(args.path, b)]: [args.path] is [None] when [--path] was
    not given, and [None] is not a path. *)
Definition os_path_join (a : option string) (b : string) : result string :=
  match a with
  | Some a' => Return (posix_join a' b)
  | None => Raises TypeError
  end.

(** The file system the script runs on.  Listing gives, for the current
    directory and for each named directory, the entries or the error.
    Creating a directory and moving a file succeed or raise; what the file
    system answers may depend on everything done before, so the answer is
    a function of the events so far. *)
Record filesystem : Type := mkFilesystem {
  cwd_listing : result (list string);
  dir_listing : string -> result (list string);
  mkdir_result : list event -> string -> result unit;
  move_result : list event -> string -> string -> result unit
}.

(** [os.listdir(path)]: [None] stands for the current directory. *)
Definition os_listdir (fs : filesystem) (path : option string) : result (list string) :=
  match path with
  | None => cwd_listing fs
  | Some p => dir_listing fs p
  end.

(** *** The script *)

(** [args = parser.parse_args()]: [--path] is declared without [required]
    and without [default], so [args.path] is [None] when it is omitted. *)
Record args : Type := mkArgs { path : option string }.

(** [files_to_move: Dict[str, List[str]]], in insertion order. *)
Definition buckets : Type := list (string * list string).

(** [if dir_path not in files_to_move: files_to_move[dir_path] = []]
    then [files_to_move[dir_path].append(file)]. *)
Fixpoint record_file (dir_path file : string) (b : buckets) : buckets :=
  match b with
  | [] => [(dir_path, [file])]
  | (d, fs) :: rest =>
      if String.eqb d dir_path then (d, fs ++ [file]) :: rest
      else (d, fs) :: record_file dir_path file rest
  end.

(** One turn of the scan loop on [(n_files, files_to_move)]. *)
Definition scan_file (a : args) (file : string) (st : Z * buckets) : result (Z * buckets) :=
  let '(n_files, files_to_move) := st in
  match re_match file with
  | Some (date_group, _) =>
      match strptime_Ymd date_group with
      | Return d =>
          match os_path_join (path a) (strftime_Ym d) with
          | Return dir_path => Return (n_files, record_file dir_path file files_to_move)
          | Raises e => Raises e
          end
      | Raises e => Raises e
      end
  | None => Return ((n_files - 1)%Z, files_to_move)
  end.

Fixpoint scan (a : args) (files : list string) (st : Z * buckets) : result (Z * buckets) :=
  match files with
  | [] => Return st
  | file :: rest =>
      match scan_file a file st with
      | Return st' => scan a rest st'
      | Raises e => Raises e
      end
  end.

(** [Path(dir_path).mkdir(parents=True, exist_ok=True)]: the call is
    recorded, and it raises when the file system refuses it (a segment of
    the path is a regular file, the directory cannot be written, ...). *)
Definition path_mkdir (fs : filesystem) (dir_path : string) : M unit :=
  fun w =>
    let w' := mkWorld (script w) (trace w ++ [Mkdir dir_path]) in
    match mkdir_result fs (trace w) dir_path with
    | Return _ => (Ok tt, w')
    | Raises e => (Abort (Raised e), w')
    end.

(** [shutil.move(src_path, dst_path)]: the call is recorded, and it raises
    when the file system refuses it. *)
Definition shutil_move (fs : filesystem) (src_path dst_path : string) : M unit :=
  fun w =>
    let w' := mkWorld (script w) (trace w ++ [Move src_path dst_path]) in
    match move_result fs (trace w) src_path dst_path with
    | Return _ => (Ok tt, w')
    | Raises e => (Abort (Raised e), w')
    end.

(** The body of [for file in files:]. *)
Definition move_file (a : args) (fs : filesystem) (dir_path file : string) : M unit :=
  src_path <- lift (os_path_join (path a) file) ;;
  let dst_path := posix_join dir_path file in
  shutil_move fs src_path dst_path.

(** The body of [for dir_path, files in files_to_move.items():]. *)
Definition move_bucket (a : args) (fs : filesystem) (b : string * list string) : M unit :=
  let '(dir_path, files) := b in
  path_mkdir fs dir_path ;;
  for_each files (fun file _ => move_file a fs dir_path file) tt.

Definition main (a : args) (fs : filesystem) : M unit :=
  files <- lift (os_listdir fs (path a)) ;;
  ' (n_files, files_to_move) <- lift (scan a files (Z.of_nat (List.length files), [])) ;;
  print ("Moving " ++ str_int n_files ++ " files") ;;
  for_each files_to_move (fun b _ => move_bucket a fs b) tt.

End SortPhotos.

(** ** delete_forgotten_rooms.py *)

Module DeleteForgottenRooms.

(** [args = parser.parse_args()].  The token and the base URL have no
    default and are not required; the batch size is an [int], 100 unless
    given. *)
Record args : Type := mkArgs {
  access_token : option string;
  base_url : option string;
  batch_size : Z
}.

(** [res.ok]: the status is not a client or server error. *)
Definition ok (res : response) : bool :=
  negb ((400 <=? status res) && (status res <? 600))%Z.

Section Script.

(** [str(v)], as f-strings apply it to a decoded value. *)
Variable py_str : json -> string.
Variable a : args.

Definition ADMIN_BASE_URL : string := str_opt (base_url a) ++ "/_synapse/admin".
Definition BATCH_SIZE : Z := batch_size a.

Definition rooms_url : string :=
  ADMIN_BASE_URL ++ "/v1/rooms?limit=" ++ str_int BATCH_SIZE
    ++ "&order_by=joined_local_members&dir=b".

Definition delete_url (room_id : json) : string :=
  ADMIN_BASE_URL ++ "/v2/rooms/" ++ py_str room_id.

Definition delete_status_url (del_id : json) : string :=
  ADMIN_BASE_URL ++ "/v2/rooms/delete_status/" ++ py_str del_id.

(** [while status == "purging":] with [status] starting at ["purging"]:
    the body runs at least once.  Gives [(status, last_res_json)]. *)
Fixpoint watch_deletion (fuel : nat) (room_id del_id : json) : M (json * json) :=
  match fuel with
  | O => stop OutOfFuel
  | S fuel' =>
      emit (Sleep 1) ;;
      res <- http "GET" (delete_status_url del_id) None ;;
      (if negb (ok res) then
         print ("Failed to retrieve deletion status for room " ++ py_str room_id
                  ++ " (delete_id: " ++ py_str del_id ++ "), details:") ;;
         body <- res_json res ;;
         pprint body
       else ret tt) ;;
      last_res_json <- res_json res ;;
      status <- lift (py_getitem last_res_json "status") ;;
      if py_eq_str status "purging" then watch_deletion fuel' room_id del_id
      else ret (status, last_res_json)
  end.

(** The body of [for room in rooms:], on the counter [deleted_rooms]. *)
Definition process_room (fuel : nat) (room : json) (deleted_rooms : Z) : M Z :=
  room_id <- lift (py_getitem room "room_id") ;;
  joined_local_members <- lift (py_getitem room "joined_local_members") ;;
  if negb (py_eq_int joined_local_members 0) then
    print ("Room " ++ py_str room_id ++ " has local users, skipping") ;;
    ret deleted_rooms
  else
    print ("Deleting room " ++ py_str room_id) ;;
    let deleted_rooms := (deleted_rooms + 1)%Z in
    res <- http "DELETE" (delete_url room_id) (Some (JObj [])) ;;
    if negb (ok res) then
      print ("Failed to request deletion for room " ++ py_str room_id
               ++ ", skipping. Details:") ;;
      body <- res_json res ;;
      pprint body ;;
      ret deleted_rooms
    else
      body <- res_json res ;;
      del_id <- lift (py_getitem body "delete_id") ;;
      ' (status, last_res_json) <- watch_deletion fuel room_id del_id ;;
      (if py_eq_str status "failed" then
         print ("Failed to delete room " ++ py_str room_id ++ ", details:") ;;
         pprint last_res_json
       else ret tt) ;;
      ret deleted_rooms.

Definition process_rooms (fuel : nat) (rooms : list json) (deleted_rooms : Z) : M Z :=
  for_each rooms (process_room fuel) deleted_rooms.

(** One turn of the outer loop: fetch a page, process it, report.  Gives
    the new value of [deleted_rooms]. *)
Definition batch (fuel : nat) : M Z :=
  res <- http "GET" rooms_url None ;;
  if negb (ok res) then
    print "Failed to retrieve more rooms, details:" ;;
    body <- res_json res ;;
    pprint body ;;
    exit 1
  else
    body <- res_json res ;;
    rooms <- lift (py_getitem body "rooms") ;;
    n <- lift (py_len rooms) ;;
    print ("Retrieved " ++ str_int n ++ " more rooms") ;;
    items <- lift (py_iter rooms) ;;
    deleted_rooms <- process_rooms fuel items 0%Z ;;
    print ("Deleted " ++ str_int deleted_rooms ++ "/" ++ str_int n ++ " rooms") ;;
    ret deleted_rooms.

(** [while deleted_rooms == BATCH_SIZE:]. *)
Fixpoint main_loop (fuel : nat) (deleted_rooms : Z) : M unit :=
  match fuel with
  | O => stop OutOfFuel
  | S fuel' =>
      if (deleted_rooms =? BATCH_SIZE)%Z then
        deleted_rooms' <- batch fuel' ;;
        main_loop fuel' deleted_rooms'
      else ret tt
  end.

(** [deleted_rooms = BATCH_SIZE] and then the loop. *)
Definition main (fuel : nat) : M unit := main_loop fuel BATCH_SIZE.

End Script.

End DeleteForgottenRooms.

(** ** set_display_name_in_matrix_space.py *)

Module SetDisplayName.

(** The fields of [Client].  [base_url] is [None] ([JNull]) until [init]
    has run; [joined_rooms] and [rooms_in_space] start empty. *)
Record Client : Type := mkClient {
  user_id : string;
  tok : string;
  base_url : json;
  joined_rooms : json;
  rooms_in_space : pydict
}.

(** [Client.__init__]. *)
Definition new_client (user_id tok : string) : Client :=
  mkClient user_id tok JNull (JArr []) [].

Definition set_base_url (c : Client) (v : json) : Client :=
  mkClient (user_id c) (tok c) v (joined_rooms c) (rooms_in_space c).

Definition set_joined_rooms (c : Client) (v : json) : Client :=
  mkClient (user_id c) (tok c) (base_url c) v (rooms_in_space c).

Definition set_rooms_in_space (c : Client) (d : pydict) : Client :=
  mkClient (user_id c) (tok c) (base_url c) (joined_rooms c) d.

(** The command line: the four arguments are required. *)
Record args : Type := mkArgs {
  arg_user_id : string;
  arg_access_token : string;
  arg_space : string;
  arg_new_display_name : string
}.

(** [s.split(sep)] for a one-character separator. *)
Fixpoint split (sep : ascii) (s : string) : list string :=
  match s with
  | EmptyString => [EmptyString]
  | String c rest =>
      if Ascii.eqb c sep then EmptyString :: split sep rest
      else
        match split sep rest with
        | hd :: tl => String c hd :: tl
        | [] => [String c EmptyString]
        end
  end.

(** [s.lower()]: the capital letters, plain and accented, go to their
    small letter. *)
Definition lower_char (c : ascii) : ascii :=
  let n := nat_of_ascii c in
  if ((65 <=? n) && (n <=? 90)
      || (192 <=? n) && (n <=? 222) && negb (n =? 215))%nat
  then ascii_of_nat (n + 32)
  else c.

Fixpoint lower (s : string) : string :=
  match s with
  | EmptyString => EmptyString
  | String c rest => String (lower_char c) (lower rest)
  end.

Definition nl : string := String (ascii_of_nat 10) EmptyString.
Definition esc : string := String (ascii_of_nat 27) EmptyString.

(** [choice == "" or choice.lower() == "y"]. *)
Definition confirmed (choice : string) : bool :=
  String.eqb choice "" || String.eqb (lower choice) "y".

Section Script.

(** [str(v)], as f-strings apply it to a decoded value, and
    [urllib.parse.quote]. *)
Variable py_str : json -> string.
Variable quote : string -> string.

Definition _req (c : Client) (method path : string) (body : option json) : M json :=
  url <- (if String.prefix "https://" path then ret path
          else
            match base_url c with
            | JNull => raise (RuntimeError "Tried to make API requests before successful init")
            | b => ret (py_str b ++ path)%string
            end) ;;
  resp <- http method url body ;;
  if negb (status resp =? 200)%Z then
    raise (HttpError (status resp) (text resp) url)
  else res_json resp.

Definition init (c : Client) : M Client :=
  let parts := split ":"%char (user_id c) in
  if negb (List.length parts =? 2)%nat then
    raise (RuntimeError
      "Invalid user ID, please use the full identifier in the format: @user:domain.com")
  else
    let domain := nth 1 parts "" in
    found <- except_HttpError
               (resp <- _req c "GET" ("https://" ++ domain ++ "/.well-known/matrix/client") None ;;
                homeserver <- lift (py_getitem resp "m.homeserver") ;;
                lift (py_getitem homeserver "base_url"))
               (fun _ _ _ => ret (JStr ("https://" ++ domain))) ;;
    let c := set_base_url c found in
    resp <- _req c "GET" "/_matrix/client/v3/joined_rooms" None ;;
    joined <- lift (py_getitem resp "joined_rooms") ;;
    ret (set_joined_rooms c joined).

(** One entry of the dict comprehension over [resp["rooms"]]. *)
Definition hierarchy_entry (c : Client) (room : json) (acc : pydict) : M pydict :=
  room_id <- lift (py_getitem room "room_id") ;;
  is_joined <- lift (py_in room_id (joined_rooms c)) ;;
  if is_joined then
    key <- lift (py_getitem room "room_id") ;;
    name <- lift (py_getitem room "name") ;;
    lift (dict_set key name acc)
  else ret acc.

(** The [for user in joined_users.keys()] loop of [_is_dm_in_space]. *)
Fixpoint only_us_and_members (c : Client) (members : list (string * json))
         (users : list string) : bool :=
  match users with
  | [] => true
  | user :: rest =>
      if negb (String.eqb user (user_id c)) && negb (mem user (keys members))
      then false
      else only_us_and_members c members rest
  end.

Definition _is_dm_in_space (c : Client) (members : list (string * json))
           (joined_users : json) : result bool :=
  match py_len joined_users with
  | Raises e => Raises e
  | Return n =>
      if negb (n =? 2)%Z then Return false
      else
        match py_keys joined_users with
        | Raises e => Raises e
        | Return users => Return (only_us_and_members c members users)
        end
  end.

(** The loop of [_correspondant_display_name]; falling off its end gives
    [None]. *)
Fixpoint first_correspondant (c : Client) (items : list (string * json)) : result json :=
  match items with
  | [] => Return JNull
  | (key, value) :: rest =>
      if negb (String.eqb key (user_id c)) then py_getitem value "display_name"
      else first_correspondant c rest
  end.

Definition _correspondant_display_name (c : Client) (joined_users : json) : result json :=
  match py_items joined_users with
  | Raises e => Raises e
  | Return items => first_correspondant c items
  end.

(** One entry of the [members] comprehension. *)
Definition roster_entry (item : string * json) (acc : list (string * json))
  : M (list (string * json)) :=
  let '(key, value) := item in
  name <- lift (py_get value "display_name" (JStr key)) ;;
  ret (acc ++ [(key, name)]).

(** The body of [for room_id in self.joined_rooms:], on
    [self.rooms_in_space]. *)
Definition inspect_room (c : Client) (members : list (string * json))
           (room_id : json) (in_space : pydict) : M pydict :=
  known <- lift (dict_contains room_id in_space) ;;
  if known then ret in_space
  else
    resp <- _req c "GET" ("/_matrix/client/v3/rooms/" ++ py_str room_id ++ "/joined_members") None ;;
    joined <- lift (py_getitem resp "joined") ;;
    is_dm <- lift (_is_dm_in_space c members joined) ;;
    if is_dm then
      name <- lift (_correspondant_display_name c joined) ;;
      lift (dict_set room_id (JStr ("DM with " ++ py_str name)) in_space)
    else ret in_space.

Definition _dm_rooms_in_space (c : Client) (space_id : json) : M Client :=
  print "Identifying related DMs..." ;;
  resp <- _req c "GET" ("/_matrix/client/v3/rooms/" ++ py_str space_id ++ "/joined_members") None ;;
  joined <- lift (py_getitem resp "joined") ;;
  items <- lift (py_items joined) ;;
  members <- for_each items roster_entry [] ;;
  _ <- lift (py_len (joined_rooms c)) ;;
  room_ids <- lift (py_iter (joined_rooms c)) ;;
  in_space <- for_each room_ids (inspect_room c members) (rooms_in_space c) ;;
  ret (set_rooms_in_space c in_space).

Definition find_rooms_in_space (c : Client) (space : string) : M Client :=
  space_id <- (if String.prefix "#" space then
                 print "Resolving space..." ;;
                 resp <- _req c "GET" ("/_matrix/client/v3/directory/room/" ++ quote space) None ;;
                 lift (py_getitem resp "room_id")
               else ret (JStr space)) ;;
  print "Retrieving space hierarchy..." ;;
  resp <- _req c "GET" ("/_matrix/client/v1/rooms/" ++ py_str space_id ++ "/hierarchy") None ;;
  rooms <- lift (py_getitem resp "rooms") ;;
  entries <- lift (py_iter rooms) ;;
  in_space <- for_each entries (hierarchy_entry c) [] ;;
  _dm_rooms_in_space (set_rooms_in_space c in_space) space_id.

Definition list_target_rooms (c : Client) : M unit :=
  for_each (rooms_in_space c)
    (fun '(room_id, room_name) _ =>
       print ("- " ++ esc ++ "[1m" ++ py_str room_name ++ esc ++ "[0m ("
                ++ py_str room_id ++ ")"))
    tt.

Definition member_state_path (c : Client) (room_id : json) : string :=
  "/_matrix/client/v3/rooms/" ++ py_str room_id ++ "/state/m.room.member/" ++ user_id c.

(** The body of the update loop: one [PUT], a failure is printed. *)
Definition update_room (c : Client) (evt_content : json) (room : json * json) : M unit :=
  let '(room_id, room_name) := room in
  except_HttpError
    (_ <- _req c "PUT" (member_state_path c room_id) (Some evt_content) ;; ret tt)
    (fun code content url =>
       print ("Failed to update " ++ esc ++ "[1m" ++ py_str room_name ++ esc ++ "[0m ("
                ++ py_str room_id ++ ") (trying " ++ url ++ "): " ++ str_int code
                ++ " - " ++ content)).

Definition change_display_name (c : Client) (new_display_name : string) : M unit :=
  current_profile <- _req c "GET" ("/_matrix/client/v3/profile/" ++ user_id c) None ;;
  avatar_url <- lift (py_get current_profile "avatar_url" JNull) ;;
  let evt_content :=
    JObj [("membership", JStr "join");
          ("displayname", JStr new_display_name);
          ("avatar_url", avatar_url)] in
  for_each (rooms_in_space c) (fun room _ => update_room c evt_content room) tt.

(** What [_main] does once the operator has answered [choice]. *)
Definition after_prompt (a : args) (c : Client) (choice : string) : M unit :=
  if confirmed choice then change_display_name c (arg_new_display_name a)
  else ret tt.

(** [_main], with the line the operator types at the prompt. *)
Definition _main (a : args) (choice : string) : M unit :=
  c <- init (new_client (arg_user_id a) (arg_access_token a)) ;;
  c <- find_rooms_in_space c (arg_space a) ;;
  print (nl ++ "Your display name will be changed in the following rooms:") ;;
  list_target_rooms c ;;
  emit (Prompt (nl ++ "Continue? [Y/n] ")) ;;
  after_prompt a c choice.

End Script.

End SetDisplayName.

(** ** Vocabulary of the statements *)

(** A rendering of decoded values that agrees with [str] on strings,
    integers, booleans and [None]; it is what the concrete runs below are
    computed with.  The theorems hold for every rendering. *)
Definition render (v : json) : string :=
  match v with
  | JNull => "None"
  | JBool true => "True"
  | JBool false => "False"
  | JInt n => str_int n
  | JStr s => s
  | JArr _ => "[...]"
  | JObj _ => "{...}"
  end.

(** [w'] is [w] after more events, all of them satisfying [Q]. *)
Definition grows (Q : event -> Prop) (w w' : world) : Prop :=
  exists evs, trace w' = trace w ++ evs /\ Forall Q evs.

(** [w'] has no more responses left than [w]. *)
Definition script_le (w w' : world) : Prop :=
  (List.length (script w') <= List.length (script w))%nat.

(** Every run of [m] relates the world before to the world after. *)
Definition preserves {A} (R : world -> world -> Prop) (m : M A) : Prop :=
  forall w r w', m w = (r, w') -> R w w'.

(** Started with fewer than [n] responses left, [m] does not stop for lack
    of fuel. *)
Definition fueled {A} (n : nat) (m : M A) : Prop :=
  forall w r w', (List.length (script w) < n)%nat -> m w = (r, w') -> r <> Abort OutOfFuel.

Definition is_http (method : string) (e : event) : bool :=
  match e with
  | Http m _ _ => String.eqb m method
  | _ => false
  end.

Module SortPhotosSpec.
Import SortPhotos.

(** The name matches the recognition pattern. *)
Definition recognised (file : string) : bool :=
  match re_match file with
  | Some _ => true
  | None => false
  end.

(** The name does not match, or its date group is a date of the calendar. *)
Definition well_dated (file : string) : bool :=
  match re_match file with
  | Some (date_group, _) =>
      match strptime_Ymd date_group with
      | Return _ => true
      | Raises _ => false
      end
  | None => true
  end.

(** Sum of the bucket sizes. *)
Fixpoint bucket_total (b : buckets) : Z :=
  match b with
  | [] => 0%Z
  | (_, files) :: rest => (Z.of_nat (List.length files) + bucket_total rest)%Z
  end.

(** Number of names that fail to match. *)
Fixpoint unrecognised (files : list string) : Z :=
  match files with
  | [] => 0%Z
  | file :: rest =>
      ((if recognised file then 0 else 1) + unrecognised rest)%Z
  end.

(** The move phase of [main], once the scan has given its result. *)
Definition report_and_move (a : args) (fs : filesystem) (n_files : Z)
           (files_to_move : buckets) : M unit :=
  print ("Moving " ++ str_int n_files ++ " files") ;;
  for_each files_to_move (fun b _ => move_bucket a fs b) tt.

(** The run stops at the initial listing step. *)
Definition fails_at_listing (a : args) (fs : filesystem) : Prop :=
  exists e, os_listdir fs (path a) = Raises e.

(** A directory of four entries, and a current directory of two; every
    directory can be created and every file moved. *)
Definition photos : list string :=
  ["IMG_20230615_101500.jpg"; "PANO_20230101_080000.jpg"; "random.txt";
   "VID_20230615_101500.mp4"].

Definition sample_fs : filesystem :=
  mkFilesystem
    (Return ["notes.txt"; "IMG_20230615_101500.jpg"])
    (fun p => if String.eqb p "/photos" then Return photos
              else if String.eqb p "/broken" then
                     Return ["IMG_20230615_101500.jpg"; "IMG_20230231_101500.jpg"]
              else Raises OSError)
    (fun _ _ => Return tt)
    (fun _ _ _ => Return tt).

End SortPhotosSpec.

Module DeleteForgottenRoomsSpec.
Import DeleteForgottenRooms.

(** [room["joined_local_members"] != 0] is false: the room is one the
    script asks to delete. *)
Definition zero_members (room : json) : bool :=
  match py_getitem room "joined_local_members" with
  | Return count => py_eq_int count 0
  | Raises _ => false
  end.

(** Number of rooms of a page counted as deleted. *)
Fixpoint count_zero (rooms : list json) : Z :=
  match rooms with
  | [] => 0%Z
  | room :: rest => ((if zero_members room then 1 else 0) + count_zero rest)%Z
  end.

(** The deletion request the script sends for a room identifier. *)
Definition deletion_request (py_str : json -> string) (a : args) (room_id : json) : event :=
  Http "DELETE" (delete_url py_str a room_id) (Some (JObj [])).

(** [e], if it is a deletion request, is the one of a room of the page that
    was listed with zero joined local members. *)
Definition deletes_only_empty (py_str : json -> string) (a : args) (rooms : list json)
           (e : event) : Prop :=
  is_http "DELETE" e = true ->
  exists room room_id,
    In room rooms /\ zero_members room = true /\
    py_getitem room "room_id" = Return room_id /\
    e = deletion_request py_str a room_id.

(** The whole script, with fuel for one more loop turn than the server has
    responses. *)
Definition run_main (py_str : json -> string) (a : args) (server : list response)
  : outcome unit * world :=
  run (main py_str a (S (List.length server))) server.

(** Sample server answers. *)
Definition sample_args : args := mkArgs (Some "secret") (Some "http://localhost:8008") 2.

Definition room (room_id : string) (members : Z) : json :=
  JObj [("room_id", JStr room_id); ("joined_local_members", JInt members)].

Definition answer (code : Z) (body : json) : response := mkResponse code "" (Some body).

Definition error_body : json :=
  JObj [("errcode", JStr "M_UNKNOWN"); ("error", JStr "Internal server error")].

Definition status_body (s : string) : json := JObj [("status", JStr s)].


(** A page of one abandoned room and one room with a local member: the
    deletion is accepted and is complete at the first poll. *)
Definition short_page_server : list response :=
  [answer 200 (JObj [("rooms", JArr [room "!abandoned:example.org" 0;
                                     room "!busy:example.org" 3])]);
   answer 200 (JObj [("delete_id", JStr "delete1")]);
   answer 200 (status_body "complete")].

(** A page of one abandoned room whose deletion is accepted; the first
    status poll meets a server error, the next would report completion. *)
Definition failing_poll_server : list response :=
  [answer 200 (JObj [("rooms", JArr [room "!abandoned:example.org" 0])]);
   answer 200 (JObj [("delete_id", JStr "delete1")]);
   answer 500 error_body;
   answer 200 (status_body "complete")].

(** A full page of two abandoned rooms: the first deletion goes through,
    the second is refused. *)
Definition full_page : list json :=
  [room "!a:example.org" 0; room "!b:example.org" 0].

Definition full_page_answers : list response :=
  [answer 200 (JObj [("delete_id", JStr "delete1")]);
   answer 200 (status_body "complete");
   answer 500 error_body].

(** The answer of a gateway in front of the server: a failure whose body
    is a page of HTML, not JSON. *)
Definition bad_gateway : response :=
  mkResponse 502 "<html><body><h1>502 Bad Gateway</h1></body></html>" None.

(** A full page of two abandoned rooms.  The deletion of the first room is
    refused, by [refusal]; after that the server would accept the deletion
    of the second room, report it complete, and serve a last page without
    rooms. *)
Definition refusing_server (refusal : response) : list response :=
  [answer 200 (JObj [("rooms", JArr full_page)]);
   refusal;
   answer 200 (JObj [("delete_id", JStr "delete2")]);
   answer 200 (status_body "complete");
   answer 200 (JObj [("rooms", JArr [])])].

End DeleteForgottenRoomsSpec.

Module SetDisplayNameSpec.
Import SetDisplayName.

(** The answers that let the update go on, spelled out. *)
Definition accepted (choice : string) : bool :=
  String.eqb choice "" || String.eqb choice "y" || String.eqb choice "Y".

(** The answer begins with a [y], small or capital. *)
Definition begins_with_y (choice : string) : bool :=
  match choice with
  | String c _ => Ascii.eqb c "y"%char || Ascii.eqb c "Y"%char
  | EmptyString => false
  end.

Definition not_a_put (e : event) : Prop := is_http "PUT" e = false.

(** [_main] up to and including the prompt. *)
Definition before_prompt (py_str : json -> string) (quote : string -> string) (a : args)
  : M Client :=
  c <- init py_str (new_client (arg_user_id a) (arg_access_token a)) ;;
  c <- find_rooms_in_space py_str quote c (arg_space a) ;;
  print (nl ++ "Your display name will be changed in the following rooms:") ;;
  list_target_rooms py_str c ;;
  emit (Prompt (nl ++ "Continue? [Y/n] ")) ;;
  ret c.

(** The listing has exactly two members, and each of them is the acting
    user or is in the roster of the space. *)
Definition is_dm (c : Client) (members fields : list (string * json)) : Prop :=
  List.length fields = 2%nat /\
  forall user, In user (keys fields) -> user <> user_id c -> In user (keys members).

(** The request for the joined members of a room. *)
Definition joined_members_request (py_str : json -> string) (c : Client) (room_id : json)
  : event :=
  Http "GET"
       (py_str (base_url c) ++ "/_matrix/client/v3/rooms/" ++ py_str room_id ++ "/joined_members")
       None.

(** What [init] does after the base URL is set. *)
Definition fetch_joined_rooms (py_str : json -> string) (c : Client) : M Client :=
  resp <- _req py_str c "GET" "/_matrix/client/v3/joined_rooms" None ;;
  joined <- lift (py_getitem resp "joined_rooms") ;;
  ret (set_joined_rooms c joined).

(** [resp["m.homeserver"]["base_url"]] on the body of a 200 response. *)
Definition discovered (res : response) : result json :=
  match json_body res with
  | None => Raises JSONDecodeError
  | Some body =>
      match py_getitem body "m.homeserver" with
      | Return homeserver => py_getitem homeserver "base_url"
      | Raises e => Raises e
      end
  end.

(** The discovery document has no [m.homeserver], or its [m.homeserver]
    has no [base_url]. *)
Definition lacks_base_url (fields : list (string * json)) : Prop :=
  lookup "m.homeserver" fields = None \/
  exists homeserver,
    lookup "m.homeserver" fields = Some (JObj homeserver) /\
    lookup "base_url" homeserver = None.

Definition well_known_request (domain : string) : event :=
  Http "GET" ("https://" ++ domain ++ "/.well-known/matrix/client") None.

(** Sample run: discovery is not served, four joined rooms, one of them
    in the hierarchy of the space, one a conversation with a member of the
    space, one with three members, one a conversation with a stranger. *)
Definition sample_args : args :=
  mkArgs "@me:example.org" "secret" "!space:example.org" "Me (work)".

Definition answer (body : json) : response := mkResponse 200 "" (Some body).

Definition member (user name : string) : string * json :=
  (user, JObj [("display_name", JStr name)]).

Definition sample_server : list response :=
  [mkResponse 404 "not found" None;
   answer (JObj [("joined_rooms", JArr [JStr "!general"; JStr "!dm"; JStr "!group"; JStr "!stranger"])]);
   answer (JObj [("rooms", JArr [JObj [("room_id", JStr "!general"); ("name", JStr "General")];
                                 JObj [("room_id", JStr "!elsewhere"); ("name", JStr "Elsewhere")]])]);
   answer (JObj [("joined", JObj [member "@me:example.org" "Me"; member "@al:example.org" "Al"])]);
   answer (JObj [("joined", JObj [member "@me:example.org" "Me"; member "@al:example.org" "Alice"])]);
   answer (JObj [("joined", JObj [member "@me:example.org" "Me"; member "@al:example.org" "Al";
                                  member "@bo:example.org" "Bo"])]);
   answer (JObj [("joined", JObj [member "@me:example.org" "Me"; member "@zed:example.org" "Zed"])]);
   answer (JObj [("avatar_url", JStr "mxc://example.org/me")]);
   answer (JObj []);
   answer (JObj [])].

Definition sample_client : Client :=
  mkClient "@me:example.org" "secret" (JStr "https://example.org")
           (JArr [JStr "!general"; JStr "!dm"]) [(JStr "!general", JStr "General")].

Definition sample_roster : list (string * json) :=
  [("@me:example.org", JStr "Me"); ("@al:example.org", JStr "Al")].

Definition identity (s : string) : string := s.


(** The listing of a conversation with a member of the space, and a
    discovery document that names no homeserver. *)
Definition dm_listing : list (string * json) :=
  [member "@me:example.org" "Me"; member "@al:example.org" "Alice"].

Definition empty_discovery : response :=
  answer (JObj [("m.identity_server", JObj [("base_url", JStr "https://id.example.org")])]).

(** A member whose entry in a listing carries an avatar and no display
    name. *)
Definition nameless (user : string) : string * json :=
  (user, JObj [("avatar_url", JStr "mxc://example.org/al")]).

(** The listing of a conversation with a member of the space who has set
    no display name. *)
Definition nameless_listing : list (string * json) :=
  [member "@me:example.org" "Me"; nameless "@al:example.org"].

(** Sample run: discovery is not served, two joined rooms, one of them in
    the hierarchy of the space, the other a conversation with a member of
    the space who has set no display name. *)
Definition nameless_server : list response :=
  [mkResponse 404 "not found" None;
   answer (JObj [("joined_rooms", JArr [JStr "!general"; JStr "!dm"])]);
   answer (JObj [("rooms", JArr [JObj [("room_id", JStr "!general"); ("name", JStr "General")]])]);
   answer (JObj [("joined", JObj nameless_listing)]);
   answer (JObj [("joined", JObj nameless_listing)]);
   answer (JObj [("avatar_url", JStr "mxc://example.org/me")]);
   answer (JObj [])].

End SetDisplayNameSpec.

Module SortPhotosRun.
Import SortPhotos SortPhotosSpec.

(** Every character is in the class of the pattern. *)
Definition all_in_class (s : string) : bool :=
  forallb in_class (list_ascii_of_string s).

(** Every character is a digit. *)
Definition all_digits (s : string) : bool :=
  forallb is_digit (list_ascii_of_string s).

(** The directory the scan files a name under, when it files it. *)
Definition destination (a : args) (file : string) : option string :=
  match re_match file with
  | Some (date_group, _) =>
      match strptime_Ymd date_group with
      | Return d =>
          match os_path_join (path a) (strftime_Ym d) with
          | Return dir_path => Some dir_path
          | Raises _ => None
          end
      | Raises _ => None
      end
  | None => None
  end.

(** What the move loop does for one bucket: the directory, then one move
    per file, each to the same name under the directory. *)
Definition bucket_events (p : string) (b : string * list string) : list event :=
  Mkdir (fst b)
  :: map (fun file => Move (posix_join p file) (posix_join (fst b) file)) (snd b).

(** The sources of the moves of a trace, in order. *)
Definition moved_sources (evs : list event) : list string :=
  flat_map (fun e => match e with Move src _ => [src] | _ => [] end) evs.

(** What the file system answers to a call made after the events [done]. *)
Definition fs_answer (fs : filesystem) (done : list event) (call : event) : result unit :=
  match call with
  | Mkdir dir_path => mkdir_result fs done dir_path
  | Move src dst => move_result fs done src dst
  | _ => Return tt
  end.

(** The file system accepts each of the calls, made in turn after [done]. *)
Fixpoint accepts (fs : filesystem) (done calls : list event) : Prop :=
  match calls with
  | [] => True
  | call :: rest =>
      fs_answer fs done call = Return tt /\ accepts fs (done ++ [call]) rest
  end.

(** The first of the calls, made in turn after [done], that the file
    system refuses: the calls made up to and including it, and the error. *)
Fixpoint first_refusal (fs : filesystem) (done calls : list event)
  : option (list event * exn) :=
  match calls with
  | [] => None
  | call :: rest =>
      match fs_answer fs done call with
      | Return _ =>
          match first_refusal fs (done ++ [call]) rest with
          | Some (made, e) => Some (call :: made, e)
          | None => None
          end
      | Raises e => Some ([call], e)
      end
  end.

(** The world after the calls of a loop: all of them when none is refused,
    those up to the first refusal otherwise. *)
Definition after_calls (fs : filesystem) (w : world) (calls : list event)
  : outcome unit * world :=
  match first_refusal fs (trace w) calls with
  | None => (Ok tt, mkWorld (script w) (trace w ++ calls))
  | Some (made, e) => (Abort (Raised e), mkWorld (script w) (trace w ++ made))
  end.

(** A directory where an earlier backup left a regular file named [2023]:
    no directory can be created under that name. *)
Definition cluttered : list string :=
  ["IMG_20220101_090000.jpg"; "2023"; "IMG_20230615_101500.jpg"].

Definition cluttered_fs : filesystem :=
  mkFilesystem
    (Raises OSError)
    (fun p => if String.eqb p "/photos" then Return cluttered else Raises OSError)
    (fun _ dir_path =>
       if String.prefix "/photos/2023/" dir_path then Raises OSError else Return tt)
    (fun _ _ _ => Return tt).

(** The ten digits, and the strings of two and of four digits. *)
Definition digit_chars : list ascii := list_ascii_of_string "0123456789".

Definition two_digits : list string :=
  flat_map (fun x => map (fun y => String x (String y EmptyString)) digit_chars) digit_chars.

Definition four_digits : list string :=
  flat_map (fun x => map (fun rest => String x rest)
                       (flat_map (fun y => map (fun rest => String y rest) two_digits)
                                 digit_chars))
           digit_chars.

(** Every bucket has a file, no directory is listed twice, and each file is
    in the bucket of its own directory. *)
Definition filed_well (a : args) (b : buckets) : Prop :=
  NoDup (map fst b) /\
  forall dir_path files,
    In (dir_path, files) b ->
    files <> [] /\ forall file, In file files -> destination a file = Some dir_path.

End SortPhotosRun.

Module DeleteForgottenRoomsRun.
Import DeleteForgottenRooms DeleteForgottenRoomsSpec.

(** The answer to a status poll is a success that reports ["purging"]. *)
Definition still_purging (res : response) : bool :=
  ok res &&
  match json_body res with
  | Some body =>
      match py_getitem body "status" with
      | Return st => py_eq_str st "purging"
      | Raises _ => false
      end
  | None => false
  end.

(** The answer to a status poll is a success that reports another status:
    that status and the body. *)
Definition final_poll (res : response) : option (json * json) :=
  if ok res then
    match json_body res with
    | Some body =>
        match py_getitem body "status" with
        | Return st => if py_eq_str st "purging" then None else Some (st, body)
        | Raises _ => None
        end
    | None => None
    end
  else None.

(** One turn of the polling loop that meets no error: the pause, then the
    status request. *)
Definition poll_events (py_str : json -> string) (a : args) (del_id : json) : list event :=
  [Sleep 1; Http "GET" (delete_status_url py_str a del_id) None].

(** Number of requests of a method in a trace. *)
Definition count_http (method : string) (evs : list event) : nat :=
  List.length (filter (is_http method) evs).

(** A request, if [e] is one, is a [GET] or a [DELETE] under the admin
    base URL. *)
Definition admin_request (a : args) (e : event) : Prop :=
  match e with
  | Http method url _ =>
      (method = "GET" \/ method = "DELETE") /\ String.prefix (ADMIN_BASE_URL a) url = true
  | _ => True
  end.

(** The answer to a listing request is a success with no room. *)
Definition empty_page (res : response) : bool :=
  ok res &&
  match json_body res with
  | Some body =>
      match py_getitem body "rooms" with
      | Return (JArr []) => true
      | _ => false
      end
  | None => false
  end.

(** What the script does with a page without rooms. *)
Definition empty_page_events (a : args) : list event :=
  [Http "GET" (rooms_url a) None;
   Print "Retrieved 0 more rooms";
   Print "Deleted 0/0 rooms"].


(** Number of deletion requests sent so far. *)
Definition deletions (w : world) : Z := Z.of_nat (count_http "DELETE" (trace w)).

(** Nothing was asked to be deleted between [w] and [w']. *)
Definition same_deletions (w w' : world) : Prop := deletions w' = deletions w.


(** Sample answers: two polls that find the deletion in progress, one that
    finds it failed; a batch size of zero and pages without rooms. *)
Definition purging_polls : list response :=
  [answer 200 (status_body "purging"); answer 200 (status_body "purging")].

Definition zero_batch_args : args :=
  mkArgs (Some "secret") (Some "http://localhost:8008") 0.

Definition no_rooms : response := answer 200 (JObj [("rooms", JArr [])]).

(** The deletion of a room listed with no joined local member is refused,
    and the refusal carries a JSON body. *)
Definition refused_empty_room (room : json) (res : response) : bool :=
  zero_members room &&
  match py_getitem room "room_id" with
  | Return _ => true
  | Raises _ => false
  end &&
  negb (ok res) &&
  match json_body res with
  | Some _ => true
  | None => false
  end.

(** What the script does for such a room: the notice, the request, and the
    report of the refusal with its body. *)
Definition refusal_events (py_str : json -> string) (a : args) (item : json * response)
  : list event :=
  let '(room, res) := item in
  match py_getitem room "room_id", json_body res with
  | Return room_id, Some body =>
      [Print ("Deleting room " ++ py_str room_id);
       deletion_request py_str a room_id;
       Print ("Failed to request deletion for room " ++ py_str room_id
                ++ ", skipping. Details:");
       PPrint body]
  | _, _ => []
  end.

(** What the script does with a page whose deletions are all refused. *)
Definition refused_page_events (py_str : json -> string) (a : args)
           (rooms : list json) (refusals : list response) : list event :=
  let n := str_int (Z.of_nat (List.length rooms)) in
  Http "GET" (rooms_url a) None
  :: Print ("Retrieved " ++ n ++ " more rooms")
  :: flat_map (refusal_events py_str a) (combine rooms refusals)
  ++ [Print ("Deleted " ++ n ++ "/" ++ n ++ " rooms")].

(** A full page of two abandoned rooms, and two refusals. *)
Definition full_page_listing : response := answer 200 (JObj [("rooms", JArr full_page)]).

Definition two_refusals : list response :=
  [answer 500 error_body; answer 502 error_body].

End DeleteForgottenRoomsRun.

Module SetDisplayNameRun.
Import SetDisplayName SetDisplayNameSpec.

(** Number of occurrences of a character. *)
Fixpoint count_char (sep : ascii) (s : string) : nat :=
  match s with
  | EmptyString => O
  | String c rest => ((if Ascii.eqb c sep then 1 else 0) + count_char sep rest)%nat
  end.

(** The two state errors of the script. *)
Definition invalid_user_id : exn :=
  RuntimeError "Invalid user ID, please use the full identifier in the format: @user:domain.com".

Definition before_init : exn :=
  RuntimeError "Tried to make API requests before successful init".

(** Every event satisfies this: used to say that a trace only grows. *)
Definition any_event (e : event) : Prop := True.

(** [e] is not an HTTP request. *)
Definition no_request (e : event) : Prop :=
  match e with
  | Http _ _ _ => False
  | _ => True
  end.

(** The membership event [change_display_name] sends. *)
Definition evt_content (new_display_name : string) (avatar_url : json) : json :=
  JObj [("membership", JStr "join");
        ("displayname", JStr new_display_name);
        ("avatar_url", avatar_url)].

(** [current_profile.get("avatar_url")] on a profile that is a dict. *)
Definition avatar_of (fields : list (string * json)) : json :=
  match lookup "avatar_url" fields with
  | Some v => v
  | None => JNull
  end.

(** The answer to an update is a refusal, or a success with a JSON body. *)
Definition tolerable (ans : response) : bool :=
  negb (status ans =? 200)%Z ||
  match json_body ans with
  | Some _ => true
  | None => false
  end.

(** What the update loop does for one room, given the answer: the [PUT],
    and the report of the failure when the status is not 200. *)
Definition update_events (py_str : json -> string) (c : Client) (evt : json)
           (item : (json * json) * response) : list event :=
  let '((room_id, room_name), ans) := item in
  let url := (py_str (base_url c) ++ member_state_path py_str c room_id)%string in
  Http "PUT" url (Some evt)
  :: (if negb (status ans =? 200)%Z
      then [Print ("Failed to update " ++ esc ++ "[1m" ++ py_str room_name ++ esc ++ "[0m ("
                     ++ py_str room_id ++ ") (trying " ++ url ++ "): "
                     ++ str_int (status ans) ++ " - " ++ text ans)]
      else []).

(** The name of an entry is of the form ["DM with ..."]. *)
Definition dm_named (entry : json * json) : Prop :=
  exists name, snd entry = JStr ("DM with " ++ name).

(** No two keys of the dict are equal. *)
Fixpoint distinct_keys (d : pydict) : Prop :=
  match d with
  | [] => True
  | (k, _) :: rest =>
      (forall k' v', In (k', v') rest -> py_eq k' k = false) /\ distinct_keys rest
  end.

(** Every key of the dict is equal to one of the joined rooms. *)
Definition keys_joined (joined : list json) (d : pydict) : Prop :=
  forall k v, In (k, v) d -> existsb (py_eq k) joined = true.


(** The client of the sample run once [init] has gone through, the answers
    of the sample server that come after, and the client the search for
    the rooms of the space ends with. *)
Definition initialised_client : Client :=
  mkClient "@me:example.org" "secret" (JStr "https://example.org")
           (JArr [JStr "!general"; JStr "!dm"; JStr "!group"; JStr "!stranger"]) [].

Definition answers_after_init : list response := skipn 2 sample_server.

Definition searched_client : Client :=
  set_rooms_in_space initialised_client
    [(JStr "!general", JStr "General"); (JStr "!dm", JStr "DM with Alice")].

Definition dm_answers : list response :=
  [answer (JObj [("joined", JObj [member "@me:example.org" "Me"; member "@al:example.org" "Al"])]);
   answer (JObj [("joined", JObj dm_listing)])].

Definition profile_answer : response :=
  answer (JObj [("avatar_url", JStr "mxc://example.org/me")]).

(** The answer lists [fields] as the joined members of a room. *)
Definition lists_members (res : response) (fields : list (string * json)) : Prop :=
  status res = 200%Z /\
  exists body,
    json_body res = Some body /\ py_getitem body "joined" = Return (JObj fields).

(** The listing is that of a conversation between the acting user and
    [user], whose entry in the listing is [info]. *)
Definition conversation_with (c : Client) (fields : list (string * json))
           (user : string) (info : json) : Prop :=
  NoDup (keys fields) /\ List.length fields = 2%nat /\
  In (user_id c) (keys fields) /\ In (user, info) fields /\ user <> user_id c.

(** Every entry of the listing is a dict. *)
Definition entries_are_dicts (fields : list (string * json)) : Prop :=
  Forall (fun item => exists info, snd item = JObj info) fields.

(** A client that has joined one room, which is not in its map. *)
Definition dm_client : Client :=
  mkClient "@me:example.org" "secret" (JStr "https://example.org")
           (JArr [JStr "!dm"]) [(JStr "!general", JStr "General")].

End SetDisplayNameRun.

(** * Proofs *)

(** ** The monad *)

Lemma bind_inv {A B} (m : M A) (f : A -> M B) w r w' :
  bind m f w = (r, w') ->
  (exists a w1, m w = (Ok a, w1) /\ f a w1 = (r, w')) \/
  (exists why, m w = (Abort why, w') /\ r = Abort why).
Proof.
  unfold bind. destruct (m w) as [[a | why] w1] eqn:E; intros H.
  - left. exists a, w1. split; [reflexivity | exact H].
  - right. inversion H; subst. exists why. split; reflexivity.
Qed.

Lemma bind_ok {A B} (m : M A) (f : A -> M B) w a w1 :
  m w = (Ok a, w1) -> bind m f w = f a w1.
Proof. intros H. unfold bind. rewrite H. reflexivity. Qed.

Lemma bind_abort {A B} (m : M A) (f : A -> M B) w why w1 :
  m w = (Abort why, w1) -> bind m f w = (Abort why, w1).
Proof. intros H. unfold bind. rewrite H. reflexivity. Qed.

Lemma lift_return {A} (r : result A) a w : r = Return a -> lift r w = (Ok a, w).
Proof. intros ->. reflexivity. Qed.

Lemma lift_raises {A} (r : result A) e w :
  r = Raises e -> lift r w = (Abort (Raised e), w).
Proof. intros ->. reflexivity. Qed.

Section Preserves.

Variable R : world -> world -> Prop.
Hypothesis R_refl : forall w, R w w.
Hypothesis R_trans : forall w1 w2 w3, R w1 w2 -> R w2 w3 -> R w1 w3.

Lemma preserves_ret {A} (a : A) : preserves R (ret a).
Proof. intros w r w' H. inversion H; subst. apply R_refl. Qed.

Lemma preserves_stop {A} why : preserves R (@stop A why).
Proof. intros w r w' H. inversion H; subst. apply R_refl. Qed.

Lemma preserves_lift {A} (x : result A) : preserves R (lift x).
Proof. destruct x; [apply preserves_ret | apply preserves_stop]. Qed.

Lemma preserves_bind {A B} (m : M A) (f : A -> M B) :
  preserves R m -> (forall a, preserves R (f a)) -> preserves R (bind m f).
Proof.
  intros Hm Hf w r w' H.
  destruct (bind_inv _ _ _ _ _ H) as [(a & w1 & H1 & H2) | (why & H1 & _)].
  - eapply R_trans; [eapply Hm | eapply Hf]; eassumption.
  - eapply Hm; eassumption.
Qed.

Lemma preserves_for_each {A S} (l : list A) (body : A -> S -> M S) :
  (forall x acc, In x l -> preserves R (body x acc)) ->
  forall acc, preserves R (for_each l body acc).
Proof.
  induction l as [| x l IH]; intros Hb acc; simpl.
  - apply preserves_ret.
  - apply preserves_bind.
    + apply Hb. left. reflexivity.
    + intros acc'. apply IH. intros y acc'' Hy. apply Hb. right. exact Hy.
Qed.

Lemma preserves_except {A} (m : M A) handler :
  preserves R m -> (forall code content url, preserves R (handler code content url)) ->
  preserves R (except_HttpError m handler).
Proof.
  intros Hm Hh w r w' H. unfold except_HttpError in H.
  destruct (m w) as [[a | [[] | | |]] w1] eqn:E;
    try (inversion H; subst; eapply Hm; eassumption).
  eapply R_trans; [eapply Hm | eapply Hh]; eassumption.
Qed.

Lemma preserves_res_json res : preserves R (res_json res).
Proof.
  unfold res_json. destruct (json_body res); [apply preserves_ret | apply preserves_stop].
Qed.

End Preserves.

Lemma grows_refl Q w : grows Q w w.
Proof. exists []. split; [symmetry; apply app_nil_r | constructor]. Qed.

Lemma grows_trans Q w1 w2 w3 : grows Q w1 w2 -> grows Q w2 w3 -> grows Q w1 w3.
Proof.
  intros (e1 & H1 & F1) (e2 & H2 & F2). exists (e1 ++ e2). split.
  - rewrite H2, H1. symmetry. apply app_assoc.
  - apply Forall_app. split; assumption.
Qed.

Lemma grows_emit (Q : event -> Prop) e : Q e -> preserves (grows Q) (emit e).
Proof.
  intros HQ w r w' H. inversion H; subst. exists [e]. split; [reflexivity |].
  constructor; [exact HQ | constructor].
Qed.

Lemma grows_http (Q : event -> Prop) method url body :
  Q (Http method url body) -> preserves (grows Q) (http method url body).
Proof.
  intros HQ w r w' H. unfold http in H.
  destruct (script w); inversion H; subst; exists [Http method url body];
    (split; [reflexivity | constructor; [exact HQ | constructor]]).
Qed.

Lemma script_le_refl w : script_le w w.
Proof. unfold script_le. lia. Qed.

Lemma script_le_trans w1 w2 w3 : script_le w1 w2 -> script_le w2 w3 -> script_le w1 w3.
Proof. unfold script_le. lia. Qed.

Lemma script_le_emit e : preserves script_le (emit e).
Proof. intros w r w' H. inversion H; subst. unfold script_le. simpl. lia. Qed.

Lemma script_le_http method url body : preserves script_le (http method url body).
Proof.
  intros w r w' H. unfold http in H. unfold script_le.
  destruct (script w); inversion H; subst; simpl; lia.
Qed.

(** A request that is answered uses up one response. *)
Lemma http_consumes method url body w res w' :
  http method url body w = (Ok res, w') ->
  List.length (script w) = S (List.length (script w')).
Proof.
  unfold http. destruct (script w); intros H; inversion H; subst. reflexivity.
Qed.

Create HintDb py.
#[local] Hint Resolve grows_refl grows_trans script_le_refl script_le_trans : py.
#[local] Hint Resolve preserves_ret preserves_stop preserves_lift preserves_res_json
  script_le_emit script_le_http : py.

(** Goes through the structure of a computation to show that it preserves
    a relation, leaving the requests and events to the caller. *)
Ltac preserves_step R_refl R_trans :=
  match goal with
  | |- preserves _ (bind _ _) => apply (preserves_bind _ R_trans); [| intros ?]
  | |- preserves _ (ret _) => apply (preserves_ret _ R_refl)
  | |- preserves _ (stop _) => apply (preserves_stop _ R_refl)
  | |- preserves _ (raise _) => apply (preserves_stop _ R_refl)
  | |- preserves _ (exit _) => apply (preserves_stop _ R_refl)
  | |- preserves _ (lift _) => apply (preserves_lift _ R_refl)
  | |- preserves _ (res_json _) => apply (preserves_res_json _ R_refl)
  | |- preserves _ (except_HttpError _ _) =>
      apply (preserves_except _ R_trans); [| intros ? ? ?]
  | |- preserves _ (if ?b then _ else _) => destruct b
  | |- preserves _ (match ?x with (_, _) => _ end) => destruct x
  end.

(** ** sort_photos.py *)

Module SortPhotosProofs.
Import SortPhotos SortPhotosSpec.

Lemma bucket_total_record dir_path file b :
  bucket_total (record_file dir_path file b) = (bucket_total b + 1)%Z.
Proof.
  induction b as [| [d fs] rest IH]; simpl.
  - reflexivity.
  - destruct (String.eqb d dir_path); simpl.
    + rewrite length_app. simpl. lia.
    + rewrite IH. lia.
Qed.

(** The parse of a date group fails with [ValueError] and nothing else. *)
Lemma strptime_raises group e : strptime_Ymd group = Raises e -> e = ValueError.
Proof.
  unfold strptime_Ymd. destruct (valid_date _); intros H; inversion H. reflexivity.
Qed.

(** What one turn of the scan that returns does to the count and to the
    buckets. *)
Lemma scan_file_counts a file n b n' b' :
  scan_file a file (n, b) = Return (n', b') ->
  n' = (n - (if recognised file then 0 else 1))%Z /\
  bucket_total b' = (bucket_total b + (if recognised file then 1 else 0))%Z.
Proof.
  unfold recognised, scan_file.
  destruct (re_match file) as [[g t] |].
  - destruct (strptime_Ymd g) as [d |]; [| discriminate].
    destruct (os_path_join (path a) (strftime_Ym d)) as [dir_path |]; [| discriminate].
    intros H. inversion H; subst. split; [lia | apply bucket_total_record].
  - intros H. inversion H; subst. split; lia.
Qed.

Lemma scan_counts a files : forall n b n' b',
  scan a files (n, b) = Return (n', b') ->
  n' = (n - unrecognised files)%Z /\
  bucket_total b' = (bucket_total b + Z.of_nat (List.length files) - unrecognised files)%Z.
Proof.
  induction files as [| file rest IH]; intros n b n' b' H.
  - inversion H; subst. simpl. split; lia.
  - cbn [scan] in H.
    destruct (scan_file a file (n, b)) as [[n1 b1] | e] eqn:E1; [| discriminate].
    apply scan_file_counts in E1. destruct E1 as [Hn1 Hb1].
    apply IH in H. destruct H as [Hn Hb].
    cbn [unrecognised]. change (List.length (file :: rest)) with (S (List.length rest)).
    destruct (recognised file); split; lia.
Qed.

(** In a named directory where every recognised name carries a date of the
    calendar, the scan returns. *)
Lemma scan_returns p files : forall st,
  forallb well_dated files = true ->
  exists st', scan (mkArgs (Some p)) files st = Return st'.
Proof.
  induction files as [| file rest IH]; intros [n b] H.
  - exists (n, b). reflexivity.
  - simpl in H. apply andb_true_iff in H. destruct H as [Hf Hr].
    cbn [scan]. unfold scan_file, well_dated in *.
    destruct (re_match file) as [[g t] |].
    + destruct (strptime_Ymd g) as [d |]; [| discriminate]. simpl. apply IH. exact Hr.
    + apply IH. exact Hr.
Qed.

(** C6.  Whenever the scan of a listing returns, its count is the sum of
    the sizes of the buckets and is the number of entries minus the number
    of entries whose name is not recognised (first part).  In a named
    directory where every recognised name carries a date of the calendar,
    the scan does return, and its count is the one [main] prints as
    ["Moving <n> files"] before it moves the buckets (second part). *)
Theorem moved_count_invariant (a : args) (fs : filesystem) (files : list string) :
  os_listdir fs (path a) = Return files ->
  (forall n_files files_to_move,
      scan a files (Z.of_nat (List.length files), []) = Return (n_files, files_to_move) ->
      n_files = bucket_total files_to_move /\
      n_files = (Z.of_nat (List.length files) - unrecognised files)%Z) /\
  (path a <> None ->
   forallb well_dated files = true ->
   exists n_files files_to_move,
     scan a files (Z.of_nat (List.length files), []) = Return (n_files, files_to_move) /\
     forall w, main a fs w = report_and_move a fs n_files files_to_move w).
Proof.
  intros Hl. split.
  - intros n b E. apply scan_counts in E. destruct E as [Hn Hb].
    split; [| exact Hn]. rewrite Hb, Hn. simpl. lia.
  - intros Hp Hd. destruct a as [[p |]]; [| contradiction].
    destruct (scan_returns p files (Z.of_nat (List.length files), []) Hd) as ([n b] & E).
    exists n, b. split; [exact E |].
    intros w. unfold main. rewrite Hl.
    rewrite (bind_ok _ _ w files w) by reflexivity. cbv beta.
    rewrite (bind_ok _ _ w (n, b) w) by (apply lift_return; exact E). reflexivity.
Qed.

Lemma moved_count_invariant_witness :
  (2%Z = bucket_total [("/photos/2023/06", ["IMG_20230615_101500.jpg"]);
                       ("/photos/2023/01", ["PANO_20230101_080000.jpg"])] /\
   2%Z = (Z.of_nat (List.length photos) - unrecognised photos)%Z) /\
  exists n_files files_to_move,
    scan (mkArgs (Some "/photos")) photos (Z.of_nat (List.length photos), [])
    = Return (n_files, files_to_move) /\
    forall w, main (mkArgs (Some "/photos")) sample_fs w
              = report_and_move (mkArgs (Some "/photos")) sample_fs n_files files_to_move w.
Proof.
  destruct (moved_count_invariant (mkArgs (Some "/photos")) sample_fs photos eq_refl)
    as [H1 H2].
  split.
  - apply H1. reflexivity.
  - apply H2; [discriminate | reflexivity].
Defined.

(** Whatever the scan meets first, it fails as soon as it reaches a
    recognised name whose date group is not a date. *)
Lemma scan_raises a files : forall st,
  existsb (fun f => negb (well_dated f)) files = true ->
  exists e, (e = ValueError \/ (path a = None /\ e = TypeError)) /\ scan a files st = Raises e.
Proof.
  induction files as [| file rest IH]; intros [n b] H; [discriminate |].
  simpl in H. cbn [scan]. unfold scan_file, well_dated in *.
  destruct (re_match file) as [[g t] |].
  - destruct (strptime_Ymd g) as [d |] eqn:Eg.
    + simpl in H. destruct a as [[p |]]; simpl.
      * apply IH. exact H.
      * exists TypeError. split; [right; split; reflexivity | reflexivity].
    + exists e. split; [left; eapply strptime_raises; eassumption | reflexivity].
  - simpl in H. apply IH. exact H.
Qed.

(** The moves come after the whole scan: a run that produced any event
    went through a scan that returned. *)
Lemma scan_precedes_moves a fs w r w' :
  main a fs w = (r, w') ->
  w' <> w ->
  exists files st,
    os_listdir fs (path a) = Return files /\
    scan a files (Z.of_nat (List.length files), []) = Return st.
Proof.
  unfold main. intros H Hne.
  destruct (os_listdir fs (path a)) as [files | e] eqn:El.
  - rewrite (bind_ok _ _ w files w) in H by reflexivity. cbv beta in H.
    destruct (scan a files _) as [st | e] eqn:Es.
    + exists files, st. split; first [reflexivity | assumption].
    + cbn in H. inversion H; subst. contradiction.
  - cbn in H. inversion H; subst. contradiction.
Qed.

(** C9.  When the listing holds a recognised name whose eight digits are
    not a date of the calendar, the run aborts with an exception and the
    world is the one it started from: no directory was created and no file
    moved.  The exception is the [ValueError] of the date parse (or, when
    [--path] was omitted, the [TypeError] of an earlier path join). *)
Theorem invalid_date_aborts_before_any_move a fs files w :
  os_listdir fs (path a) = Return files ->
  existsb (fun f => negb (well_dated f)) files = true ->
  exists e,
    (e = ValueError \/ (path a = None /\ e = TypeError)) /\
    main a fs w = (Abort (Raised e), w).
Proof.
  intros Hl Hbad.
  destruct (scan_raises a files (Z.of_nat (List.length files), []) Hbad) as (e & He & Es).
  exists e. split; [exact He |].
  unfold main. rewrite Hl. rewrite (bind_ok _ _ w files w) by reflexivity. cbv beta.
  apply bind_abort. apply lift_raises. exact Es.
Qed.

Lemma invalid_date_aborts_before_any_move_witness :
  exists e,
    (e = ValueError \/ (path (mkArgs (Some "/broken")) = None /\ e = TypeError)) /\
    main (mkArgs (Some "/broken")) sample_fs (mkWorld [] [])
      = (Abort (Raised e), mkWorld [] []).
Proof.
  apply (invalid_date_aborts_before_any_move (mkArgs (Some "/broken")) sample_fs
           ["IMG_20230615_101500.jpg"; "IMG_20230231_101500.jpg"]); reflexivity.
Defined.

(** With [--path] omitted the scan cannot get past a recognised name: the
    date parse or the path join raises.  Unrecognised names only lower the
    count. *)
Lemma scan_without_path files : forall n b,
  scan (mkArgs None) files (n, b) =
  match find recognised files with
  | Some file => Raises (if well_dated file then TypeError else ValueError)
  | None => Return ((n - Z.of_nat (List.length files))%Z, b)
  end.
Proof.
  induction files as [| file rest IH]; intros n b.
  - simpl. f_equal. f_equal. lia.
  - cbn [scan find]. unfold scan_file, recognised.
    destruct (re_match file) as [[g t] |] eqn:Em.
    + unfold well_dated. rewrite Em.
      destruct (strptime_Ymd g) as [d |] eqn:Eg; simpl.
      * reflexivity.
      * f_equal. eapply strptime_raises; eassumption.
    + rewrite IH. fold recognised.
      destruct (find recognised rest); [reflexivity |].
      f_equal. f_equal. change (List.length (file :: rest)) with (S (List.length rest)). lia.
Qed.

(** C3, as stated, fails.  With [--path] omitted and a current directory
    that holds a photo, the listing step succeeds (the current directory is
    listed); the run fails later, in the scan, on the path join for a name
    that has already been matched. *)
Lemma omitted_path_passes_listing :
  ~ fails_at_listing (mkArgs None) sample_fs /\
  os_listdir sample_fs (path (mkArgs None)) = Return ["notes.txt"; "IMG_20230615_101500.jpg"] /\
  re_match "IMG_20230615_101500.jpg" = Some ("20230615", "101500") /\
  run (main (mkArgs None) sample_fs) [] = (Abort (Raised TypeError), mkWorld [] []).
Proof.
  split; [| repeat split; reflexivity].
  intros [e H]. discriminate H.
Qed.

(** C3, amended.  With [--path] omitted nothing rejects the missing
    argument and the listing step lists the current directory.  When that
    listing succeeds, the run fails in the scan at the first recognised
    name, with the world untouched (nothing moved): a [TypeError] from the
    path join, or the [ValueError] of its date.  With no recognised name
    the run completes and reports zero files to move. *)
Theorem omitted_path_fails_in_scan fs files w :
  cwd_listing fs = Return files ->
  os_listdir fs (path (mkArgs None)) = Return files /\
  match find recognised files with
  | Some file =>
      main (mkArgs None) fs w
      = (Abort (Raised (if well_dated file then TypeError else ValueError)), w)
  | None =>
      main (mkArgs None) fs w
      = (Ok tt, mkWorld (script w) (trace w ++ [Print "Moving 0 files"]))
  end.
Proof.
  intros Hl. split; [exact Hl |].
  unfold main. cbn [path os_listdir]. rewrite Hl.
  rewrite (bind_ok _ _ w files w) by reflexivity. cbv beta.
  pose proof (scan_without_path files (Z.of_nat (List.length files)) []) as Hs.
  destruct (find recognised files) as [file |].
  - apply bind_abort. apply lift_raises. exact Hs.
  - rewrite Z.sub_diag in Hs.
    rewrite (bind_ok _ _ w (0%Z, ([] : buckets)) w) by (apply lift_return; exact Hs).
    reflexivity.
Qed.

Lemma omitted_path_fails_in_scan_witness :
  os_listdir sample_fs (path (mkArgs None)) = Return ["notes.txt"; "IMG_20230615_101500.jpg"] /\
  match find recognised ["notes.txt"; "IMG_20230615_101500.jpg"] with
  | Some file =>
      main (mkArgs None) sample_fs (mkWorld [] [])
      = (Abort (Raised (if well_dated file then TypeError else ValueError)), mkWorld [] [])
  | None =>
      main (mkArgs None) sample_fs (mkWorld [] [])
      = (Ok tt, mkWorld [] ([] ++ [Print "Moving 0 files"]))
  end.
Proof.
  apply (omitted_path_fails_in_scan sample_fs ["notes.txt"; "IMG_20230615_101500.jpg"]
           (mkWorld [] [])).
  reflexivity.
Defined.

End SortPhotosProofs.

(** ** Reading a run backwards *)

Lemma bind_inv_ok {A B} (m : M A) (f : A -> M B) w b w' :
  bind m f w = (Ok b, w') ->
  exists a w1, m w = (Ok a, w1) /\ f a w1 = (Ok b, w').
Proof.
  intros H. destruct (bind_inv _ _ _ _ _ H) as [H1 | (why & _ & H2)];
    [exact H1 | discriminate H2].
Qed.

Lemma lift_inv_ok {A} (r : result A) w a w' :
  lift r w = (Ok a, w') -> r = Return a /\ w' = w.
Proof. destruct r; intros H; inversion H; subst. split; reflexivity. Qed.

Lemma bind_ret {A B} (x : A) (f : A -> M B) : bind (ret x) f = f x.
Proof. reflexivity. Qed.

Lemma bind_stop {A B} why (f : A -> M B) : bind (stop why) f = stop why.
Proof. reflexivity. Qed.

Lemma grows_weaken (Q Q' : event -> Prop) w w' :
  (forall e, Q e -> Q' e) -> grows Q w w' -> grows Q' w w'.
Proof.
  intros HQ (evs & Ht & Hf). exists evs. split; [exact Ht |].
  eapply Forall_impl; [exact HQ | exact Hf].
Qed.

(** Takes apart a hypothesis saying that a computation returned. *)
Ltac ok_inv H :=
  repeat first
    [ apply bind_inv_ok in H; destruct H as (? & ? & ? & H)
    | match type of H with (if ?b then _ else _) _ = _ => destruct b end
    | match type of H with (match ?x with (_, _) => _ end) _ = _ => destruct x end
    | match type of H with ret _ _ = _ => inversion H; subst; clear H end ].

(** ** Fuel *)

Lemma fueled_ret {A} n (x : A) : fueled n (ret x).
Proof. intros w r w' _ H. inversion H. discriminate. Qed.

Lemma fueled_raise {A} n e : fueled n (@raise A e).
Proof. intros w r w' _ H. inversion H. discriminate. Qed.

Lemma fueled_exit {A} n code : fueled n (@exit A code).
Proof. intros w r w' _ H. inversion H. discriminate. Qed.

Lemma fueled_lift {A} n (x : result A) : fueled n (lift x).
Proof. destruct x; [apply fueled_ret | apply fueled_raise]. Qed.

Lemma fueled_emit n e : fueled n (emit e).
Proof. intros w r w' _ H. inversion H. discriminate. Qed.

Lemma fueled_http n method url body : fueled n (http method url body).
Proof.
  intros w r w' _ H. unfold http in H. destruct (script w); inversion H; discriminate.
Qed.

Lemma fueled_res_json n res : fueled n (res_json res).
Proof. unfold res_json. destruct (json_body res); [apply fueled_ret | apply fueled_raise]. Qed.

Lemma fueled_bind {A B} n (m : M A) (f : A -> M B) :
  fueled n m -> preserves script_le m -> (forall x, fueled n (f x)) -> fueled n (bind m f).
Proof.
  intros Hm Hs Hf w r w' Hn H.
  destruct (bind_inv _ _ _ _ _ H) as [(x & w1 & H1 & H2) | (why & H1 & ->)].
  - apply (Hf x w1 r w'); [| exact H2].
    pose proof (Hs _ _ _ H1) as Hle. unfold script_le in Hle. lia.
  - intros E. injection E as ->. exact (Hm w _ w' Hn H1 eq_refl).
Qed.

(** After an answered request there is one response less: the rest may
    run on one unit of fuel less. *)
Lemma fueled_http_bind {B} n method url body (f : response -> M B) :
  (forall res, fueled n (f res)) -> fueled (S n) (bind (http method url body) f).
Proof.
  intros Hf w r w' Hn H.
  destruct (bind_inv _ _ _ _ _ H) as [(res & w1 & H1 & H2) | (why & H1 & ->)].
  - apply (Hf res w1 r w'); [| exact H2].
    pose proof (http_consumes _ _ _ _ _ _ H1). lia.
  - intros E. injection E as ->.
    exact (fueled_http (S n) method url body w _ w' Hn H1 eq_refl).
Qed.

Lemma fueled_for_each {A S} n (l : list A) (body : A -> S -> M S) :
  (forall x acc, fueled n (body x acc)) ->
  (forall x acc, preserves script_le (body x acc)) ->
  forall acc, fueled n (for_each l body acc).
Proof.
  intros Hb Hs. induction l as [| x l IH]; intros acc; simpl.
  - apply fueled_ret.
  - apply fueled_bind; [apply Hb | apply Hs | exact IH].
Qed.

Ltac fueled_step :=
  match goal with
  | |- fueled _ (bind _ _) => apply fueled_bind; [| | intros ?]
  | |- fueled _ (ret _) => apply fueled_ret
  | |- fueled _ (raise _) => apply fueled_raise
  | |- fueled _ (exit _) => apply fueled_exit
  | |- fueled _ (lift _) => apply fueled_lift
  | |- fueled _ (emit _) => apply fueled_emit
  | |- fueled _ (print _) => apply fueled_emit
  | |- fueled _ (pprint _) => apply fueled_emit
  | |- fueled _ (http _ _ _) => apply fueled_http
  | |- fueled _ (res_json _) => apply fueled_res_json
  | |- fueled _ (if ?b then _ else _) => destruct b
  | |- fueled _ (match ?x with (_, _) => _ end) => destruct x
  end.

Ltac script_le_step :=
  first
    [ preserves_step script_le_refl script_le_trans
    | match goal with
      | |- preserves script_le (emit _) => apply script_le_emit
      | |- preserves script_le (print _) => apply script_le_emit
      | |- preserves script_le (pprint _) => apply script_le_emit
      | |- preserves script_le (http _ _ _) => apply script_le_http
      end ].

(** ** delete_forgotten_rooms.py *)

Module DeleteForgottenRoomsProofs.
Import DeleteForgottenRooms DeleteForgottenRoomsSpec.

Section Deletion.

Variable py_str : json -> string.
Variable a : args.

(** *** The script uses up responses and never lacks fuel *)

Lemma watch_deletion_script_le fuel room_id del_id :
  preserves script_le (watch_deletion py_str a fuel room_id del_id).
Proof.
  induction fuel as [| fuel IH]; cbn [watch_deletion].
  - script_le_step.
  - repeat script_le_step. exact IH.
Qed.

Lemma process_room_script_le fuel room deleted :
  preserves script_le (process_room py_str a fuel room deleted).
Proof.
  unfold process_room. repeat script_le_step; apply watch_deletion_script_le.
Qed.

Lemma process_rooms_script_le fuel rooms deleted :
  preserves script_le (process_rooms py_str a fuel rooms deleted).
Proof.
  unfold process_rooms.
  apply (preserves_for_each _ script_le_refl script_le_trans).
  intros room acc _. apply process_room_script_le.
Qed.

Lemma watch_deletion_fueled fuel room_id del_id :
  fueled fuel (watch_deletion py_str a fuel room_id del_id).
Proof.
  induction fuel as [| fuel IH]; cbn [watch_deletion].
  - intros w r w' Hn. inversion Hn.
  - apply fueled_bind; [apply fueled_emit | apply script_le_emit | intros _].
    apply fueled_http_bind. intros res.
    repeat first [fueled_step | script_le_step | exact IH].
Qed.

Lemma process_room_fueled fuel room deleted :
  fueled fuel (process_room py_str a fuel room deleted).
Proof.
  unfold process_room.
  repeat first [fueled_step | script_le_step
               | apply watch_deletion_fueled | apply watch_deletion_script_le].
Qed.

Lemma process_rooms_fueled fuel rooms deleted :
  fueled fuel (process_rooms py_str a fuel rooms deleted).
Proof.
  unfold process_rooms. apply fueled_for_each.
  - intros room acc. apply process_room_fueled.
  - intros room acc. apply process_room_script_le.
Qed.

(** A page that was processed took at least its listing response. *)
Lemma batch_consumes fuel w deleted w' :
  batch py_str a fuel w = (Ok deleted, w') ->
  (List.length (script w') < List.length (script w))%nat.
Proof.
  unfold batch. intros H.
  apply bind_inv_ok in H. destruct H as (res & w1 & H1 & H).
  pose proof (http_consumes _ _ _ _ _ _ H1) as Hc.
  match type of H with
  | ?m _ = _ => assert (Hp : preserves script_le m)
  end.
  { repeat script_le_step. apply process_rooms_script_le. }
  pose proof (Hp _ _ _ H) as Hle. unfold script_le in Hle. lia.
Qed.

Lemma batch_fueled fuel : fueled (S fuel) (batch py_str a fuel).
Proof.
  unfold batch. apply fueled_http_bind. intros res.
  repeat first [fueled_step | script_le_step
               | apply process_rooms_fueled | apply process_rooms_script_le].
Qed.

Lemma main_loop_fueled fuel : forall deleted,
  fueled fuel (main_loop py_str a fuel deleted).
Proof.
  induction fuel as [| fuel IH]; intros deleted; cbn [main_loop].
  - intros w r w' Hn. inversion Hn.
  - destruct (deleted =? BATCH_SIZE a)%Z; [| apply fueled_ret].
    intros w r w' Hn H.
    destruct (bind_inv _ _ _ _ _ H) as [(d & w1 & H1 & H2) | (why & H1 & ->)].
    + apply (IH d w1 r w'); [| exact H2].
      pose proof (batch_consumes _ _ _ _ H1). lia.
    + intros E. injection E as ->.
      exact (batch_fueled fuel w _ w' Hn H1 eq_refl).
Qed.

(** The loops of the model are never cut short: with one unit of fuel
    more than the server has responses, the script ends by itself, by an
    exception, by [exit], or waits for a response the server does not
    give. *)
Lemma run_main_never_out_of_fuel server :
  fst (run_main py_str a server) <> Abort OutOfFuel.
Proof.
  unfold run_main, run, main.
  destruct (main_loop py_str a (S (List.length server)) (BATCH_SIZE a)
              (mkWorld server [])) as [r w'] eqn:E.
  simpl. eapply main_loop_fueled; [| exact E]. simpl. lia.
Qed.

(** *** Which requests a page gives rise to *)

Lemma watch_deletion_grows (Q : event -> Prop) fuel room_id del_id :
  (forall e, is_http "DELETE" e = false -> Q e) ->
  preserves (grows Q) (watch_deletion py_str a fuel room_id del_id).
Proof.
  intros HQ. induction fuel as [| fuel IH]; cbn [watch_deletion].
  - apply (preserves_stop _ (grows_refl Q)).
  - repeat first
      [ preserves_step (grows_refl Q) (grows_trans Q)
      | exact IH
      | apply grows_emit; apply HQ; reflexivity
      | apply grows_http; apply HQ; reflexivity ].
Qed.

Lemma process_room_grows fuel room deleted :
  preserves (grows (deletes_only_empty py_str a [room]))
            (process_room py_str a fuel room deleted).
Proof.
  set (Q := deletes_only_empty py_str a [room]).
  assert (HQ : forall e, is_http "DELETE" e = false -> Q e).
  { intros e He Hd. rewrite He in Hd. discriminate Hd. }
  unfold process_room.
  destruct (py_getitem room "room_id") as [room_id | e] eqn:Hid;
    [| apply (preserves_stop _ (grows_refl Q))].
  cbn [lift]. rewrite bind_ret.
  destruct (py_getitem room "joined_local_members") as [count | e] eqn:Hc;
    [| apply (preserves_stop _ (grows_refl Q))].
  cbn [lift]. rewrite bind_ret.
  destruct (py_eq_int count 0) eqn:Hz; cbn [negb].
  - apply (preserves_bind _ (grows_trans Q)); [apply grows_emit, HQ; reflexivity | intros _].
    apply (preserves_bind _ (grows_trans Q)).
    + apply grows_http. intros _. exists room, room_id. repeat split.
      * left. reflexivity.
      * unfold zero_members. rewrite Hc. exact Hz.
      * exact Hid.
    + intros res.
      repeat first
        [ preserves_step (grows_refl Q) (grows_trans Q)
        | apply watch_deletion_grows; exact HQ
        | apply grows_emit, HQ; reflexivity ].
  - repeat first
      [ preserves_step (grows_refl Q) (grows_trans Q)
      | apply grows_emit, HQ; reflexivity ].
Qed.

Lemma process_rooms_grows fuel rooms deleted :
  preserves (grows (deletes_only_empty py_str a rooms))
            (process_rooms py_str a fuel rooms deleted).
Proof.
  unfold process_rooms.
  apply (preserves_for_each _ (grows_refl _) (grows_trans _)).
  intros room acc Hin w r w' H.
  eapply grows_weaken; [| eapply process_room_grows; exact H].
  intros e He Hd. destruct (He Hd) as (room' & room_id & [<- | []] & Hz & Hid & ->).
  exists room, room_id. repeat split; assumption.
Qed.

(** *** The counter of a page *)

Lemma process_room_counts fuel room deleted w deleted' w' :
  process_room py_str a fuel room deleted w = (Ok deleted', w') ->
  deleted' = (deleted + (if zero_members room then 1 else 0))%Z.
Proof.
  unfold process_room. intros H.
  apply bind_inv_ok in H. destruct H as (room_id & w1 & _ & H).
  apply bind_inv_ok in H. destruct H as (count & w2 & Hc & H).
  apply lift_inv_ok in Hc. destruct Hc as [Hc _].
  unfold zero_members. rewrite Hc.
  destruct (py_eq_int count 0); cbn [negb] in H; ok_inv H; lia.
Qed.

Lemma process_rooms_counts fuel rooms : forall deleted w deleted' w',
  process_rooms py_str a fuel rooms deleted w = (Ok deleted', w') ->
  deleted' = (deleted + count_zero rooms)%Z.
Proof.
  unfold process_rooms.
  induction rooms as [| room rest IH]; intros deleted w deleted' w' H; cbn [for_each] in H.
  - inversion H; subst. simpl. lia.
  - apply bind_inv_ok in H. destruct H as (d1 & w1 & H1 & H).
    apply process_room_counts in H1. apply IH in H. cbn [count_zero]. lia.
Qed.

(** A room with no local member whose deletion request is refused: the
    refusal is printed and the room is counted all the same. *)
Lemma refused_deletion_is_counted fuel room room_id res body rest tr deleted :
  py_getitem room "room_id" = Return room_id ->
  zero_members room = true ->
  ok res = false ->
  json_body res = Some body ->
  process_room py_str a fuel room deleted (mkWorld (res :: rest) tr)
  = (Ok (deleted + 1)%Z,
     mkWorld rest
       (tr ++ [Print ("Deleting room " ++ py_str room_id);
               deletion_request py_str a room_id;
               Print ("Failed to request deletion for room " ++ py_str room_id
                        ++ ", skipping. Details:");
               PPrint body])).
Proof.
  intros Hid Hz Hok Hbody. unfold process_room, zero_members in *.
  rewrite Hid. cbn [lift]. rewrite bind_ret.
  destruct (py_getitem room "joined_local_members") as [count |]; [| discriminate].
  cbn [lift]. rewrite bind_ret. rewrite Hz. cbn [negb].
  unfold bind, print, pprint, emit, http, res_json. cbn [script trace].
  rewrite Hok, Hbody. cbn [negb ret script trace].
  unfold deletion_request. rewrite <- !app_assoc. reflexivity.
Qed.

(** C5.  A room listed with a count of joined local members that is not
    zero is only given a notice: no request is sent and the counter does
    not move (first part).  Every deletion request sent while a page is
    gone through is the request of a room of that page listed with zero
    joined local members (second part). *)
Theorem rooms_with_local_members_are_skipped fuel :
  (forall room room_id count deleted w,
      py_getitem room "room_id" = Return room_id ->
      py_getitem room "joined_local_members" = Return count ->
      py_eq_int count 0 = false ->
      process_room py_str a fuel room deleted w
      = (Ok deleted,
         mkWorld (script w)
           (trace w ++ [Print ("Room " ++ py_str room_id ++ " has local users, skipping")]))) /\
  (forall rooms deleted w r w',
      process_rooms py_str a fuel rooms deleted w = (r, w') ->
      grows (deletes_only_empty py_str a rooms) w w').
Proof.
  split.
  - intros room room_id count deleted w Hid Hc Hz. unfold process_room.
    rewrite Hid, Hc. cbn [lift]. rewrite !bind_ret. rewrite Hz. reflexivity.
  - intros rooms deleted. apply process_rooms_grows.
Qed.

Lemma main_loop_turn fuel deleted :
  main_loop py_str a (S fuel) deleted
  = if (deleted =? BATCH_SIZE a)%Z
    then bind (batch py_str a fuel) (main_loop py_str a fuel)
    else ret tt.
Proof. reflexivity. Qed.

(** C8.  After a page that has been gone through, the loop goes on
    exactly when the count of the page is the batch size; after a page
    that counts fewer, the run is over in the world the page left: no
    further listing request, nor any other event. *)
Theorem short_page_ends_the_run fuel deleted w w' :
  batch py_str a (S fuel) w = (Ok deleted, w') ->
  main_loop py_str a (S (S fuel)) (BATCH_SIZE a) w
  = (if (deleted =? BATCH_SIZE a)%Z
     then main_loop py_str a (S fuel) (BATCH_SIZE a) w'
     else (Ok tt, w')) /\
  ((deleted < BATCH_SIZE a)%Z ->
   main_loop py_str a (S (S fuel)) (BATCH_SIZE a) w = (Ok tt, w')).
Proof.
  intros Hb.
  assert (E : main_loop py_str a (S (S fuel)) (BATCH_SIZE a) w
              = main_loop py_str a (S fuel) deleted w').
  { rewrite (main_loop_turn (S fuel)). rewrite Z.eqb_refl. apply bind_ok. exact Hb. }
  rewrite E. split.
  - destruct (Z.eqb_spec deleted (BATCH_SIZE a)) as [-> | Hne]; [reflexivity |].
    rewrite main_loop_turn. apply Z.eqb_neq in Hne. rewrite Hne. reflexivity.
  - intros Hlt. rewrite main_loop_turn.
    assert (Hne : (deleted =? BATCH_SIZE a)%Z = false) by (apply Z.eqb_neq; lia).
    rewrite Hne. reflexivity.
Qed.

(** A failed status poll is not retried: its body is read for the
    status like any other, and an error body that has no status ends the
    run by a [KeyError]. *)
Lemma failed_poll_is_not_retried fuel room_id del_id res fields rest tr :
  ok res = false ->
  json_body res = Some (JObj fields) ->
  lookup "status" fields = None ->
  watch_deletion py_str a (S fuel) room_id del_id (mkWorld (res :: rest) tr)
  = (Abort (Raised (KeyError "status")),
     mkWorld rest
       (tr ++ [Sleep 1;
               Http "GET" (delete_status_url py_str a del_id) None;
               Print ("Failed to retrieve deletion status for room " ++ py_str room_id
                        ++ " (delete_id: " ++ py_str del_id ++ "), details:");
               PPrint (JObj fields)])).
Proof.
  intros Hok Hbody Hst. cbn [watch_deletion].
  unfold bind, print, pprint, emit, http, res_json. cbn [script trace].
  rewrite Hok, Hbody. cbn [negb ret script trace lift py_getitem].
  rewrite Hst. cbn [raise stop]. rewrite <- !app_assoc. reflexivity.
Qed.

End Deletion.


(** C1, on the code.  The page lists one abandoned room, the deletion is
    accepted, and the first status poll is answered by a server error whose
    body has no status.  The error is printed, and then, instead of a new
    poll, the script reads the status of the error body: the run ends by a
    [KeyError] with the next response of the server left unasked. *)
Theorem failed_status_poll_aborts_the_run :
  run_main render sample_args failing_poll_server
  = (Abort (Raised (KeyError "status")),
     mkWorld
       [answer 200 (status_body "complete")]
       [Http "GET"
          "http://localhost:8008/_synapse/admin/v1/rooms?limit=2&order_by=joined_local_members&dir=b"
          None;
        Print "Retrieved 1 more rooms";
        Print "Deleting room !abandoned:example.org";
        Http "DELETE" "http://localhost:8008/_synapse/admin/v2/rooms/!abandoned:example.org"
          (Some (JObj []));
        Sleep 1;
        Http "GET" "http://localhost:8008/_synapse/admin/v2/rooms/delete_status/delete1" None;
        Print "Failed to retrieve deletion status for room !abandoned:example.org (delete_id: delete1), details:";
        PPrint error_body]).
Proof. vm_compute. reflexivity. Qed.

(** C4, on the code.  The page is full: two abandoned rooms for a batch
    size of two.  The deletion of the first room is refused by a gateway
    whose answer is not JSON.  The room has been counted, but printing the
    details of the refusal decodes the body: the run ends there by the
    decoding error, the second room is never asked to be deleted, and the
    count never reaches the test of the loop (first part).  Had the same
    refusal carried a JSON body, the run would have gone on: the second
    room is deleted, the page counts two, and the next page is requested
    (second part). *)
Theorem undecodable_refusal_aborts_the_run :
  run_main render sample_args (refusing_server bad_gateway)
  = (Abort (Raised JSONDecodeError),
     mkWorld
       [answer 200 (JObj [("delete_id", JStr "delete2")]);
        answer 200 (status_body "complete");
        answer 200 (JObj [("rooms", JArr [])])]
       [Http "GET"
          "http://localhost:8008/_synapse/admin/v1/rooms?limit=2&order_by=joined_local_members&dir=b"
          None;
        Print "Retrieved 2 more rooms";
        Print "Deleting room !a:example.org";
        Http "DELETE" "http://localhost:8008/_synapse/admin/v2/rooms/!a:example.org"
          (Some (JObj []));
        Print "Failed to request deletion for room !a:example.org, skipping. Details:"]) /\
  run_main render sample_args (refusing_server (answer 502 error_body))
  = (Ok tt,
     mkWorld []
       [Http "GET"
          "http://localhost:8008/_synapse/admin/v1/rooms?limit=2&order_by=joined_local_members&dir=b"
          None;
        Print "Retrieved 2 more rooms";
        Print "Deleting room !a:example.org";
        Http "DELETE" "http://localhost:8008/_synapse/admin/v2/rooms/!a:example.org"
          (Some (JObj []));
        Print "Failed to request deletion for room !a:example.org, skipping. Details:";
        PPrint error_body;
        Print "Deleting room !b:example.org";
        Http "DELETE" "http://localhost:8008/_synapse/admin/v2/rooms/!b:example.org"
          (Some (JObj []));
        Sleep 1;
        Http "GET" "http://localhost:8008/_synapse/admin/v2/rooms/delete_status/delete2" None;
        Print "Deleted 2/2 rooms";
        Http "GET"
          "http://localhost:8008/_synapse/admin/v1/rooms?limit=2&order_by=joined_local_members&dir=b"
          None;
        Print "Retrieved 0 more rooms";
        Print "Deleted 0/0 rooms"]).
Proof. split; vm_compute; reflexivity. Qed.

Lemma rooms_with_local_members_are_skipped_witness :
  process_room render sample_args 4 (room "!busy:example.org" 3) 0 (mkWorld [] [])
  = (Ok 0%Z, mkWorld [] ([] ++ [Print "Room !busy:example.org has local users, skipping"])) /\
  grows (deletes_only_empty render sample_args full_page)
        (mkWorld full_page_answers [])
        (snd (process_rooms render sample_args 4 full_page 0%Z (mkWorld full_page_answers []))).
Proof.
  destruct (rooms_with_local_members_are_skipped render sample_args 4) as [H1 H2].
  split.
  - apply (H1 (room "!busy:example.org" 3) (JStr "!busy:example.org") (JInt 3) 0%Z
              (mkWorld [] [])); reflexivity.
  - apply (H2 full_page 0%Z (mkWorld full_page_answers [])
              (fst (process_rooms render sample_args 4 full_page 0%Z
                      (mkWorld full_page_answers [])))).
    reflexivity.
Defined.

Lemma short_page_ends_the_run_witness :
  main_loop render sample_args 2 (BATCH_SIZE sample_args) (mkWorld short_page_server [])
  = (Ok tt, snd (batch render sample_args 1 (mkWorld short_page_server []))).
Proof.
  apply (short_page_ends_the_run render sample_args 0 1%Z (mkWorld short_page_server [])
           (snd (batch render sample_args 1 (mkWorld short_page_server [])))).
  - reflexivity.
  - reflexivity.
Defined.

End DeleteForgottenRoomsProofs.

(** ** set_display_name_in_matrix_space.py *)

Module SetDisplayNameProofs.
Import SetDisplayName SetDisplayNameSpec.

(** *** The confirmation *)

Lemma lower_char_y c : lower_char c = "y"%char -> c = "y"%char \/ c = "Y"%char.
Proof.
  destruct c as [b0 b1 b2 b3 b4 b5 b6 b7].
  destruct b0, b1, b2, b3, b4, b5, b6, b7; vm_compute; intros H;
    first [discriminate H | left; reflexivity | right; reflexivity].
Qed.

Lemma lower_empty s : lower s = "" -> s = "".
Proof. destruct s; [reflexivity | discriminate]. Qed.

Lemma lower_y s : lower s = "y" <-> s = "y" \/ s = "Y".
Proof.
  split.
  - destruct s as [| c rest]; [discriminate |]. simpl. intros H.
    injection H as Hc Hr. apply lower_empty in Hr. subst rest.
    destruct (lower_char_y c Hc) as [-> | ->]; [left | right]; reflexivity.
  - intros [-> | ->]; reflexivity.
Qed.

Lemma confirmed_iff choice :
  confirmed choice = true <-> choice = "" \/ choice = "y" \/ choice = "Y".
Proof.
  unfold confirmed. rewrite orb_true_iff, !String.eqb_eq, lower_y. tauto.
Qed.

Lemma confirmed_accepted choice : confirmed choice = accepted choice.
Proof.
  apply eq_true_iff_eq. rewrite confirmed_iff. unfold accepted.
  rewrite !orb_true_iff, !String.eqb_eq. tauto.
Qed.

Section Changer.

Variable py_str : json -> string.
Variable quote : string -> string.

(** *** Requests *)

Lemma req_relative c method path body res rest tr :
  String.prefix "https://" path = false ->
  base_url c <> JNull ->
  _req py_str c method path body (mkWorld (res :: rest) tr)
  = (if negb (status res =? 200)%Z
     then Abort (Raised (HttpError (status res) (text res) (py_str (base_url c) ++ path)))
     else match json_body res with
          | Some v => Ok v
          | None => Abort (Raised JSONDecodeError)
          end,
     mkWorld rest (tr ++ [Http method (py_str (base_url c) ++ path) body])).
Proof.
  intros Hp Hb. unfold _req. rewrite Hp.
  destruct (base_url c) eqn:E; try contradiction;
    cbn; destruct (negb (status res =? 200)%Z); try reflexivity;
    unfold res_json; destruct (json_body res); reflexivity.
Qed.

Lemma req_absolute c method path body res rest tr :
  String.prefix "https://" path = true ->
  _req py_str c method path body (mkWorld (res :: rest) tr)
  = (if negb (status res =? 200)%Z
     then Abort (Raised (HttpError (status res) (text res) path))
     else match json_body res with
          | Some v => Ok v
          | None => Abort (Raised JSONDecodeError)
          end,
     mkWorld rest (tr ++ [Http method path body])).
Proof.
  intros Hp. unfold _req. rewrite Hp.
  cbn; destruct (negb (status res =? 200)%Z); try reflexivity;
    unfold res_json; destruct (json_body res); reflexivity.
Qed.

(** A [GET] is not a [PUT]. *)
Lemma req_get_grows c path body :
  preserves (grows not_a_put) (_req py_str c "GET" path body).
Proof.
  unfold _req.
  apply (preserves_bind _ (grows_trans _)).
  - destruct (String.prefix "https://" path);
      [apply (preserves_ret _ (grows_refl _)) |].
    destruct (base_url c);
      first [apply (preserves_stop _ (grows_refl _)) | apply (preserves_ret _ (grows_refl _))].
  - intros url.
    apply (preserves_bind _ (grows_trans _)); [apply grows_http; reflexivity | intros res].
    destruct (negb (status res =? 200)%Z);
      [apply (preserves_stop _ (grows_refl _)) | apply (preserves_res_json _ (grows_refl _))].
Qed.

Ltac no_put_step :=
  first
    [ preserves_step (grows_refl not_a_put) (grows_trans not_a_put)
    | apply req_get_grows
    | match goal with
      | |- preserves _ (print _) => apply grows_emit; reflexivity
      | |- preserves _ (emit _) => apply grows_emit; reflexivity
      | |- preserves _ (for_each _ _ _) =>
          apply (preserves_for_each _ (grows_refl not_a_put) (grows_trans not_a_put));
          intros ? ? _
      | |- preserves _ (let (_, _) := ?x in _) => destruct x
      | |- preserves _ ((let (_, _) := ?x in _) _) => destruct x
      end
    | progress cbv beta ].

Lemma init_grows c : preserves (grows not_a_put) (init py_str c).
Proof. unfold init. cbv zeta. repeat no_put_step. Qed.

Lemma inspect_room_grows c members room_id in_space :
  preserves (grows not_a_put) (inspect_room py_str c members room_id in_space).
Proof. unfold inspect_room. repeat no_put_step. Qed.

Lemma dm_rooms_in_space_grows c space_id :
  preserves (grows not_a_put) (_dm_rooms_in_space py_str c space_id).
Proof.
  unfold _dm_rooms_in_space, roster_entry. repeat no_put_step.
  apply inspect_room_grows.
Qed.

Lemma find_rooms_in_space_grows c space :
  preserves (grows not_a_put) (find_rooms_in_space py_str quote c space).
Proof.
  unfold find_rooms_in_space, hierarchy_entry. repeat no_put_step.
  apply dm_rooms_in_space_grows.
Qed.

Lemma list_target_rooms_grows c : preserves (grows not_a_put) (list_target_rooms py_str c).
Proof. unfold list_target_rooms. repeat no_put_step. Qed.

Lemma before_prompt_grows a : preserves (grows not_a_put) (before_prompt py_str quote a).
Proof.
  unfold before_prompt. repeat no_put_step.
  - apply init_grows.
  - apply find_rooms_in_space_grows.
  - apply list_target_rooms_grows.
Qed.

(** [_main] is what comes before the prompt, then the gate. *)
Lemma main_split a choice w :
  _main py_str quote a choice w
  = bind (before_prompt py_str quote a) (fun c => after_prompt py_str a c choice) w.
Proof.
  unfold _main, before_prompt, bind.
  destruct (init py_str _ w) as [[c | why] w1]; [| reflexivity].
  destruct (find_rooms_in_space py_str quote c _ w1) as [[c' | why] w2]; [| reflexivity].
  destruct (print _ w2) as [[[] | why] w3]; [| reflexivity].
  destruct (list_target_rooms py_str c' w3) as [[[] | why] w4]; [| reflexivity].
  destruct (emit _ w4) as [[[] | why] w5]; reflexivity.
Qed.

(** C2, amended.  The update pass runs when the answer is empty or is
    exactly [y] or [Y], and for no other answer; an answer that is not
    one of these three ends the program without any [PUT] request. *)
Theorem confirmation_gate_is_exact a choice w :
  (confirmed choice = true <-> choice = "" \/ choice = "y" \/ choice = "Y") /\
  _main py_str quote a choice w
  = bind (before_prompt py_str quote a)
         (fun c => if accepted choice
                   then change_display_name py_str c (arg_new_display_name a)
                   else ret tt) w /\
  (accepted choice = false ->
   forall r w', _main py_str quote a choice w = (r, w') -> grows not_a_put w w').
Proof.
  split; [apply confirmed_iff |].
  assert (E : _main py_str quote a choice w
              = bind (before_prompt py_str quote a)
                  (fun c => if accepted choice
                            then change_display_name py_str c (arg_new_display_name a)
                            else ret tt) w).
  { rewrite main_split. unfold after_prompt. rewrite confirmed_accepted. reflexivity. }
  split; [exact E |].
  intros Hno r w' H. rewrite E, Hno in H.
  clear E. revert w r w' H.
  apply (preserves_bind _ (grows_trans not_a_put)).
  - apply before_prompt_grows.
  - intros c. apply (preserves_ret _ (grows_refl _)).
Qed.

(** *** Direct messages *)

Lemma mem_In k l : mem k l = true <-> In k l.
Proof.
  unfold mem. rewrite existsb_exists. split.
  - intros (x & Hx & E). apply String.eqb_eq in E. subst x. exact Hx.
  - intros H. exists k. split; [exact H | apply String.eqb_refl].
Qed.

Lemma only_us_and_members_iff c members users :
  only_us_and_members c members users = true <->
  forall user, In user users -> user <> user_id c -> In user (keys members).
Proof.
  induction users as [| u rest IH]; simpl.
  - split; [intros _ user [] | reflexivity].
  - destruct (String.eqb_spec u (user_id c)) as [Eu | Nu]; simpl.
    + rewrite IH. split.
      * intros H user [<- | Hin] Hne; [contradiction | apply H; assumption].
      * intros H user Hin. apply H. right. exact Hin.
    + destruct (mem u (keys members)) eqn:Em; simpl.
      * rewrite IH. apply mem_In in Em. split.
        -- intros H user [<- | Hin] Hne; [exact Em | apply H; assumption].
        -- intros H user Hin. apply H. right. exact Hin.
      * split; [discriminate |]. intros H.
        assert (Hu : In u (keys members)) by (apply H; [left; reflexivity | exact Nu]).
        apply mem_In in Hu. congruence.
Qed.

(** On a dict, [_is_dm_in_space] returns, and returns [True] exactly on
    the listings of two members who are the acting user or members of
    the space. *)
Lemma is_dm_in_space_dict c members fields :
  exists b,
    _is_dm_in_space c members (JObj fields) = Return b /\
    (b = true <-> is_dm c members fields).
Proof.
  unfold _is_dm_in_space, is_dm. cbn [py_len py_keys].
  destruct (Z.eqb_spec (Z.of_nat (List.length fields)) 2) as [E | N]; cbn [negb].
  - exists (only_us_and_members c members (keys fields)). split; [reflexivity |].
    rewrite only_us_and_members_iff. split; [intros H; split; [lia | exact H] | tauto].
  - exists false. split; [reflexivity |]. split; [discriminate |]. intros [H _]. lia.
Qed.

(** *** Discovery of the base URL *)

(** The [try] block of [init]: only the [HttpError] of a status that is
    not 200 is turned into the fallback. *)
Lemma discovery_block c domain res rest tr :
  except_HttpError
    (resp <- _req py_str c "GET" ("https://" ++ domain ++ "/.well-known/matrix/client") None ;;
     homeserver <- lift (py_getitem resp "m.homeserver") ;;
     lift (py_getitem homeserver "base_url"))
    (fun _ _ _ => ret (JStr ("https://" ++ domain)))
    (mkWorld (res :: rest) tr)
  = (if negb (status res =? 200)%Z then Ok (JStr ("https://" ++ domain))
     else match discovered res with
          | Return found => Ok found
          | Raises e => Abort (Raised e)
          end,
     mkWorld rest (tr ++ [well_known_request domain])).
Proof.
  unfold except_HttpError, bind, discovered.
  rewrite req_absolute by (simpl; destruct (domain ++ _)%string; reflexivity).
  destruct (negb (status res =? 200)%Z); [reflexivity |].
  destruct (json_body res) as [body |]; [| reflexivity].
  destruct body as [| | | | | fields]; try reflexivity.
  cbn [py_getitem].
  destruct (lookup "m.homeserver" fields) as [homeserver |]; [| reflexivity].
  destruct homeserver as [| | | | | inner]; try reflexivity.
  cbn [lift ret py_getitem].
  destruct (lookup "base_url" inner); reflexivity.
Qed.

Lemma lacks_base_url_raises res fields :
  json_body res = Some (JObj fields) ->
  lacks_base_url fields ->
  exists key, discovered res = Raises (KeyError key).
Proof.
  intros Hj [Hm | (homeserver & Hm & Hb)]; unfold discovered; rewrite Hj;
    cbn [py_getitem]; rewrite Hm.
  - exists "m.homeserver". reflexivity.
  - exists "base_url". cbn [py_getitem]. rewrite Hb. reflexivity.
Qed.

(** C10.  [init], for a user identifier with one colon, on the answer
    [res] to the discovery request.  The base URL becomes
    [https://<domain>] when the status of [res] is not 200, and only
    then: on a 200 the base URL is what the body gives, and a failure to
    read it ends [init] (first part).  In particular a 200 whose body
    lacks [m.homeserver], or whose [m.homeserver] lacks [base_url], ends
    [init] and the program by a [KeyError], with no further request
    (second and third parts). *)
Theorem well_known_fallback_only_on_http_error c localpart domain res rest tr :
  split ":"%char (user_id c) = [localpart; domain] ->
  init py_str c (mkWorld (res :: rest) tr)
  = (if negb (status res =? 200)%Z
     then fetch_joined_rooms py_str (set_base_url c (JStr ("https://" ++ domain)))
            (mkWorld rest (tr ++ [well_known_request domain]))
     else match discovered res with
          | Return found =>
              fetch_joined_rooms py_str (set_base_url c found)
                (mkWorld rest (tr ++ [well_known_request domain]))
          | Raises e =>
              (Abort (Raised e), mkWorld rest (tr ++ [well_known_request domain]))
          end) /\
  (forall fields,
      status res = 200%Z ->
      json_body res = Some (JObj fields) ->
      lacks_base_url fields ->
      exists key,
        init py_str c (mkWorld (res :: rest) tr)
        = (Abort (Raised (KeyError key)), mkWorld rest (tr ++ [well_known_request domain]))) /\
  (forall fields a choice,
      c = new_client (arg_user_id a) (arg_access_token a) ->
      status res = 200%Z ->
      json_body res = Some (JObj fields) ->
      lacks_base_url fields ->
      exists key,
        _main py_str quote a choice (mkWorld (res :: rest) tr)
        = (Abort (Raised (KeyError key)), mkWorld rest (tr ++ [well_known_request domain]))).
Proof.
  intros Hsplit.
  assert (E : init py_str c (mkWorld (res :: rest) tr)
              = (if negb (status res =? 200)%Z
                 then fetch_joined_rooms py_str (set_base_url c (JStr ("https://" ++ domain)))
                        (mkWorld rest (tr ++ [well_known_request domain]))
                 else match discovered res with
                      | Return found =>
                          fetch_joined_rooms py_str (set_base_url c found)
                            (mkWorld rest (tr ++ [well_known_request domain]))
                      | Raises e =>
                          (Abort (Raised e), mkWorld rest (tr ++ [well_known_request domain]))
                      end)).
  { unfold init. rewrite Hsplit. cbn [List.length Nat.eqb negb nth].
    unfold bind at 1. rewrite discovery_block.
    destruct (negb (status res =? 200)%Z); [reflexivity |].
    destruct (discovered res); reflexivity. }
  assert (K : forall fields,
             status res = 200%Z -> json_body res = Some (JObj fields) ->
             lacks_base_url fields ->
             exists key,
               init py_str c (mkWorld (res :: rest) tr)
               = (Abort (Raised (KeyError key)),
                  mkWorld rest (tr ++ [well_known_request domain]))).
  { intros fields Hs Hj Hl.
    destruct (lacks_base_url_raises res fields Hj Hl) as (key & Hk).
    exists key. rewrite E, Hs, Hk. reflexivity. }
  split; [exact E |]. split; [exact K |].
  intros fields a choice Hc Hs Hj Hl.
  destruct (K fields Hs Hj Hl) as (key & Hk). exists key.
  unfold _main. apply bind_abort. rewrite <- Hc. exact Hk.
Qed.

End Changer.


(** C2, as stated, fails.  The answer [yes] begins with [y], yet the gate
    does not let the update run: the program ends normally, the profile and
    the two rooms are never asked for, and no [PUT] is sent; the same
    server sees [PUT] requests when the answer is [y]. *)
Lemma answer_yes_does_not_update :
  begins_with_y "yes" = true /\
  confirmed "yes" = false /\
  fst (run (_main render identity sample_args "yes") sample_server) = Ok tt /\
  script (snd (run (_main render identity sample_args "yes") sample_server))
  = [answer (JObj [("avatar_url", JStr "mxc://example.org/me")]);
     answer (JObj []); answer (JObj [])] /\
  existsb (is_http "PUT")
    (trace (snd (run (_main render identity sample_args "yes") sample_server))) = false /\
  existsb (is_http "PUT")
    (trace (snd (run (_main render identity sample_args "y") sample_server))) = true.
Proof. repeat split; vm_compute; reflexivity. Qed.

(** C7, on the code.  The acting user has joined a conversation with a
    member of the space who has set no display name: the listing of the
    room gives that member an avatar and nothing else.  The room qualifies
    as a direct message (first part), and when the roster of the space is
    built from the same entry the member is named by the identifier, for
    want of a display name (second part).  The name of the correspondent
    is read without that care: the lookup raises, the room is not recorded,
    and the run ends before the rooms are listed, the operator asked, or
    any display name changed (third part). *)
Theorem nameless_correspondent_aborts_the_run :
  _is_dm_in_space (new_client "@me:example.org" "secret")
    [("@me:example.org", JStr "Me"); ("@al:example.org", JStr "@al:example.org")]
    (JObj nameless_listing)
  = Return true /\
  run (for_each nameless_listing roster_entry []) []
  = (Ok [("@me:example.org", JStr "Me"); ("@al:example.org", JStr "@al:example.org")],
     mkWorld [] []) /\
  run (_main render identity sample_args "y") nameless_server
  = (Abort (Raised (KeyError "display_name")),
     mkWorld
       [answer (JObj [("avatar_url", JStr "mxc://example.org/me")]); answer (JObj [])]
       [Http "GET" "https://example.org/.well-known/matrix/client" None;
        Http "GET" "https://example.org/_matrix/client/v3/joined_rooms" None;
        Print "Retrieving space hierarchy...";
        Http "GET" "https://example.org/_matrix/client/v1/rooms/!space:example.org/hierarchy"
          None;
        Print "Identifying related DMs...";
        Http "GET"
          "https://example.org/_matrix/client/v3/rooms/!space:example.org/joined_members" None;
        Http "GET" "https://example.org/_matrix/client/v3/rooms/!dm/joined_members" None]).
Proof. repeat split; vm_compute; reflexivity. Qed.

Lemma confirmation_gate_is_exact_witness :
  grows not_a_put (mkWorld sample_server [])
        (snd (_main render identity sample_args "no" (mkWorld sample_server []))).
Proof.
  destruct (confirmation_gate_is_exact render identity sample_args "no"
              (mkWorld sample_server [])) as (_ & _ & H).
  apply (H eq_refl (fst (_main render identity sample_args "no" (mkWorld sample_server [])))).
  reflexivity.
Defined.

Lemma well_known_fallback_only_on_http_error_witness :
  exists key,
    _main render identity sample_args "y" (mkWorld (empty_discovery :: sample_server) [])
    = (Abort (Raised (KeyError key)),
       mkWorld sample_server ([] ++ [well_known_request "example.org"])).
Proof.
  destruct (well_known_fallback_only_on_http_error render identity
              (new_client "@me:example.org" "secret") "@me" "example.org"
              empty_discovery sample_server [] eq_refl) as (_ & _ & H).
  apply (H [("m.identity_server", JObj [("base_url", JStr "https://id.example.org")])]
           sample_args "y").
  - reflexivity.
  - reflexivity.
  - reflexivity.
  - left. reflexivity.
Defined.

End SetDisplayNameProofs.

(** ** sort_photos.py: what is recognised, where it goes, what is moved *)

Module SortPhotosRunProofs.
Import SortPhotos SortPhotosSpec SortPhotosRun.

Lemma append_assoc_str (a b c : string) : ((a ++ b) ++ c = a ++ (b ++ c))%string.
Proof. induction a as [| x a IH]; simpl; [reflexivity | rewrite IH; reflexivity]. Qed.

Lemma skip_class_split s :
  exists run, s = (run ++ skip_class s)%string /\ all_in_class run = true.
Proof.
  induction s as [| c s IH]; simpl.
  - exists "". split; reflexivity.
  - destruct (in_class c) eqn:Ec.
    + destruct IH as (run & Hs & Hr). exists (String c run). split.
      * simpl. rewrite <- Hs. reflexivity.
      * unfold all_in_class in *. simpl. rewrite Ec. exact Hr.
    + exists "". split; reflexivity.
Qed.

Lemma skip_class_app run c x :
  all_in_class run = true -> in_class c = false ->
  skip_class (run ++ String c x) = String c x.
Proof.
  unfold all_in_class. induction run as [| d run IH]; simpl; intros Hr Hc.
  - rewrite Hc. reflexivity.
  - apply andb_true_iff in Hr. destruct Hr as [Hd Hr]. rewrite Hd. apply IH; assumption.
Qed.

Lemma take_digits_some n : forall s ds tl,
  take_digits n s = Some (ds, tl) ->
  s = (ds ++ tl)%string /\ String.length ds = n /\ all_digits ds = true.
Proof.
  induction n as [| n IH]; simpl; intros s ds tl H.
  - inversion H; subst. repeat split.
  - destruct s as [| c s]; [discriminate |].
    destruct (is_digit c) eqn:Ec; [| discriminate].
    destruct (take_digits n s) as [[ds' tl'] |] eqn:E; [| discriminate].
    inversion H; subst. destruct (IH _ _ _ E) as (Hs & Hl & Hd).
    repeat split.
    + simpl. rewrite <- Hs. reflexivity.
    + simpl. rewrite Hl. reflexivity.
    + unfold all_digits in *. simpl. rewrite Ec. exact Hd.
Qed.

Lemma take_digits_app n : forall ds tl,
  String.length ds = n -> all_digits ds = true ->
  take_digits n (ds ++ tl) = Some (ds, tl).
Proof.
  unfold all_digits.
  induction n as [| n IH]; intros ds tl Hl Hd.
  - destruct ds; [reflexivity | discriminate].
  - destruct ds as [| c ds]; [discriminate |]. simpl in *.
    apply andb_true_iff in Hd. destruct Hd as [Hc Hd]. rewrite Hc.
    rewrite IH; [reflexivity | lia | exact Hd].
Qed.

Lemma re_match_sound file date_group time_group :
  re_match file = Some (date_group, time_group) ->
  exists run rest,
    file = (run ++ "_" ++ date_group ++ "_" ++ time_group ++ rest)%string /\
    run <> "" /\ all_in_class run = true /\
    (String.length date_group = 8%nat /\ all_digits date_group = true) /\
    (String.length time_group = 6%nat /\ all_digits time_group = true).
Proof.
  unfold re_match. destruct file as [| c rest]; [discriminate |].
  destruct (in_class c) eqn:Ec; [| discriminate].
  destruct (skip_class_split rest) as (run & Hrest & Hrun).
  destruct (skip_class rest) as [| u after_run]; [discriminate |].
  destruct (Ascii.eqb_spec u underscore) as [-> |]; [| discriminate].
  destruct (take_digits 8 after_run) as [[g [| u' after_date]] |] eqn:E8; try discriminate.
  destruct (Ascii.eqb_spec u' underscore) as [-> |]; [| discriminate].
  destruct (take_digits 6 after_date) as [[t tl] |] eqn:E6; [| discriminate].
  intros H. inversion H; subst g t.
  destruct (take_digits_some _ _ _ _ E8) as (H8 & L8 & D8).
  destruct (take_digits_some _ _ _ _ E6) as (H6 & L6 & D6).
  exists (String c run), tl. repeat split; try assumption.
  + simpl. rewrite Hrest, H8, H6. reflexivity.
  + discriminate.
  + unfold all_in_class in *. simpl. rewrite Ec. exact Hrun.
Qed.

Lemma re_match_complete run rest date_group time_group :
  run <> "" -> all_in_class run = true ->
  String.length date_group = 8%nat -> all_digits date_group = true ->
  String.length time_group = 6%nat -> all_digits time_group = true ->
  re_match (run ++ "_" ++ date_group ++ "_" ++ time_group ++ rest)
  = Some (date_group, time_group).
Proof.
  intros Hne Hrun L8 D8 L6 D6.
  destruct run as [| c run]; [contradiction |].
  unfold all_in_class in Hrun. simpl in Hrun.
  apply andb_true_iff in Hrun. destruct Hrun as [Hc Hrun].
  change ("_" ++ date_group ++ "_" ++ time_group ++ rest)%string
    with (String underscore (date_group ++ String underscore (time_group ++ rest))).
  unfold re_match. cbn [append]. rewrite Hc.
  rewrite skip_class_app by (first [exact Hrun | reflexivity]).
  rewrite Ascii.eqb_refl, (take_digits_app 8 date_group _ L8 D8).
  rewrite Ascii.eqb_refl, (take_digits_app 6 time_group _ L6 D6). reflexivity.
Qed.

(** X1.  What the pattern recognises: the names made of one or more
    characters among [I M G | P A N O], an underscore, eight digits, an
    underscore, six digits, and anything after; the two groups are the
    eight and the six digits.  The class is a set of characters: [PIG_...]
    is recognised like [IMG_...]. *)
Theorem re_match_iff file date_group time_group :
  re_match file = Some (date_group, time_group) <->
  exists run rest,
    file = (run ++ "_" ++ date_group ++ "_" ++ time_group ++ rest)%string /\
    run <> "" /\ all_in_class run = true /\
    (String.length date_group = 8%nat /\ all_digits date_group = true) /\
    (String.length time_group = 6%nat /\ all_digits time_group = true).
Proof.
  split.
  - apply re_match_sound.
  - intros (run & rest & -> & Hne & Hrun & [L8 D8] & [L6 D6]).
    apply re_match_complete; assumption.
Qed.

(** *** The directory of a dated name *)

Lemma is_digit_in c : is_digit c = true -> In c digit_chars.
Proof.
  destruct c as [b0 b1 b2 b3 b4 b5 b6 b7].
  destruct b0, b1, b2, b3, b4, b5, b6, b7; vm_compute; intros H;
    first [discriminate H | tauto].
Qed.

Lemma two_digits_in x y :
  is_digit x = true -> is_digit y = true -> In (String x (String y EmptyString)) two_digits.
Proof.
  intros Hx Hy. unfold two_digits. apply in_flat_map. exists x.
  split; [apply is_digit_in; exact Hx |].
  apply in_map_iff. exists y. split; [reflexivity | apply is_digit_in; exact Hy].
Qed.

Lemma four_digits_in x y z t :
  is_digit x = true -> is_digit y = true -> is_digit z = true -> is_digit t = true ->
  In (String x (String y (String z (String t EmptyString)))) four_digits.
Proof.
  intros Hx Hy Hz Ht. unfold four_digits. apply in_flat_map. exists x.
  split; [apply is_digit_in; exact Hx |].
  apply in_map_iff. exists (String y (String z (String t EmptyString))).
  split; [reflexivity |].
  apply in_flat_map. exists y. split; [apply is_digit_in; exact Hy |].
  apply in_map_iff. exists (String z (String t EmptyString)).
  split; [reflexivity | apply two_digits_in; assumption].
Qed.

(** Writing back a year of four significant digits gives its digits, and
    writing back a month on two digits gives its two digits. *)
Lemma year_written_back :
  forallb (fun s => negb (1000 <=? number s)%Z || String.eqb (str_int (number s)) s)
          four_digits = true.
Proof. vm_compute. reflexivity. Qed.

Lemma month_written_back :
  forallb (fun s => String.eqb ((if (number s <? 10)%Z then "0" else "") ++ str_int (number s)) s)
          two_digits = true.
Proof. vm_compute. reflexivity. Qed.

Lemma eight_digits s :
  String.length s = 8%nat -> all_digits s = true ->
  exists c1 c2 c3 c4 c5 c6 c7 c8,
    s = String c1 (String c2 (String c3 (String c4
          (String c5 (String c6 (String c7 (String c8 EmptyString))))))) /\
    is_digit c1 = true /\ is_digit c2 = true /\ is_digit c3 = true /\ is_digit c4 = true /\
    is_digit c5 = true /\ is_digit c6 = true.
Proof.
  destruct s as [| c1 [| c2 [| c3 [| c4 [| c5 [| c6 [| c7 [| c8 [|]]]]]]]]]; try discriminate.
  intros _ H. unfold all_digits in H. simpl in H.
  repeat (apply andb_true_iff in H; destruct H as [? H]).
  exists c1, c2, c3, c4, c5, c6, c7, c8. repeat split; assumption.
Qed.

(** X2.  A recognised name whose date group is a date of a year of four
    significant digits is filed under [<path>/<YYYY>/<MM>], where [YYYY]
    and [MM] are the first four and the next two digits of the group as
    they are written in the name. *)
Theorem dated_name_goes_to_year_and_month p file date_group time_group d n b :
  re_match file = Some (date_group, time_group) ->
  strptime_Ymd date_group = Return d ->
  (1000 <= year d)%Z ->
  scan_file (mkArgs (Some p)) file (n, b)
  = Return (n, record_file
                 (posix_join p (substring 0 4 date_group ++ "/" ++ substring 4 2 date_group))
                 file b).
Proof.
  intros Hm Hd Hy.
  destruct (re_match_sound _ _ _ Hm) as (_ & _ & _ & _ & _ & [L8 D8] & _).
  destruct (eight_digits _ L8 D8)
    as (c1 & c2 & c3 & c4 & c5 & c6 & c7 & c8 & -> & H1 & H2 & H3 & H4 & H5 & H6).
  unfold scan_file. rewrite Hm, Hd. cbn [os_path_join path].
  unfold strptime_Ymd in Hd. cbn [substring] in Hd.
  destruct (valid_date _); [| discriminate]. inversion Hd; subst d. clear Hd.
  cbn [year] in Hy. unfold strftime_Ym. cbn [year month substring].
  pose proof (proj1 (forallb_forall _ _) year_written_back _
                (four_digits_in c1 c2 c3 c4 H1 H2 H3 H4)) as Hyear.
  pose proof (proj1 (forallb_forall _ _) month_written_back _
                (two_digits_in c5 c6 H5 H6)) as Hmonth.
  cbv beta in Hyear, Hmonth.
  assert (Hge : (1000 <=? number (String c1 (String c2 (String c3 (String c4 EmptyString)))))%Z
                = true) by (apply Z.leb_le; exact Hy).
  rewrite Hge in Hyear. cbn [negb orb] in Hyear.
  apply String.eqb_eq in Hyear. apply String.eqb_eq in Hmonth.
  rewrite Hyear.
  change (String c1 (String c2 (String c3 (String c4 EmptyString))) ++ "/" ++
          (if (number (String c5 (String c6 EmptyString)) <? 10)%Z then "0" else "") ++
          str_int (number (String c5 (String c6 EmptyString))))%string
    with (String c1 (String c2 (String c3 (String c4 EmptyString))) ++ "/" ++
          ((if (number (String c5 (String c6 EmptyString)) <? 10)%Z then "0" else "") ++
           str_int (number (String c5 (String c6 EmptyString)))))%string.
  rewrite Hmonth. reflexivity.
Qed.

Lemma dated_name_goes_to_year_and_month_witness :
  scan_file (mkArgs (Some "/photos")) "IMG_20230615_101500.jpg" (4%Z, [])
  = Return (4%Z, record_file
                   (posix_join "/photos" (substring 0 4 "20230615" ++ "/" ++ substring 4 2 "20230615"))
                   "IMG_20230615_101500.jpg" []).
Proof.
  apply (dated_name_goes_to_year_and_month "/photos" "IMG_20230615_101500.jpg"
           "20230615" "101500" (mkDate 2023 6 15) 4%Z []).
  - reflexivity.
  - reflexivity.
  - vm_compute. discriminate.
Defined.

(** *** The buckets *)

Lemma record_file_keys dir_path file b k :
  In k (map fst (record_file dir_path file b)) -> In k (map fst b) \/ k = dir_path.
Proof.
  induction b as [| [d fs] rest IH]; simpl.
  - intros [<- | []]. right. reflexivity.
  - destruct (String.eqb d dir_path); simpl.
    + intros H. left. exact H.
    + intros [<- | H]; [left; left; reflexivity |].
      destruct (IH H) as [H' | ->]; [left; right; exact H' | right; reflexivity].
Qed.

Lemma record_file_NoDup dir_path file b :
  NoDup (map fst b) -> NoDup (map fst (record_file dir_path file b)).
Proof.
  induction b as [| [d fs] rest IH]; simpl; intros H.
  - constructor; [intros [] | constructor].
  - destruct (String.eqb_spec d dir_path) as [E | N]; simpl; [exact H |].
    inversion H as [| ? ? Hn Hr]; subst. constructor; [| apply IH; exact Hr].
    intros Hin. destruct (record_file_keys _ _ _ _ Hin) as [H' | ->];
      [apply Hn; exact H' | apply N; reflexivity].
Qed.

Lemma record_file_In dir_path file b d fs :
  In (d, fs) (record_file dir_path file b) ->
  In (d, fs) b \/
  (d = dir_path /\ (fs = [file] \/ exists fs0, In (d, fs0) b /\ fs = fs0 ++ [file])).
Proof.
  induction b as [| [d0 fs0] rest IH]; simpl.
  - intros [H | []]. inversion H; subst. right. split; [reflexivity | left; reflexivity].
  - destruct (String.eqb_spec d0 dir_path) as [E | N]; simpl.
    + intros [H | H]; [| left; right; exact H].
      inversion H; subst. right. split; [reflexivity |].
      right. exists fs0. split; [left; reflexivity | reflexivity].
    + intros [H | H]; [left; left; exact H |].
      destruct (IH H) as [H' | (-> & [-> | (fs1 & H1 & ->)])].
      * left. right. exact H'.
      * right. split; [reflexivity | left; reflexivity].
      * right. split; [reflexivity |]. right. exists fs1. split; [right; exact H1 | reflexivity].
Qed.

Lemma record_file_perm dir_path file b :
  Permutation (flat_map snd (record_file dir_path file b)) (file :: flat_map snd b).
Proof.
  induction b as [| [d fs] rest IH]; simpl.
  - apply Permutation_refl.
  - destruct (String.eqb d dir_path); simpl.
    + rewrite <- app_assoc. simpl. apply Permutation_sym, Permutation_middle.
    + eapply Permutation_trans; [apply Permutation_app_head; exact IH |].
      apply Permutation_sym, Permutation_middle.
Qed.

Lemma record_file_filed_well a dir_path file b :
  destination a file = Some dir_path -> filed_well a b ->
  filed_well a (record_file dir_path file b).
Proof.
  intros Hd [Hnd Hall]. split; [apply record_file_NoDup; exact Hnd |].
  intros d fs Hin.
  destruct (record_file_In _ _ _ _ _ Hin) as [H | (-> & [-> | (fs0 & H0 & ->)])].
  - apply Hall. exact H.
  - split; [discriminate |]. intros f [<- | []]. exact Hd.
  - destruct (Hall _ _ H0) as [_ Hf]. split.
    + intros E. apply app_eq_nil in E. destruct E as [_ E]. discriminate E.
    + intros f Hin'. apply in_app_or in Hin'. destruct Hin' as [H' | [<- | []]];
        [apply Hf; exact H' | exact Hd].
Qed.

(** One turn of the scan either files the name under its directory or
    passes over a name that is not recognised. *)
Lemma scan_file_files a file n b n' b' :
  scan_file a file (n, b) = Return (n', b') ->
  (recognised file = true /\
   exists dir_path, destination a file = Some dir_path /\ b' = record_file dir_path file b) \/
  (recognised file = false /\ b' = b).
Proof.
  unfold scan_file, recognised, destination.
  destruct (re_match file) as [[g t] |].
  - destruct (strptime_Ymd g) as [d |]; [| discriminate].
    destruct (os_path_join (path a) (strftime_Ym d)) as [dir_path |]; [| discriminate].
    intros H. inversion H; subst. left. split; [reflexivity |].
    exists dir_path. split; reflexivity.
  - intros H. inversion H; subst. right. split; reflexivity.
Qed.

Lemma scan_files_well a files : forall n b n' b',
  scan a files (n, b) = Return (n', b') ->
  filed_well a b ->
  filed_well a b' /\
  Permutation (flat_map snd b') (filter recognised files ++ flat_map snd b).
Proof.
  induction files as [| file rest IH]; intros n b n' b' H Hb.
  - inversion H; subst. split; [exact Hb | apply Permutation_refl].
  - cbn [scan] in H.
    destruct (scan_file a file (n, b)) as [[n1 b1] | e] eqn:E1; [| discriminate].
    destruct (scan_file_files _ _ _ _ _ _ E1)
      as [(Hr & dir_path & Hd & ->) | (Hr & ->)]; cbn [filter]; rewrite Hr.
    + destruct (IH _ _ _ _ H (record_file_filed_well _ _ _ _ Hd Hb)) as [Hw Hp].
      split; [exact Hw |].
      eapply Permutation_trans; [exact Hp |].
      eapply Permutation_trans;
        [apply Permutation_app_head; apply record_file_perm |].
      apply Permutation_sym, Permutation_middle.
    + apply (IH _ _ _ _ H Hb).
Qed.

Lemma filed_well_nil a : filed_well a [].
Proof. split; [constructor | intros d fs []]. Qed.

(** X3.  When the scan of a listing returns, its buckets are a partition
    of the recognised names: no directory is listed twice, no bucket is
    empty, each name is in the bucket of the directory its own date gives,
    and the names of all the buckets together are the recognised names of
    the listing, each as many times as it is listed. *)
Theorem buckets_partition_the_recognised_names a files n_files files_to_move :
  scan a files (Z.of_nat (List.length files), []) = Return (n_files, files_to_move) ->
  filed_well a files_to_move /\
  Permutation (flat_map snd files_to_move) (filter recognised files).
Proof.
  intros H. destruct (scan_files_well _ _ _ _ _ _ H (filed_well_nil a)) as [Hw Hp].
  split; [exact Hw |]. simpl in Hp. rewrite app_nil_r in Hp. exact Hp.
Qed.

Lemma buckets_partition_the_recognised_names_witness :
  filed_well (mkArgs (Some "/photos"))
    [("/photos/2023/06", ["IMG_20230615_101500.jpg"]);
     ("/photos/2023/01", ["PANO_20230101_080000.jpg"])] /\
  Permutation
    (flat_map snd [("/photos/2023/06", ["IMG_20230615_101500.jpg"]);
                   ("/photos/2023/01", ["PANO_20230101_080000.jpg"])])
    (filter recognised photos).
Proof.
  apply (buckets_partition_the_recognised_names (mkArgs (Some "/photos")) photos 2%Z).
  reflexivity.
Defined.

(** *** The moves *)

Lemma accepts_no_refusal fs calls : forall done,
  accepts fs done calls -> first_refusal fs done calls = None.
Proof.
  induction calls as [| call rest IH]; intros done H; [reflexivity |].
  destruct H as [Ha Hr]. cbn [first_refusal]. rewrite Ha, (IH _ Hr). reflexivity.
Qed.

Lemma first_refusal_app fs pre post : forall done,
  first_refusal fs done (pre ++ post)
  = match first_refusal fs done pre with
    | Some r => Some r
    | None =>
        match first_refusal fs (done ++ pre) post with
        | Some (made, e) => Some (pre ++ made, e)
        | None => None
        end
    end.
Proof.
  induction pre as [| call rest IH]; intros done; cbn [app first_refusal].
  - rewrite app_nil_r. destruct (first_refusal fs done post) as [[made e] |]; reflexivity.
  - destruct (fs_answer fs done call) as [[] | e]; [| reflexivity].
    rewrite IH, <- app_assoc. cbn [app].
    destruct (first_refusal fs (done ++ [call]) rest) as [[made e] |]; [reflexivity |].
    destruct (first_refusal fs (done ++ call :: rest) post) as [[made e] |]; reflexivity.
Qed.

(** A refusal comes after calls that were all accepted, and nothing is
    made of the calls that follow it. *)
Lemma first_refusal_splits fs calls : forall done made e,
  first_refusal fs done calls = Some (made, e) ->
  exists before call after,
    calls = before ++ call :: after /\ made = before ++ [call] /\
    accepts fs done before /\ fs_answer fs (done ++ before) call = Raises e.
Proof.
  induction calls as [| call rest IH]; intros done made e H; [discriminate H |].
  cbn [first_refusal] in H.
  destruct (fs_answer fs done call) as [[] | e'] eqn:Ea.
  - destruct (first_refusal fs (done ++ [call]) rest) as [[made' e''] |] eqn:Er;
      [| discriminate H].
    injection H as <- <-.
    destruct (IH _ _ _ Er) as (before & call' & after & -> & -> & Hacc & Href).
    exists (call :: before), call', after. repeat split.
    + exact Ea.
    + exact Hacc.
    + rewrite <- app_assoc in Href. exact Href.
  - injection H as <- <-. exists [], call, rest. repeat split.
    rewrite app_nil_r. exact Ea.
Qed.

Lemma refusal_after_accepted fs before call after e : forall done,
  accepts fs done before ->
  fs_answer fs (done ++ before) call = Raises e ->
  first_refusal fs done (before ++ call :: after) = Some (before ++ [call], e).
Proof.
  intros done Hacc Href. rewrite first_refusal_app, (accepts_no_refusal _ _ _ Hacc).
  cbn [first_refusal]. rewrite Href. reflexivity.
Qed.

Lemma after_calls_app fs w pre post :
  after_calls fs w (pre ++ post)
  = match after_calls fs w pre with
    | (Ok _, w1) => after_calls fs w1 post
    | r => r
    end.
Proof.
  unfold after_calls. rewrite first_refusal_app.
  destruct (first_refusal fs (trace w) pre) as [[made e] |]; [reflexivity |].
  cbn [script trace].
  destruct (first_refusal fs (trace w ++ pre) post) as [[made e] |];
    rewrite <- app_assoc; reflexivity.
Qed.

Lemma shutil_move_run fs src_path dst_path w :
  shutil_move fs src_path dst_path w = after_calls fs w [Move src_path dst_path].
Proof.
  unfold shutil_move, after_calls. cbn [first_refusal fs_answer].
  destruct (move_result fs (trace w) src_path dst_path) as [[] | e]; reflexivity.
Qed.

Lemma path_mkdir_run fs dir_path w :
  path_mkdir fs dir_path w = after_calls fs w [Mkdir dir_path].
Proof.
  unfold path_mkdir, after_calls. cbn [first_refusal fs_answer].
  destruct (mkdir_result fs (trace w) dir_path) as [[] | e]; reflexivity.
Qed.

Lemma after_calls_nil fs w : after_calls fs w [] = (Ok tt, w).
Proof. unfold after_calls. cbn [first_refusal]. rewrite app_nil_r. destruct w; reflexivity. Qed.

Lemma move_files_run p fs dir_path files : forall w,
  for_each files (fun file _ => move_file (mkArgs (Some p)) fs dir_path file) tt w
  = after_calls fs w
      (map (fun file => Move (posix_join p file) (posix_join dir_path file)) files).
Proof.
  induction files as [| file rest IH]; intros w; cbn [for_each map].
  - symmetry. apply after_calls_nil.
  - change (Move (posix_join p file) (posix_join dir_path file) :: ?l)
      with ([Move (posix_join p file) (posix_join dir_path file)] ++ l).
    rewrite after_calls_app, <- shutil_move_run.
    unfold bind at 1. unfold move_file at 1. cbn [path os_path_join lift].
    rewrite bind_ret. cbv zeta.
    destruct (shutil_move fs _ _ w) as [[[] | why] w1]; [apply IH | reflexivity].
Qed.

Lemma move_buckets_run p fs b : forall w,
  for_each b (fun bucket _ => move_bucket (mkArgs (Some p)) fs bucket) tt w
  = after_calls fs w (flat_map (bucket_events p) b).
Proof.
  induction b as [| [dir_path files] rest IH]; intros w; cbn [for_each flat_map].
  - symmetry. apply after_calls_nil.
  - rewrite after_calls_app. unfold bucket_events at 1. cbn [fst snd].
    change (Mkdir dir_path :: ?l) with ([Mkdir dir_path] ++ l).
    rewrite after_calls_app, <- path_mkdir_run.
    unfold bind at 1. unfold move_bucket at 1. unfold bind at 1.
    destruct (path_mkdir fs dir_path w) as [[[] | why] w1]; [| reflexivity].
    rewrite move_files_run.
    destruct (after_calls fs w1 (map _ files)) as [[[] | why] w2]; [apply IH | reflexivity].
Qed.

Lemma moved_sources_app evs evs' :
  moved_sources (evs ++ evs') = moved_sources evs ++ moved_sources evs'.
Proof. unfold moved_sources. apply flat_map_app. Qed.

Lemma moved_sources_buckets p b :
  moved_sources (flat_map (bucket_events p) b) = map (posix_join p) (flat_map snd b).
Proof.
  induction b as [| [dir_path files] rest IH]; [reflexivity |].
  cbn [flat_map]. rewrite moved_sources_app, IH, map_app. f_equal.
  unfold bucket_events. cbn [fst snd]. unfold moved_sources. cbn [flat_map app].
  induction files as [| file files IHf]; [reflexivity |].
  cbn [map flat_map app]. rewrite IHf. reflexivity.
Qed.

Lemma bucket_total_length b : bucket_total b = Z.of_nat (List.length (flat_map snd b)).
Proof.
  induction b as [| [d fs] rest IH]; [reflexivity |].
  cbn [bucket_total flat_map snd]. rewrite length_app, IH. lia.
Qed.

(** A run whose scan returned: the count is printed, then the calls of the
    buckets are made in turn up to the first one the file system
    refuses. *)
Lemma main_run p fs files n b w :
  os_listdir fs (Some p) = Return files ->
  scan (mkArgs (Some p)) files (Z.of_nat (List.length files), []) = Return (n, b) ->
  main (mkArgs (Some p)) fs w
  = after_calls fs
      (mkWorld (script w) (trace w ++ [Print ("Moving " ++ str_int n ++ " files")]))
      (flat_map (bucket_events p) b).
Proof.
  intros Hl Hs. unfold main. cbn [path]. rewrite Hl.
  rewrite (bind_ok _ _ w files w) by reflexivity. cbv beta.
  rewrite (bind_ok _ _ w (n, b) w) by (apply lift_return; exact Hs).
  unfold bind at 1. unfold print, emit. apply move_buckets_run.
Qed.

(** X4.  A run whose scan returned, on a file system that accepts each
    call when it is made: the run prints the count, then for each bucket in
    turn creates the directory and moves each of its files from the source
    directory to the same name under that directory; it ends normally, and
    the number of moves is the count it printed. *)
Theorem run_creates_each_directory_then_moves_into_it p fs files n_files files_to_move w :
  os_listdir fs (Some p) = Return files ->
  scan (mkArgs (Some p)) files (Z.of_nat (List.length files), [])
  = Return (n_files, files_to_move) ->
  accepts fs (trace w ++ [Print ("Moving " ++ str_int n_files ++ " files")])
          (flat_map (bucket_events p) files_to_move) ->
  main (mkArgs (Some p)) fs w
  = (Ok tt,
     mkWorld (script w)
       (trace w ++ Print ("Moving " ++ str_int n_files ++ " files")
                   :: flat_map (bucket_events p) files_to_move)) /\
  Z.of_nat (List.length (moved_sources (flat_map (bucket_events p) files_to_move))) = n_files.
Proof.
  intros Hl Hs Hacc. split.
  - rewrite (main_run p fs files n_files files_to_move w Hl Hs).
    unfold after_calls. cbn [script trace].
    rewrite (accepts_no_refusal _ _ _ Hacc), <- app_assoc. reflexivity.
  - rewrite moved_sources_buckets, length_map, <- bucket_total_length.
    apply SortPhotosProofs.scan_counts in Hs. destruct Hs as [Hn Hb].
    rewrite Hb, Hn. simpl. lia.
Qed.

Lemma run_creates_each_directory_then_moves_into_it_witness :
  main (mkArgs (Some "/photos")) sample_fs (mkWorld [] [])
  = (Ok tt,
     mkWorld []
       ([] ++ Print ("Moving " ++ str_int 2 ++ " files")
              :: flat_map (bucket_events "/photos")
                   [("/photos/2023/06", ["IMG_20230615_101500.jpg"]);
                    ("/photos/2023/01", ["PANO_20230101_080000.jpg"])])) /\
  Z.of_nat (List.length (moved_sources
     (flat_map (bucket_events "/photos")
        [("/photos/2023/06", ["IMG_20230615_101500.jpg"]);
         ("/photos/2023/01", ["PANO_20230101_080000.jpg"])]))) = 2%Z.
Proof.
  apply (run_creates_each_directory_then_moves_into_it "/photos" sample_fs photos 2%Z
           [("/photos/2023/06", ["IMG_20230615_101500.jpg"]);
            ("/photos/2023/01", ["PANO_20230101_080000.jpg"])] (mkWorld [] [])).
  - reflexivity.
  - reflexivity.
  - simpl. repeat split.
Defined.

(** X5.  In a named directory where every recognised name carries a date
    of the calendar, whatever the file system refuses: the moves the run
    asks for are of recognised names of the listing, taken from the source
    directory, each at most once per listing entry, and a name that is not
    recognised is never moved.  When the run ends normally every
    recognised name has been moved, and the run does end normally on a file
    system that refuses nothing. *)
Theorem exactly_the_recognised_names_are_moved p fs files w :
  os_listdir fs (Some p) = Return files ->
  forallb well_dated files = true ->
  exists r evs left_behind,
    main (mkArgs (Some p)) fs w = (r, mkWorld (script w) (trace w ++ evs)) /\
    Permutation (moved_sources evs ++ left_behind)
                (map (posix_join p) (filter recognised files)) /\
    (r = Ok tt -> left_behind = []) /\
    ((forall done call, fs_answer fs done call = Return tt) -> r = Ok tt).
Proof.
  intros Hl Hd.
  destruct (SortPhotosProofs.scan_returns p files (Z.of_nat (List.length files), []) Hd)
    as ([n b] & Hs).
  assert (Hp : Permutation (moved_sources (flat_map (bucket_events p) b))
                           (map (posix_join p) (filter recognised files))).
  { rewrite moved_sources_buckets. apply Permutation_map.
    destruct (scan_files_well _ _ _ _ _ _ Hs (filed_well_nil _)) as [_ Hp].
    simpl in Hp. rewrite app_nil_r in Hp. exact Hp. }
  rewrite (main_run p fs files n b w Hl Hs). unfold after_calls. cbn [script trace].
  set (report := Print ("Moving " ++ str_int n ++ " files")) in *.
  destruct (first_refusal fs (trace w ++ [report]) (flat_map (bucket_events p) b))
    as [[made e] |] eqn:Er.
  - destruct (first_refusal_splits _ _ _ _ _ Er)
      as (before & call & after & Hcalls & -> & Hacc & Href).
    exists (Abort (Raised e)), (report :: before ++ [call]), (moved_sources after).
    split; [rewrite <- app_assoc; reflexivity |]. split; [| split].
    + change (moved_sources (report :: before ++ [call]))
        with (moved_sources (before ++ [call])).
      rewrite <- moved_sources_app, <- app_assoc. cbn [app].
      rewrite <- Hcalls. exact Hp.
    + discriminate.
    + intros Hall. rewrite Hall in Href. discriminate Href.
  - exists (Ok tt), (report :: flat_map (bucket_events p) b), [].
    split; [rewrite <- app_assoc; reflexivity |]. split; [| split].
    + rewrite app_nil_r. exact Hp.
    + reflexivity.
    + reflexivity.
Qed.

Lemma exactly_the_recognised_names_are_moved_witness :
  exists r evs left_behind,
    main (mkArgs (Some "/photos")) cluttered_fs (mkWorld [] [])
    = (r, mkWorld [] ([] ++ evs)) /\
    Permutation (moved_sources evs ++ left_behind)
                (map (posix_join "/photos") (filter recognised cluttered)) /\
    (r = Ok tt -> left_behind = []) /\
    ((forall done call, fs_answer cluttered_fs done call = Return tt) -> r = Ok tt).
Proof.
  apply (exactly_the_recognised_names_are_moved "/photos" cluttered_fs cluttered
           (mkWorld [] []));
    reflexivity.
Defined.

(** X19.  A run whose scan returned, on a file system that accepts the
    calls of the move loop up to one that it refuses: the run ends there,
    by the error of that call.  What was created and moved before stays
    so, and nothing is asked of the file system afterwards. *)
Theorem refused_call_ends_the_run p fs files n_files files_to_move w before call after e :
  os_listdir fs (Some p) = Return files ->
  scan (mkArgs (Some p)) files (Z.of_nat (List.length files), [])
  = Return (n_files, files_to_move) ->
  flat_map (bucket_events p) files_to_move = before ++ call :: after ->
  accepts fs (trace w ++ [Print ("Moving " ++ str_int n_files ++ " files")]) before ->
  fs_answer fs (trace w ++ Print ("Moving " ++ str_int n_files ++ " files") :: before) call
  = Raises e ->
  main (mkArgs (Some p)) fs w
  = (Abort (Raised e),
     mkWorld (script w)
       (trace w ++ Print ("Moving " ++ str_int n_files ++ " files") :: before ++ [call])).
Proof.
  intros Hl Hs Hcalls Hacc Href.
  rewrite (main_run p fs files n_files files_to_move w Hl Hs).
  unfold after_calls. cbn [script trace]. rewrite Hcalls.
  rewrite (refusal_after_accepted fs before call after e _ Hacc)
    by (rewrite <- app_assoc; exact Href).
  rewrite <- app_assoc. reflexivity.
Qed.

Lemma refused_call_ends_the_run_witness :
  main (mkArgs (Some "/photos")) cluttered_fs (mkWorld [] [])
  = (Abort (Raised OSError),
     mkWorld []
       ([] ++ Print ("Moving " ++ str_int 2 ++ " files")
              :: [Mkdir "/photos/2022/01";
                  Move "/photos/IMG_20220101_090000.jpg"
                       "/photos/2022/01/IMG_20220101_090000.jpg"]
                 ++ [Mkdir "/photos/2023/06"])).
Proof.
  apply (refused_call_ends_the_run "/photos" cluttered_fs cluttered 2%Z
           [("/photos/2022/01", ["IMG_20220101_090000.jpg"]);
            ("/photos/2023/06", ["IMG_20230615_101500.jpg"])]
           (mkWorld [] [])
           [Mkdir "/photos/2022/01";
            Move "/photos/IMG_20220101_090000.jpg" "/photos/2022/01/IMG_20220101_090000.jpg"]
           (Mkdir "/photos/2023/06")
           [Move "/photos/IMG_20230615_101500.jpg" "/photos/2023/06/IMG_20230615_101500.jpg"]
           OSError).
  - reflexivity.
  - reflexivity.
  - reflexivity.
  - simpl. repeat split.
  - reflexivity.
Defined.

End SortPhotosRunProofs.

(** ** delete_forgotten_rooms.py: polling, requests, ends of the run *)

Module DeleteForgottenRoomsRunProofs.
Import DeleteForgottenRooms DeleteForgottenRoomsSpec DeleteForgottenRoomsRun.

Section Runs.

Variable py_str : json -> string.
Variable a : args.

(** *** Polling *)

Lemma still_purging_inv res :
  still_purging res = true ->
  ok res = true /\
  exists body st,
    json_body res = Some body /\ py_getitem body "status" = Return st /\
    py_eq_str st "purging" = true.
Proof.
  unfold still_purging. intros H. apply andb_true_iff in H. destruct H as [Hok H].
  split; [exact Hok |].
  destruct (json_body res) as [body |]; [| discriminate].
  destruct (py_getitem body "status") as [st |] eqn:E; [| discriminate].
  exists body, st. split; [reflexivity |]. split; [exact E | exact H].
Qed.

Lemma final_poll_inv res st body :
  final_poll res = Some (st, body) ->
  ok res = true /\ json_body res = Some body /\
  py_getitem body "status" = Return st /\ py_eq_str st "purging" = false.
Proof.
  unfold final_poll. destruct (ok res); [| discriminate].
  destruct (json_body res) as [body' |]; [| discriminate].
  destruct (py_getitem body' "status") as [st' |] eqn:E; [| discriminate].
  destruct (py_eq_str st' "purging") eqn:Ep; [discriminate |].
  intros H. inversion H; subst. repeat split; assumption.
Qed.

Lemma watch_deletion_run room_id del_id polls : forall fuel last st body rest tr,
  forallb still_purging polls = true ->
  final_poll last = Some (st, body) ->
  (List.length polls < fuel)%nat ->
  watch_deletion py_str a fuel room_id del_id (mkWorld (polls ++ last :: rest) tr)
  = (Ok (st, body),
     mkWorld rest (tr ++ flat_map (fun _ => poll_events py_str a del_id) (polls ++ [last]))).
Proof.
  induction polls as [| res polls IH]; intros fuel last st body rest tr Hp Hl Hf.
  - destruct fuel as [| fuel]; [inversion Hf |].
    destruct (final_poll_inv _ _ _ Hl) as (Hok & Hb & Hs & Hn).
    cbn [watch_deletion app]. unfold bind, emit, http, res_json. cbn [script trace].
    rewrite Hok, Hb. cbn [negb ret lift]. rewrite Hs. cbn [ret lift]. rewrite Hn.
    cbn [flat_map poll_events app]. rewrite <- app_assoc. reflexivity.
  - destruct fuel as [| fuel]; [inversion Hf |].
    cbn [forallb] in Hp. apply andb_true_iff in Hp. destruct Hp as [Hr Hp].
    destruct (still_purging_inv _ Hr) as (Hok & body' & st' & Hb & Hs & Hy).
    cbn [watch_deletion app]. unfold bind, emit, http, res_json.
    cbn [script trace]. rewrite Hok, Hb. cbn [negb ret lift]. rewrite Hs. cbn [ret lift].
    rewrite Hy. rewrite (IH fuel last st body rest _ Hp Hl) by (simpl in Hf; lia).
    cbn [flat_map poll_events app]. rewrite <- !app_assoc. reflexivity.
Qed.

Lemma count_polls del_id (l : list response) :
  count_http "GET" (flat_map (fun _ => poll_events py_str a del_id) l) = List.length l.
Proof.
  induction l as [| x l IH]; [reflexivity |].
  cbn [flat_map]. unfold count_http in *. rewrite filter_app, length_app, IH. reflexivity.
Qed.

(** X6.  The polling loop stops at the first status that is not
    ["purging"]: when the server answers [k] times ["purging"] and then
    another status, the loop returns that status and its body after
    exactly [k + 1] status requests, each after a pause of one second, and
    nothing is printed. *)
Theorem polling_stops_at_the_first_final_status fuel room_id del_id polls last st body rest tr :
  forallb still_purging polls = true ->
  final_poll last = Some (st, body) ->
  (List.length polls < fuel)%nat ->
  exists evs,
    watch_deletion py_str a fuel room_id del_id (mkWorld (polls ++ last :: rest) tr)
    = (Ok (st, body), mkWorld rest (tr ++ evs)) /\
    evs = flat_map (fun _ => poll_events py_str a del_id) (polls ++ [last]) /\
    count_http "GET" evs = S (List.length polls).
Proof.
  intros Hp Hl Hf.
  exists (flat_map (fun _ => poll_events py_str a del_id) (polls ++ [last])).
  split; [apply watch_deletion_run; assumption |].
  split; [reflexivity |].
  rewrite count_polls, length_app. simpl. lia.
Qed.

(** X7.  A room with no joined local member whose deletion request is
    accepted: the deletion is watched to its final status, the room is
    counted, and the payload of the last poll is printed exactly when the
    final status is ["failed"]. *)
Theorem accepted_deletion_is_watched_to_its_end
        fuel room room_id res body del_id polls last st last_body rest tr deleted :
  py_getitem room "room_id" = Return room_id ->
  zero_members room = true ->
  ok res = true ->
  json_body res = Some body ->
  py_getitem body "delete_id" = Return del_id ->
  forallb still_purging polls = true ->
  final_poll last = Some (st, last_body) ->
  (List.length polls < fuel)%nat ->
  process_room py_str a fuel room deleted (mkWorld (res :: polls ++ last :: rest) tr)
  = (Ok (deleted + 1)%Z,
     mkWorld rest
       (tr ++ [Print ("Deleting room " ++ py_str room_id);
               deletion_request py_str a room_id]
           ++ flat_map (fun _ => poll_events py_str a del_id) (polls ++ [last])
           ++ (if py_eq_str st "failed"
               then [Print ("Failed to delete room " ++ py_str room_id ++ ", details:");
                     PPrint last_body]
               else []))).
Proof.
  intros Hid Hz Hok Hbody Hdel Hp Hl Hf. unfold process_room, zero_members in *.
  rewrite Hid. cbn [lift]. rewrite bind_ret.
  destruct (py_getitem room "joined_local_members") as [count |]; [| discriminate].
  cbn [lift]. rewrite bind_ret. rewrite Hz. cbn [negb].
  unfold bind at 1 2. unfold print at 1. unfold emit at 1. unfold http at 1.
  cbn [script trace]. rewrite Hok. cbn [negb].
  unfold bind at 1. unfold res_json at 1. rewrite Hbody. cbn [ret].
  unfold bind at 1. rewrite Hdel. cbn [lift ret].
  unfold bind at 1. rewrite (watch_deletion_run room_id del_id polls fuel last st last_body)
    by assumption.
  unfold deletion_request.
  destruct (py_eq_str st "failed");
    unfold bind, print, pprint, emit, ret; cbn [script trace];
    rewrite <- !app_assoc; cbn [app]; rewrite ?app_nil_r; reflexivity.
Qed.

(** *** A refused listing *)

(** X8.  A listing request that gets a non-success answer ends the run
    at once: the answer is printed and the script exits with code 1,
    without any further request.  (If the body of the answer is not JSON,
    printing it is what ends the run.) *)
Theorem refused_listing_ends_the_run fuel res rest tr :
  ok res = false ->
  main_loop py_str a (S fuel) (BATCH_SIZE a) (mkWorld (res :: rest) tr)
  = (match json_body res with
     | Some _ => Abort (Exited 1)
     | None => Abort (Raised JSONDecodeError)
     end,
     mkWorld rest
       (tr ++ Http "GET" (rooms_url a) None
              :: Print "Failed to retrieve more rooms, details:"
              :: match json_body res with
                 | Some body => [PPrint body]
                 | None => []
                 end)).
Proof.
  intros Hok. cbn [main_loop]. rewrite Z.eqb_refl.
  unfold bind at 1. unfold batch. unfold bind at 1. unfold http. cbn [script trace].
  rewrite Hok. cbn [negb]. unfold bind, print, pprint, emit, res_json. cbn [script trace].
  destruct (json_body res) as [body |]; cbn; rewrite <- !app_assoc; reflexivity.
Qed.

(** *** Counting the deletion requests *)

Lemma deletions_after s w e :
  deletions (mkWorld s (trace w ++ [e]))
  = (deletions w + (if is_http "DELETE" e then 1 else 0))%Z.
Proof.
  unfold deletions, count_http. cbn [trace]. rewrite filter_app, length_app. cbn [filter].
  destruct (is_http "DELETE" e); cbn [List.length]; lia.
Qed.

Lemma same_deletions_refl w : same_deletions w w.
Proof. reflexivity. Qed.

Lemma same_deletions_trans w1 w2 w3 :
  same_deletions w1 w2 -> same_deletions w2 w3 -> same_deletions w1 w3.
Proof. unfold same_deletions. intros H1 H2. rewrite H2. exact H1. Qed.

Lemma same_deletions_emit e :
  is_http "DELETE" e = false -> preserves same_deletions (emit e).
Proof.
  intros He w r w' H. inversion H; subst. unfold same_deletions.
  rewrite deletions_after, He. lia.
Qed.

Lemma same_deletions_get url body : preserves same_deletions (http "GET" url body).
Proof.
  intros w r w' H. unfold http in H. unfold same_deletions.
  destruct (script w); inversion H; subst; rewrite deletions_after; cbn; lia.
Qed.

Lemma watch_deletion_same_deletions fuel room_id del_id :
  preserves same_deletions (watch_deletion py_str a fuel room_id del_id).
Proof.
  induction fuel as [| fuel IH]; cbn [watch_deletion].
  - apply (preserves_stop _ same_deletions_refl).
  - repeat first
      [ preserves_step same_deletions_refl same_deletions_trans
      | exact IH
      | apply same_deletions_get
      | apply same_deletions_emit; reflexivity ].
Qed.

Lemma res_json_inv res w v w' : res_json res w = (Ok v, w') -> w' = w.
Proof.
  unfold res_json. destruct (json_body res); intros H; inversion H; reflexivity.
Qed.

Lemma http_delete_counts url body w res w' :
  http "DELETE" url body w = (Ok res, w') -> deletions w' = (deletions w + 1)%Z.
Proof.
  unfold http. destruct (script w); intros H; inversion H; subst.
  rewrite deletions_after. reflexivity.
Qed.

Lemma print_same_deletions line w r w' :
  print line w = (r, w') -> deletions w' = deletions w.
Proof. apply (same_deletions_emit (Print line) eq_refl). Qed.

Lemma pprint_same_deletions v w r w' :
  pprint v w = (r, w') -> deletions w' = deletions w.
Proof. apply (same_deletions_emit (PPrint v) eq_refl). Qed.

Ltac deletions_facts :=
  repeat match goal with
    | H : lift _ _ = (Ok _, _) |- _ =>
        apply lift_inv_ok in H; destruct H as [_ H]; try subst
    | H : res_json _ _ = (Ok _, _) |- _ => apply res_json_inv in H; try subst
    | H : print _ _ = (_, _) |- _ => apply print_same_deletions in H
    | H : pprint _ _ = (_, _) |- _ => apply pprint_same_deletions in H
    | H : http "DELETE" _ _ _ = (Ok _, _) |- _ => apply http_delete_counts in H
    | H : watch_deletion _ _ _ _ _ _ = (_, _) |- _ =>
        apply watch_deletion_same_deletions in H; unfold same_deletions in H
    end.

Lemma process_room_deletions fuel room deleted w deleted' w' :
  process_room py_str a fuel room deleted w = (Ok deleted', w') ->
  (deletions w' - deletions w = deleted' - deleted)%Z.
Proof.
  unfold process_room. intros H.
  apply bind_inv_ok in H. destruct H as (room_id & w1 & H1 & H).
  apply bind_inv_ok in H. destruct H as (count & w2 & H2 & H).
  apply lift_inv_ok in H1. destruct H1 as [_ ->].
  apply lift_inv_ok in H2. destruct H2 as [_ ->].
  destruct (py_eq_int count 0); cbn [negb] in H; ok_inv H;
    repeat match goal with
      | H' : (if _ then _ else _) _ = (Ok _, _) |- _ => ok_inv H'
      end;
    deletions_facts; lia.
Qed.

(** X9.  In a page that has been gone through, the counter went up by
    exactly the number of deletion requests that were sent: every counted
    room got one deletion request and no other room got any. *)
Theorem every_counted_room_got_one_deletion_request fuel rooms : forall deleted w deleted' w',
  process_rooms py_str a fuel rooms deleted w = (Ok deleted', w') ->
  (deletions w' - deletions w = deleted' - deleted)%Z.
Proof.
  unfold process_rooms.
  induction rooms as [| room rest IH]; intros deleted w deleted' w' H; cbn [for_each] in H.
  - inversion H; subst. lia.
  - apply bind_inv_ok in H. destruct H as (d1 & w1 & H1 & H).
    apply process_room_deletions in H1. apply IH in H. lia.
Qed.

(** *** Where the requests go *)

Lemma prefix_app (s t : string) : String.prefix s (s ++ t) = true.
Proof.
  induction s as [| c s IH]; simpl.
  - destruct t; reflexivity.
  - destruct (ascii_dec c c) as [_ | N]; [exact IH | contradiction].
Qed.

Ltac admin_step :=
  first
    [ preserves_step (grows_refl (admin_request a)) (grows_trans (admin_request a))
    | match goal with
      | |- preserves _ (print _) => apply grows_emit; exact I
      | |- preserves _ (pprint _) => apply grows_emit; exact I
      | |- preserves _ (emit _) => apply grows_emit; exact I
      | |- preserves _ (http _ _ _) =>
          apply grows_http; split; [auto | apply prefix_app]
      end ].

Lemma watch_deletion_admin fuel room_id del_id :
  preserves (grows (admin_request a)) (watch_deletion py_str a fuel room_id del_id).
Proof.
  induction fuel as [| fuel IH]; cbn [watch_deletion]; unfold delete_status_url.
  - admin_step.
  - repeat first [admin_step | exact IH].
Qed.

Lemma process_rooms_admin fuel rooms deleted :
  preserves (grows (admin_request a)) (process_rooms py_str a fuel rooms deleted).
Proof.
  unfold process_rooms.
  apply (preserves_for_each _ (grows_refl _) (grows_trans _)).
  intros room acc _. unfold process_room, delete_url.
  repeat first [admin_step | apply watch_deletion_admin].
Qed.

(** X10.  Whatever the server answers, the script only ever sends [GET]
    and [DELETE] requests, and only to addresses under the admin base URL
    [<base-url>/_synapse/admin]. *)
Theorem only_admin_requests fuel w r w' :
  main py_str a fuel w = (r, w') ->
  grows (admin_request a) w w'.
Proof.
  unfold main. revert w r w'.
  change (preserves (grows (admin_request a)) (main_loop py_str a fuel (BATCH_SIZE a))).
  generalize (BATCH_SIZE a) as deleted.
  induction fuel as [| fuel IH]; intros deleted; cbn [main_loop].
  - admin_step.
  - destruct (deleted =? BATCH_SIZE a)%Z; [| admin_step].
    apply (preserves_bind _ (grows_trans _)); [| intros d; apply IH].
    unfold batch, rooms_url.
    repeat first [admin_step | apply process_rooms_admin].
Qed.

(** *** A batch size of zero *)

Lemma empty_page_inv res :
  empty_page res = true ->
  ok res = true /\
  exists body, json_body res = Some body /\ py_getitem body "rooms" = Return (JArr []).
Proof.
  unfold empty_page. intros H. apply andb_true_iff in H. destruct H as [Hok H].
  split; [exact Hok |].
  destruct (json_body res) as [body |]; [| discriminate].
  exists body. split; [reflexivity |].
  destruct (py_getitem body "rooms") as [[| | | | [|] |] |]; try discriminate. reflexivity.
Qed.

(** X11.  With a batch size of zero, a page without rooms counts zero
    deletions, which is the batch size: the loop goes on.  Against a server
    that answers every listing request with a page without rooms, the
    script asks again after each page and never ends by itself. *)
Theorem zero_batch_size_never_stops pages fuel tr :
  batch_size a = 0%Z ->
  forallb empty_page pages = true ->
  (List.length pages < fuel)%nat ->
  main py_str a fuel (mkWorld pages tr)
  = (Abort Blocked,
     mkWorld []
       (tr ++ flat_map (fun _ => empty_page_events a) pages
           ++ [Http "GET" (rooms_url a) None])).
Proof.
  intros Hz Hp Hf. unfold main, BATCH_SIZE. rewrite Hz.
  revert fuel tr Hf. induction pages as [| res pages IH]; intros fuel tr Hf.
  - destruct fuel as [| fuel]; [inversion Hf |].
    cbn [main_loop]. unfold BATCH_SIZE. rewrite Hz. reflexivity.
  - destruct fuel as [| fuel]; [inversion Hf |].
    cbn [forallb] in Hp. apply andb_true_iff in Hp. destruct Hp as [Hr Hp].
    destruct (empty_page_inv _ Hr) as (Hok & body & Hb & Hrooms).
    cbn [main_loop]. unfold BATCH_SIZE. rewrite Hz. cbn [Z.eqb].
    unfold bind at 1. unfold batch. unfold bind at 1. unfold http at 1. cbn [script trace].
    rewrite Hok. cbn [negb]. unfold bind at 1. unfold res_json at 1. rewrite Hb. cbn [ret].
    unfold bind at 1. rewrite Hrooms. cbn [lift ret py_len py_iter List.length].
    unfold bind, print, emit, process_rooms. cbn [for_each ret script trace Z.of_nat].
    rewrite (IH Hp fuel) by (simpl in Hf; lia).
    cbn [flat_map empty_page_events app]. rewrite <- !app_assoc. reflexivity.
Qed.

(** *** The count of a page, at the test of the loop *)

(** X20.  The count that the loop tests after a page is the number of
    rooms of the page listed with no joined local member, whatever the
    server answered to their deletion requests: when a page has been gone
    through, the loop goes on to another page exactly when that number is
    the batch size. *)
Theorem page_tally_counts_the_empty_rooms fuel listing body rooms rest tr deleted w' :
  json_body listing = Some body ->
  py_getitem body "rooms" = Return (JArr rooms) ->
  batch py_str a (S fuel) (mkWorld (listing :: rest) tr) = (Ok deleted, w') ->
  deleted = count_zero rooms /\
  main_loop py_str a (S (S fuel)) (BATCH_SIZE a) (mkWorld (listing :: rest) tr)
  = (if (count_zero rooms =? BATCH_SIZE a)%Z
     then main_loop py_str a (S fuel) (BATCH_SIZE a) w'
     else (Ok tt, w')).
Proof.
  intros Hbody Hrooms Hb.
  assert (Hd : deleted = count_zero rooms).
  { unfold batch in Hb.
    apply bind_inv_ok in Hb. destruct Hb as (res & w1 & H1 & Hb).
    unfold http in H1. cbn [script trace] in H1. injection H1 as <- <-.
    destruct (negb (ok listing)).
    - apply bind_inv_ok in Hb. destruct Hb as (? & ? & _ & Hb).
      apply bind_inv_ok in Hb. destruct Hb as (? & ? & _ & Hb).
      apply bind_inv_ok in Hb. destruct Hb as (? & ? & _ & Hb).
      discriminate Hb.
    - apply bind_inv_ok in Hb. destruct Hb as (body' & w2 & H2 & Hb).
      unfold res_json in H2. rewrite Hbody in H2. injection H2 as <- <-.
      apply bind_inv_ok in Hb. destruct Hb as (rooms' & w3 & H3 & Hb).
      apply lift_inv_ok in H3. destruct H3 as [H3 ->].
      rewrite Hrooms in H3. injection H3 as <-.
      apply bind_inv_ok in Hb. destruct Hb as (n & w4 & _ & Hb).
      apply bind_inv_ok in Hb. destruct Hb as (? & w5 & _ & Hb).
      apply bind_inv_ok in Hb. destruct Hb as (items & w6 & H6 & Hb).
      apply lift_inv_ok in H6. destruct H6 as [H6 ->].
      cbn [py_iter] in H6. injection H6 as <-.
      apply bind_inv_ok in Hb. destruct Hb as (d & w7 & H7 & Hb).
      apply (DeleteForgottenRoomsProofs.process_rooms_counts py_str a) in H7.
      apply bind_inv_ok in Hb. destruct Hb as (? & w8 & _ & Hb).
      injection Hb as <- _. rewrite H7. lia. }
  split; [exact Hd |]. subst deleted.
  rewrite (DeleteForgottenRoomsProofs.main_loop_turn py_str a (S fuel)), Z.eqb_refl.
  rewrite (bind_ok _ _ _ _ _ Hb).
  destruct (Z.eqb_spec (count_zero rooms) (BATCH_SIZE a)) as [-> | Hne]; [reflexivity |].
  rewrite DeleteForgottenRoomsProofs.main_loop_turn.
  apply Z.eqb_neq in Hne. rewrite Hne. reflexivity.
Qed.

Lemma refused_rooms_run fuel rooms refusals :
  Forall2 (fun room res => refused_empty_room room res = true) rooms refusals ->
  forall rest tr deleted,
    process_rooms py_str a fuel rooms deleted (mkWorld (refusals ++ rest) tr)
    = (Ok (deleted + Z.of_nat (List.length rooms))%Z,
       mkWorld rest (tr ++ flat_map (refusal_events py_str a) (combine rooms refusals))).
Proof.
  unfold process_rooms.
  induction 1 as [| room res rooms refusals Hr _ IH]; intros rest tr deleted.
  - cbn. rewrite app_nil_r, Z.add_0_r. reflexivity.
  - unfold refused_empty_room in Hr.
    apply andb_true_iff in Hr. destruct Hr as [Hr Hbody].
    apply andb_true_iff in Hr. destruct Hr as [Hr Hok].
    apply andb_true_iff in Hr. destruct Hr as [Hz Hid].
    destruct (py_getitem room "room_id") as [room_id |] eqn:Eid; [| discriminate Hid].
    destruct (json_body res) as [body |] eqn:Eb; [| discriminate Hbody].
    apply negb_true_iff in Hok.
    cbn [for_each app combine flat_map].
    rewrite (bind_ok _ _ _ _ _
               (DeleteForgottenRoomsProofs.refused_deletion_is_counted py_str a fuel room
                  room_id res body (refusals ++ rest) tr deleted Eid Hz Hok Eb)).
    rewrite IH. cbn [refusal_events]. rewrite Eid, Eb.
    rewrite <- app_assoc. f_equal. f_equal.
    change (List.length (room :: rooms)) with (S (List.length rooms)). lia.
Qed.

(** X21.  A page of rooms listed with no joined local member, whose
    deletion requests are all refused with a JSON body: every room is asked
    to be deleted, every refusal is reported, and the page counts all of
    its rooms.  When that is the batch size the loop goes on from there
    with another turn. *)
Theorem refused_page_counts_in_full fuel listing body rooms refusals rest tr :
  ok listing = true ->
  json_body listing = Some body ->
  py_getitem body "rooms" = Return (JArr rooms) ->
  Forall2 (fun room res => refused_empty_room room res = true) rooms refusals ->
  batch py_str a fuel (mkWorld (listing :: refusals ++ rest) tr)
  = (Ok (Z.of_nat (List.length rooms)),
     mkWorld rest (tr ++ refused_page_events py_str a rooms refusals)) /\
  (Z.of_nat (List.length rooms) = BATCH_SIZE a ->
   main_loop py_str a (S fuel) (BATCH_SIZE a) (mkWorld (listing :: refusals ++ rest) tr)
   = main_loop py_str a fuel (BATCH_SIZE a)
       (mkWorld rest (tr ++ refused_page_events py_str a rooms refusals))).
Proof.
  intros Hok Hbody Hrooms Hall.
  assert (Hb : batch py_str a fuel (mkWorld (listing :: refusals ++ rest) tr)
               = (Ok (Z.of_nat (List.length rooms)),
                  mkWorld rest (tr ++ refused_page_events py_str a rooms refusals))).
  { unfold batch, bind, http, res_json, print, emit. cbn [script trace].
    rewrite Hok, Hbody. cbn [negb ret]. rewrite Hrooms.
    cbn [lift ret py_len py_iter script trace].
    rewrite (refused_rooms_run fuel rooms refusals Hall). cbn [script trace].
    unfold refused_page_events. cbv zeta. rewrite Z.add_0_l.
    rewrite <- !app_assoc. reflexivity. }
  split; [exact Hb |].
  intros Hfull. rewrite DeleteForgottenRoomsProofs.main_loop_turn, Z.eqb_refl.
  rewrite (bind_ok _ _ _ _ _ Hb). rewrite Hfull. reflexivity.
Qed.

End Runs.


Lemma polling_stops_at_the_first_final_status_witness :
  exists evs,
    watch_deletion render sample_args 3 (JStr "!a:example.org") (JStr "delete1")
      (mkWorld (purging_polls ++ answer 200 (status_body "complete") :: []) [])
    = (Ok (JStr "complete", status_body "complete"), mkWorld [] ([] ++ evs)) /\
    evs = flat_map (fun _ => poll_events render sample_args (JStr "delete1"))
            (purging_polls ++ [answer 200 (status_body "complete")]) /\
    count_http "GET" evs = S (List.length purging_polls).
Proof.
  apply (polling_stops_at_the_first_final_status render sample_args 3
           (JStr "!a:example.org") (JStr "delete1") purging_polls
           (answer 200 (status_body "complete")) (JStr "complete") (status_body "complete")
           [] []).
  - reflexivity.
  - reflexivity.
  - simpl. lia.
Defined.

Lemma accepted_deletion_is_watched_to_its_end_witness :
  process_room render sample_args 3 (room "!a:example.org" 0) 0
    (mkWorld (answer 200 (JObj [("delete_id", JStr "delete1")])
              :: purging_polls ++ answer 200 (status_body "failed") :: []) [])
  = (Ok (0 + 1)%Z,
     mkWorld []
       ([] ++ [Print ("Deleting room " ++ render (JStr "!a:example.org"));
               deletion_request render sample_args (JStr "!a:example.org")]
           ++ flat_map (fun _ => poll_events render sample_args (JStr "delete1"))
                (purging_polls ++ [answer 200 (status_body "failed")])
           ++ (if py_eq_str (JStr "failed") "failed"
               then [Print ("Failed to delete room " ++ render (JStr "!a:example.org")
                              ++ ", details:");
                     PPrint (status_body "failed")]
               else []))).
Proof.
  apply (accepted_deletion_is_watched_to_its_end render sample_args 3
           (room "!a:example.org" 0) (JStr "!a:example.org")
           (answer 200 (JObj [("delete_id", JStr "delete1")]))
           (JObj [("delete_id", JStr "delete1")]) (JStr "delete1") purging_polls
           (answer 200 (status_body "failed")) (JStr "failed") (status_body "failed")
           [] [] 0%Z).
  - reflexivity.
  - reflexivity.
  - reflexivity.
  - reflexivity.
  - reflexivity.
  - reflexivity.
  - reflexivity.
  - simpl. lia.
Defined.

Lemma refused_listing_ends_the_run_witness :
  main_loop render sample_args 1 (BATCH_SIZE sample_args)
    (mkWorld [answer 500 error_body; no_rooms] [])
  = (Abort (Exited 1),
     mkWorld [no_rooms]
       ([] ++ [Http "GET" (rooms_url sample_args) None;
               Print "Failed to retrieve more rooms, details:";
               PPrint error_body])).
Proof.
  apply (refused_listing_ends_the_run render sample_args 0 (answer 500 error_body)
           [no_rooms] []).
  reflexivity.
Defined.

Lemma every_counted_room_got_one_deletion_request_witness :
  (deletions (snd (process_rooms render sample_args 4 full_page 0%Z
                     (mkWorld full_page_answers [])))
   - deletions (mkWorld full_page_answers []) = 2 - 0)%Z.
Proof.
  apply (every_counted_room_got_one_deletion_request render sample_args 4 full_page 0%Z
           (mkWorld full_page_answers []) 2%Z).
  reflexivity.
Defined.

Lemma only_admin_requests_witness :
  grows (admin_request sample_args) (mkWorld short_page_server [])
        (snd (main render sample_args 4 (mkWorld short_page_server []))).
Proof.
  apply (only_admin_requests render sample_args 4 (mkWorld short_page_server [])
           (fst (main render sample_args 4 (mkWorld short_page_server [])))).
  reflexivity.
Defined.

Lemma zero_batch_size_never_stops_witness :
  main render zero_batch_args 3 (mkWorld [no_rooms; no_rooms] [])
  = (Abort Blocked,
     mkWorld []
       ([] ++ flat_map (fun _ => empty_page_events zero_batch_args) [no_rooms; no_rooms]
           ++ [Http "GET" (rooms_url zero_batch_args) None])).
Proof.
  apply (zero_batch_size_never_stops render zero_batch_args [no_rooms; no_rooms] 3 []).
  - reflexivity.
  - reflexivity.
  - simpl. lia.
Defined.

Lemma page_tally_counts_the_empty_rooms_witness :
  2%Z = count_zero full_page /\
  main_loop render sample_args 7 (BATCH_SIZE sample_args)
    (mkWorld (refusing_server (answer 502 error_body)) [])
  = (if (count_zero full_page =? BATCH_SIZE sample_args)%Z
     then main_loop render sample_args 6 (BATCH_SIZE sample_args)
            (snd (batch render sample_args 6
                    (mkWorld (refusing_server (answer 502 error_body)) [])))
     else (Ok tt,
           snd (batch render sample_args 6
                  (mkWorld (refusing_server (answer 502 error_body)) [])))).
Proof.
  apply (page_tally_counts_the_empty_rooms render sample_args 5
           (answer 200 (JObj [("rooms", JArr full_page)]))
           (JObj [("rooms", JArr full_page)]) full_page
           (tl (refusing_server (answer 502 error_body))) []); reflexivity.
Defined.

Lemma refused_page_counts_in_full_witness :
  batch render sample_args 1 (mkWorld (full_page_listing :: two_refusals ++ [no_rooms]) [])
  = (Ok (Z.of_nat (List.length full_page)),
     mkWorld [no_rooms] ([] ++ refused_page_events render sample_args full_page two_refusals)) /\
  (Z.of_nat (List.length full_page) = BATCH_SIZE sample_args ->
   main_loop render sample_args 2 (BATCH_SIZE sample_args)
     (mkWorld (full_page_listing :: two_refusals ++ [no_rooms]) [])
   = main_loop render sample_args 1 (BATCH_SIZE sample_args)
       (mkWorld [no_rooms] ([] ++ refused_page_events render sample_args full_page two_refusals))).
Proof.
  apply (refused_page_counts_in_full render sample_args 1 full_page_listing
           (JObj [("rooms", JArr full_page)]) full_page two_refusals [no_rooms] []).
  - reflexivity.
  - reflexivity.
  - reflexivity.
  - repeat constructor.
Defined.

End DeleteForgottenRoomsRunProofs.

(** ** set_display_name_in_matrix_space.py: sessions, maps, updates *)

Module SetDisplayNameRunProofs.
Import SetDisplayName SetDisplayNameSpec SetDisplayNameRun.

(** *** Splitting the user identifier *)

Lemma split_nonempty sep s : split sep s <> [].
Proof.
  destruct s as [| c s]; simpl; [discriminate |].
  destruct (Ascii.eqb c sep); [discriminate |].
  destruct (split sep s); discriminate.
Qed.

Lemma length_split sep s : List.length (split sep s) = S (count_char sep s).
Proof.
  induction s as [| c s IH]; [reflexivity |].
  simpl. destruct (Ascii.eqb c sep); simpl.
  - rewrite IH. reflexivity.
  - destruct (split sep s) as [| hd tl] eqn:E.
    + exfalso. exact (split_nonempty sep s E).
    + simpl in *. exact IH.
Qed.

Lemma split_without sep s : count_char sep s = O -> split sep s = [s].
Proof.
  induction s as [| c s IH]; [reflexivity |].
  simpl. destruct (Ascii.eqb c sep); [discriminate |].
  simpl. intros H. rewrite (IH H). reflexivity.
Qed.

Lemma split_at sep l d :
  count_char sep l = O ->
  split sep (l ++ String sep d) = l :: split sep d.
Proof.
  induction l as [| c l IH]; simpl.
  - intros _. rewrite Ascii.eqb_refl. reflexivity.
  - destruct (Ascii.eqb c sep); [discriminate |]. simpl. intros H.
    rewrite (IH H). reflexivity.
Qed.

Section Sessions.

Variable py_str : json -> string.
Variable quote : string -> string.

(** X12.  A user identifier that does not hold exactly one colon is
    refused by [init] with the state error, before anything is sent or
    printed. *)
Theorem malformed_user_id_is_refused c w :
  count_char ":"%char (user_id c) <> 1%nat ->
  init py_str c w = (Abort (Raised invalid_user_id), w).
Proof.
  intros H. unfold init. cbv zeta. rewrite length_split.
  destruct (Nat.eqb_spec (S (count_char ":"%char (user_id c))) 2) as [E | N].
  - exfalso. apply H. lia.
  - reflexivity.
Qed.

(** *** Requests and the base URL *)

Lemma req_any c method path body :
  preserves (grows any_event) (_req py_str c method path body).
Proof.
  unfold _req.
  apply (preserves_bind _ (grows_trans _)).
  - destruct (String.prefix "https://" path);
      [apply (preserves_ret _ (grows_refl _)) |].
    destruct (base_url c);
      first [apply (preserves_stop _ (grows_refl _)) | apply (preserves_ret _ (grows_refl _))].
  - intros url.
    apply (preserves_bind _ (grows_trans _)); [apply grows_http; exact I | intros res].
    destruct (negb (status res =? 200)%Z);
      [apply (preserves_stop _ (grows_refl _)) | apply (preserves_res_json _ (grows_refl _))].
Qed.

Lemma well_known_is_absolute domain :
  String.prefix "https://" ("https://" ++ domain ++ "/.well-known/matrix/client") = true.
Proof. simpl. destruct (domain ++ _)%string; reflexivity. Qed.

(** X13.  For a user identifier [<localpart>:<domain>] with no other
    colon, the first thing [init] does, whatever happens next, is to ask
    [https://<domain>/.well-known/matrix/client]: the domain is exactly
    what follows the colon. *)
Theorem discovery_is_asked_of_the_domain c localpart domain w r w' :
  user_id c = (localpart ++ ":" ++ domain)%string ->
  count_char ":"%char localpart = O ->
  count_char ":"%char domain = O ->
  init py_str c w = (r, w') ->
  exists evs, trace w' = trace w ++ well_known_request domain :: evs.
Proof.
  intros Hu Hl Hd H.
  assert (Hs : split ":"%char (user_id c) = [localpart; domain]).
  { rewrite Hu. change (localpart ++ ":" ++ domain)%string
      with (localpart ++ String ":"%char domain)%string.
    rewrite split_at by exact Hl. rewrite split_without by exact Hd. reflexivity. }
  unfold init in H. rewrite Hs in H. cbn [List.length Nat.eqb negb nth] in H.
  destruct w as [[| res rest] tr].
  - unfold bind at 1 in H. unfold except_HttpError, bind, _req in H.
    rewrite well_known_is_absolute in H. cbn in H. inversion H; subst.
    exists []. reflexivity.
  - destruct (bind_inv _ _ _ _ _ H) as [(found & w1 & H1 & H2) | (why & H1 & _)];
      rewrite SetDisplayNameProofs.discovery_block in H1; inversion H1; subst.
    + assert (Hg : grows any_event
                     (mkWorld rest (tr ++ [well_known_request domain])) w').
      { revert H2.
        match goal with
        | |- ?k _ = _ -> _ => assert (Hp : preserves (grows any_event) k)
        end.
        { repeat first
            [ preserves_step (grows_refl any_event) (grows_trans any_event)
            | apply req_any ]. }
        apply Hp. }
      destruct Hg as (evs & Ht & _). exists evs. rewrite Ht. cbn [trace].
      rewrite <- app_assoc. reflexivity.
    + exists []. reflexivity.
Qed.

(** X14.  On a client whose base URL is not set (one that [init] has not
    gone through), looking for the rooms of a space and changing the
    display name both fail with the state error without sending any
    request; the first has only printed what it was about to do. *)
Theorem no_request_before_init c space new_display_name w :
  base_url c = JNull ->
  find_rooms_in_space py_str quote c space w
  = (Abort (Raised before_init),
     mkWorld (script w)
       (trace w ++ [Print (if String.prefix "#" space then "Resolving space..."
                           else "Retrieving space hierarchy...")])) /\
  change_display_name py_str c new_display_name w = (Abort (Raised before_init), w).
Proof.
  intros Hb. split.
  - unfold find_rooms_in_space. destruct (String.prefix "#" space).
    + unfold bind, print, emit, _req. cbn [String.prefix]. rewrite Hb. reflexivity.
    + unfold bind, print, emit, _req. cbn [ret String.prefix]. rewrite Hb. reflexivity.
  - unfold change_display_name, bind, _req. cbn [String.prefix]. rewrite Hb. reflexivity.
Qed.

(** *** The update pass *)

Lemma member_state_path_is_relative c room_id :
  String.prefix "https://" (member_state_path py_str c room_id) = false.
Proof. reflexivity. Qed.

Lemma update_room_run c evt room_id room_name ans rest tr :
  base_url c <> JNull ->
  tolerable ans = true ->
  update_room py_str c evt (room_id, room_name) (mkWorld (ans :: rest) tr)
  = (Ok tt, mkWorld rest (tr ++ update_events py_str c evt ((room_id, room_name), ans))).
Proof.
  intros Hb Ht. unfold update_room, except_HttpError, bind.
  rewrite SetDisplayNameProofs.req_relative
    by (first [apply member_state_path_is_relative | exact Hb]).
  unfold update_events, tolerable in *.
  destruct (negb (status ans =? 200)%Z).
  - unfold print, emit. cbn [script trace]. rewrite <- app_assoc. reflexivity.
  - destruct (json_body ans); [reflexivity | discriminate Ht].
Qed.

Lemma update_rooms_run c evt rooms : forall answers rest tr,
  base_url c <> JNull ->
  List.length answers = List.length rooms ->
  forallb tolerable answers = true ->
  for_each rooms (fun room _ => update_room py_str c evt room) tt
           (mkWorld (answers ++ rest) tr)
  = (Ok tt,
     mkWorld rest (tr ++ flat_map (update_events py_str c evt) (combine rooms answers))).
Proof.
  induction rooms as [| [room_id room_name] rooms IH]; intros answers rest tr Hb Hl Ht.
  - destruct answers; [| discriminate]. cbn. rewrite app_nil_r. reflexivity.
  - destruct answers as [| ans answers]; [discriminate |].
    cbn [forallb] in Ht. apply andb_true_iff in Ht. destruct Ht as [Ha Ht].
    cbn [for_each app combine flat_map]. unfold bind at 1.
    rewrite update_room_run by assumption.
    rewrite IH by (first [assumption | simpl in Hl; lia]).
    rewrite <- app_assoc. reflexivity.
Qed.

(** X15.  The update pass goes through every room of the map, in order,
    whatever fails on the way: after the profile request it sends one
    [PUT] per room, carrying membership [join], the new display name and
    the avatar of the profile ([None] when the profile has none); a
    refused update is reported and the next room is tried.  (Answers are
    refusals or successes with a JSON body; the profile is a dict.) *)
Theorem every_room_is_updated_whatever_fails
        c new_display_name profile fields answers rest tr :
  base_url c <> JNull ->
  status profile = 200%Z ->
  json_body profile = Some (JObj fields) ->
  List.length answers = List.length (rooms_in_space c) ->
  forallb tolerable answers = true ->
  change_display_name py_str c new_display_name (mkWorld (profile :: answers ++ rest) tr)
  = (Ok tt,
     mkWorld rest
       (tr ++ Http "GET" (py_str (base_url c) ++ "/_matrix/client/v3/profile/" ++ user_id c) None
           :: flat_map (update_events py_str c (evt_content new_display_name (avatar_of fields)))
                (combine (rooms_in_space c) answers))).
Proof.
  intros Hb Hs Hj Hl Ht. unfold change_display_name.
  rewrite (bind_ok _ _ _ (JObj fields)
             (mkWorld (answers ++ rest)
                (tr ++ [Http "GET" (py_str (base_url c) ++ "/_matrix/client/v3/profile/"
                                      ++ user_id c) None]))).
  2:{ rewrite SetDisplayNameProofs.req_relative by (first [reflexivity | exact Hb]).
      rewrite Hs, Hj. reflexivity. }
  rewrite (bind_ok _ _ _ (avatar_of fields)
             (mkWorld (answers ++ rest)
                (tr ++ [Http "GET" (py_str (base_url c) ++ "/_matrix/client/v3/profile/"
                                      ++ user_id c) None]))).
  2:{ unfold avatar_of. cbn [py_get]. destruct (lookup "avatar_url" fields); reflexivity. }
  cbv zeta. fold (evt_content new_display_name (avatar_of fields)).
  rewrite update_rooms_run by assumption.
  rewrite <- app_assoc. reflexivity.
Qed.

(** *** The map of the rooms of the space *)

Lemma py_eq_refl_hashable k : hashable k = true -> py_eq k k = true.
Proof.
  destruct k; simpl; intros H; try discriminate H.
  - reflexivity.
  - destruct b; reflexivity.
  - apply Z.eqb_refl.
  - apply String.eqb_refl.
Qed.

Lemma dict_update_fresh k v d : dict_mem k d = false -> dict_update k v d = d ++ [(k, v)].
Proof.
  induction d as [| [k0 v0] rest IH]; simpl; [reflexivity |].
  intros H. apply orb_false_iff in H. destruct H as [H0 Hr].
  rewrite H0, (IH Hr). reflexivity.
Qed.

Lemma dict_update_keys key v d k v' :
  In (k, v') (dict_update key v d) -> (exists v0, In (k, v0) d) \/ k = key.
Proof.
  induction d as [| [k0 v0] rest IH]; simpl.
  - intros [H | []]. inversion H; subst. right. reflexivity.
  - destruct (py_eq key k0); simpl.
    + intros [H | H].
      * inversion H; subst. left. exists v0. left. reflexivity.
      * left. exists v'. right. exact H.
    + intros [H | H].
      * inversion H; subst. left. exists v'. left. reflexivity.
      * destruct (IH H) as [(v1 & H1) | ->]; [| right; reflexivity].
        left. exists v1. right. exact H1.
Qed.

Lemma dict_update_distinct key v d : distinct_keys d -> distinct_keys (dict_update key v d).
Proof.
  induction d as [| [k0 v0] rest IH]; simpl.
  - intros _. split; [intros k' v' [] | exact I].
  - intros [Hk Hr]. destruct (py_eq key k0) eqn:E; simpl.
    + split; assumption.
    + split; [| apply IH; exact Hr].
      intros k' v' Hin. destruct (dict_update_keys _ _ _ _ _ Hin) as [(v1 & H1) | ->].
      * apply (Hk k' v1). exact H1.
      * exact E.
Qed.

Lemma dict_update_joined joined key v d :
  existsb (py_eq key) joined = true -> keys_joined joined d ->
  keys_joined joined (dict_update key v d).
Proof.
  intros Hk Hd k v' Hin. destruct (dict_update_keys _ _ _ _ _ Hin) as [(v1 & H1) | ->].
  - apply (Hd k v1). exact H1.
  - exact Hk.
Qed.

Lemma for_each_invariant {A S} (P : S -> Prop) (l : list A) (body : A -> S -> M S) :
  (forall x acc w acc' w', In x l -> P acc -> body x acc w = (Ok acc', w') -> P acc') ->
  forall acc w acc' w', P acc -> for_each l body acc w = (Ok acc', w') -> P acc'.
Proof.
  induction l as [| x l IH]; intros Hb acc w acc' w' Hp H; cbn [for_each] in H.
  - inversion H; subst. exact Hp.
  - apply bind_inv_ok in H. destruct H as (acc1 & w1 & H1 & H).
    apply (IH (fun y a u a' u' Hy => Hb y a u a' u' (or_intror Hy)) acc1 w1 acc' w');
      [| exact H].
    apply (Hb x acc w acc1 w1); [left; reflexivity | exact Hp | exact H1].
Qed.

(** An entry of the hierarchy either leaves the map as it is or sets the
    name of a room that is among the joined rooms. *)
Lemma hierarchy_entry_inv c room acc w acc' w' :
  hierarchy_entry c room acc w = (Ok acc', w') ->
  acc' = acc \/
  exists key name,
    py_in key (joined_rooms c) = Return true /\ acc' = dict_update key name acc.
Proof.
  unfold hierarchy_entry. intros H.
  apply bind_inv_ok in H. destruct H as (room_id & w1 & H1 & H).
  apply bind_inv_ok in H. destruct H as (is_joined & w2 & H2 & H).
  apply lift_inv_ok in H1. destruct H1 as [H1 _].
  apply lift_inv_ok in H2. destruct H2 as [H2 _].
  destruct is_joined.
  - apply bind_inv_ok in H. destruct H as (key & w3 & H3 & H).
    apply bind_inv_ok in H. destruct H as (name & w4 & H4 & H).
    apply lift_inv_ok in H3. destruct H3 as [H3 _].
    apply lift_inv_ok in H. destruct H as [H _].
    rewrite H1 in H3. inversion H3; subst key.
    unfold dict_set in H. destruct (hashable room_id); [| discriminate].
    inversion H; subst. right. exists room_id, name. split; [exact H2 | reflexivity].
  - inversion H; subst. left. reflexivity.
Qed.

(** A joined room either leaves the map as it is or is added at its end,
    under a name of the form ["DM with ..."]. *)
Lemma inspect_room_inv c members room_id acc w acc' w' :
  inspect_room py_str c members room_id acc w = (Ok acc', w') ->
  acc' = acc \/
  (hashable room_id = true /\ dict_mem room_id acc = false /\
   exists name, acc' = acc ++ [(room_id, JStr ("DM with " ++ name))]).
Proof.
  unfold inspect_room. intros H.
  apply bind_inv_ok in H. destruct H as (known & w1 & H1 & H).
  apply lift_inv_ok in H1. destruct H1 as [H1 _].
  destruct known.
  - inversion H; subst. left. reflexivity.
  - apply bind_inv_ok in H. destruct H as (resp & w2 & _ & H).
    apply bind_inv_ok in H. destruct H as (joined & w3 & _ & H).
    apply bind_inv_ok in H. destruct H as (is_dm' & w4 & _ & H).
    destruct is_dm'.
    + apply bind_inv_ok in H. destruct H as (name & w5 & _ & H).
      apply lift_inv_ok in H. destruct H as [H _].
      unfold dict_contains in H1. unfold dict_set in H.
      destruct (hashable room_id); [| discriminate].
      injection H1 as Hm. injection H as Ha. subst acc'. right.
      split; [reflexivity |]. split; [exact Hm |].
      exists (py_str name). apply dict_update_fresh. exact Hm.
    + inversion H; subst. left. reflexivity.
Qed.

(** What [_dm_rooms_in_space] comes down to when it returns: the loop over
    the joined rooms, from the map it was given. *)
Lemma dm_rooms_in_space_inv c space_id w c' w' :
  _dm_rooms_in_space py_str c space_id w = (Ok c', w') ->
  exists members room_ids w1,
    py_iter (joined_rooms c) = Return room_ids /\
    for_each room_ids (inspect_room py_str c members) (rooms_in_space c) w1
    = (Ok (rooms_in_space c'), w') /\
    c' = set_rooms_in_space c (rooms_in_space c').
Proof.
  unfold _dm_rooms_in_space. intros H.
  apply bind_inv_ok in H. destruct H as (? & ? & _ & H).
  apply bind_inv_ok in H. destruct H as (resp & ? & _ & H).
  apply bind_inv_ok in H. destruct H as (joined & ? & _ & H).
  apply bind_inv_ok in H. destruct H as (items & ? & _ & H).
  apply bind_inv_ok in H. destruct H as (members & ? & _ & H).
  apply bind_inv_ok in H. destruct H as (n & w0 & _ & H).
  apply bind_inv_ok in H. destruct H as (room_ids & w1 & H1 & H).
  apply lift_inv_ok in H1. destruct H1 as [H1 _].
  apply bind_inv_ok in H. destruct H as (in_space & w2 & H2 & H).
  inversion H; subst. exists members, room_ids, w1.
  split; [exact H1 |]. split; [exact H2 | reflexivity].
Qed.

(** X16.  The direct-message discovery only adds to the map: the rooms
    found through the hierarchy stay where they are, under the names the
    hierarchy gave them, and every entry added after them has a name of the
    form ["DM with ..."]. *)
Theorem dm_discovery_only_adds c space_id w c' w' :
  _dm_rooms_in_space py_str c space_id w = (Ok c', w') ->
  exists added,
    rooms_in_space c' = rooms_in_space c ++ added /\ Forall dm_named added.
Proof.
  intros H. destruct (dm_rooms_in_space_inv _ _ _ _ _ H) as (members & room_ids & w1 & _ & Hf & _).
  revert Hf.
  apply (for_each_invariant
           (fun d => exists added, d = rooms_in_space c ++ added /\ Forall dm_named added)).
  - intros room_id acc u acc' u' _ (added & -> & Ha) Hb.
    destruct (inspect_room_inv _ _ _ _ _ _ _ Hb) as [-> | (_ & _ & name & ->)].
    + exists added. split; [reflexivity | exact Ha].
    + exists (added ++ [(room_id, JStr ("DM with " ++ name))]). split.
      * rewrite app_assoc. reflexivity.
      * apply Forall_app. split; [exact Ha |].
        constructor; [exists name; reflexivity | constructor].
  - exists []. split; [rewrite app_nil_r; reflexivity | constructor].
Qed.

(** X17.  When the search for the rooms of a space returns and the joined
    rooms are a list, the joined rooms of the client are unchanged, every
    key of the map is one of the joined rooms, and no two keys of the map
    are equal. *)
Theorem rooms_in_space_are_distinct_joined_rooms c space items w c' w' :
  joined_rooms c = JArr items ->
  find_rooms_in_space py_str quote c space w = (Ok c', w') ->
  joined_rooms c' = JArr items /\
  keys_joined items (rooms_in_space c') /\
  distinct_keys (rooms_in_space c').
Proof.
  intros Hj H. unfold find_rooms_in_space in H.
  apply bind_inv_ok in H. destruct H as (space_id & ? & _ & H).
  apply bind_inv_ok in H. destruct H as (? & ? & _ & H).
  apply bind_inv_ok in H. destruct H as (resp & ? & _ & H).
  apply bind_inv_ok in H. destruct H as (rooms & ? & _ & H).
  apply bind_inv_ok in H. destruct H as (entries & ? & _ & H).
  apply bind_inv_ok in H. destruct H as (in_space & w1 & Hh & H).
  assert (P0 : keys_joined items in_space /\ distinct_keys in_space).
  { revert Hh.
    apply (for_each_invariant (fun d => keys_joined items d /\ distinct_keys d)).
    - intros room acc u acc' u' _ [Hk Hd] Hb.
      destruct (hierarchy_entry_inv _ _ _ _ _ _ Hb) as [-> | (key & name & Hin & ->)].
      + split; assumption.
      + rewrite Hj in Hin. cbn [py_in] in Hin. inversion Hin as [Hin'].
        split; [apply dict_update_joined; assumption | apply dict_update_distinct; exact Hd].
    - split; [intros k v [] | exact I]. }
  destruct (dm_rooms_in_space_inv _ _ _ _ _ H) as (members & room_ids & w2 & Hi & Hf & Hc).
  cbn [joined_rooms rooms_in_space set_rooms_in_space] in Hi, Hf.
  rewrite Hj in Hi. cbn [py_iter] in Hi. inversion Hi; subst room_ids.
  split; [rewrite Hc; exact Hj |].
  revert Hf.
  apply (for_each_invariant (fun d => keys_joined items d /\ distinct_keys d));
    [| exact P0].
  intros room_id acc u acc' u' Hin [Hk Hd] Hb.
  destruct (inspect_room_inv _ _ _ _ _ _ _ Hb) as [-> | (Hh' & Hm & name & ->)].
  - split; assumption.
  - rewrite <- (dict_update_fresh room_id (JStr ("DM with " ++ name)) acc Hm). split.
    + apply dict_update_joined; [| exact Hk].
      apply existsb_exists. exists room_id. split; [exact Hin |].
      apply py_eq_refl_hashable. exact Hh'.
    + apply dict_update_distinct. exact Hd.
Qed.

(** X18.  An update answered with status 200 and a body that is not JSON
    is not a refusal: the decoding error is not caught, the pass ends
    there, and the rooms after that one are not updated. *)
Theorem undecodable_success_ends_the_update_pass
        c new_display_name profile fields room_id room_name rooms ans rest tr :
  base_url c <> JNull ->
  status profile = 200%Z ->
  json_body profile = Some (JObj fields) ->
  rooms_in_space c = (room_id, room_name) :: rooms ->
  status ans = 200%Z ->
  json_body ans = None ->
  change_display_name py_str c new_display_name (mkWorld (profile :: ans :: rest) tr)
  = (Abort (Raised JSONDecodeError),
     mkWorld rest
       (tr ++ [Http "GET" (py_str (base_url c) ++ "/_matrix/client/v3/profile/" ++ user_id c)
                 None;
               Http "PUT" (py_str (base_url c) ++ member_state_path py_str c room_id)
                 (Some (evt_content new_display_name (avatar_of fields)))])).
Proof.
  intros Hb Hs Hj Hr Hs' Hj'. unfold change_display_name.
  rewrite (bind_ok _ _ _ (JObj fields)
             (mkWorld (ans :: rest)
                (tr ++ [Http "GET" (py_str (base_url c) ++ "/_matrix/client/v3/profile/"
                                      ++ user_id c) None]))).
  2:{ rewrite SetDisplayNameProofs.req_relative by (first [reflexivity | exact Hb]).
      rewrite Hs, Hj. reflexivity. }
  rewrite (bind_ok _ _ _ (avatar_of fields)
             (mkWorld (ans :: rest)
                (tr ++ [Http "GET" (py_str (base_url c) ++ "/_matrix/client/v3/profile/"
                                      ++ user_id c) None]))).
  2:{ unfold avatar_of. cbn [py_get]. destruct (lookup "avatar_url" fields); reflexivity. }
  cbv zeta. fold (evt_content new_display_name (avatar_of fields)).
  rewrite Hr. cbn [for_each]. apply bind_abort.
  unfold update_room, except_HttpError, bind.
  rewrite SetDisplayNameProofs.req_relative
    by (first [apply member_state_path_is_relative | exact Hb]).
  rewrite Hs', Hj'. cbn [negb Z.eqb Pos.eqb]. rewrite <- app_assoc. reflexivity.
Qed.

(** *** Telling the direct messages apart *)

(** What the loop does with a joined room that is not in the map, on the
    listing of its members. *)
Lemma inspect_room_run c members room_id in_space fields res rest tr :
  dict_contains room_id in_space = Return false ->
  base_url c <> JNull ->
  lists_members res fields ->
  inspect_room py_str c members room_id in_space (mkWorld (res :: rest) tr)
  = (match _is_dm_in_space c members (JObj fields) with
     | Return true =>
         match first_correspondant c fields with
         | Return name => Ok (in_space ++ [(room_id, JStr ("DM with " ++ py_str name))])
         | Raises e => Abort (Raised e)
         end
     | Return false => Ok in_space
     | Raises e => Abort (Raised e)
     end,
     mkWorld rest (tr ++ [joined_members_request py_str c room_id])).
Proof.
  intros Hc Hb (Hs & body & Hj & Hf). unfold inspect_room.
  rewrite (bind_ok _ _ _ false (mkWorld (res :: rest) tr)) by (apply lift_return; exact Hc).
  cbv beta iota.
  rewrite (bind_ok _ _ _ body
             (mkWorld rest (tr ++ [joined_members_request py_str c room_id]))).
  2:{ rewrite SetDisplayNameProofs.req_relative by (first [reflexivity | exact Hb]).
      rewrite Hs, Hj. reflexivity. }
  rewrite (bind_ok _ _ _ (JObj fields)
             (mkWorld rest (tr ++ [joined_members_request py_str c room_id])))
    by (apply lift_return; exact Hf).
  destruct (_is_dm_in_space c members (JObj fields)) as [[|] | e]; cbn [lift].
  - rewrite bind_ret. unfold _correspondant_display_name. cbn [py_items].
    destruct (first_correspondant c fields) as [name | e]; [| reflexivity].
    cbn [lift]. rewrite bind_ret.
    unfold dict_contains in Hc. unfold dict_set.
    destruct (hashable room_id); [| discriminate Hc].
    injection Hc as Hm. rewrite (dict_update_fresh _ _ _ Hm). reflexivity.
  - reflexivity.
  - reflexivity.
Qed.

(** In a conversation the correspondent is the one member who is not the
    acting user, wherever its entry stands in the listing. *)
Lemma correspondant_of_conversation c fields user info :
  conversation_with c fields user info ->
  first_correspondant c fields = py_getitem info "display_name" /\
  (forall other, In other (keys fields) -> other <> user_id c -> other = user).
Proof.
  intros (Hnd & Hlen & Hme & Hin & Hne).
  destruct fields as [| [k1 v1] [| [k2 v2] [|]]]; try discriminate Hlen.
  cbn [keys map fst] in Hnd, Hme. inversion Hnd as [| ? ? Hn1 _]; subst.
  assert (Hk : k1 <> k2) by (intros ->; apply Hn1; left; reflexivity).
  cbn [first_correspondant keys map fst].
  destruct Hme as [E1 | [E2 | []]]; destruct Hin as [P1 | [P2 | []]].
  - injection P1 as -> ->. congruence.
  - injection P2 as -> ->. rewrite E1, String.eqb_refl. cbn [negb].
    apply String.eqb_neq in Hne. rewrite Hne. cbn [negb]. split; [reflexivity |].
    intros other [<- | [<- | []]] Ho; congruence.
  - injection P1 as -> ->. apply String.eqb_neq in Hne. rewrite Hne. cbn [negb].
    split; [reflexivity |].
    intros other [<- | [<- | []]] Ho; congruence.
  - injection P2 as -> ->. congruence.
Qed.

Lemma conversation_is_dm c members fields user info :
  conversation_with c fields user info ->
  In user (keys members) ->
  is_dm c members fields.
Proof.
  intros Hconv Hmem.
  destruct (correspondant_of_conversation c fields user info Hconv) as [_ Honly].
  destruct Hconv as (_ & Hlen & _). split; [exact Hlen |].
  intros other Hin Hne. rewrite (Honly other Hin Hne). exact Hmem.
Qed.

Lemma is_dm_in_space_true c members fields :
  is_dm c members fields -> _is_dm_in_space c members (JObj fields) = Return true.
Proof.
  intros H. destruct (SetDisplayNameProofs.is_dm_in_space_dict c members fields)
    as (b & Eb & Hiff).
  rewrite Eb. f_equal. apply Hiff. exact H.
Qed.

Lemma is_dm_in_space_false c members fields :
  ~ is_dm c members fields -> _is_dm_in_space c members (JObj fields) = Return false.
Proof.
  intros H. destruct (SetDisplayNameProofs.is_dm_in_space_dict c members fields)
    as (b & Eb & Hiff).
  rewrite Eb. f_equal. destruct b; [| reflexivity].
  exfalso. apply H. apply Hiff. reflexivity.
Qed.

Lemma recorded_conversation c members room_id in_space fields res rest tr user info name :
  dict_contains room_id in_space = Return false ->
  base_url c <> JNull ->
  lists_members res fields ->
  conversation_with c fields user info ->
  In user (keys members) ->
  py_getitem info "display_name" = Return name ->
  inspect_room py_str c members room_id in_space (mkWorld (res :: rest) tr)
  = (Ok (in_space ++ [(room_id, JStr ("DM with " ++ py_str name))]),
     mkWorld rest (tr ++ [joined_members_request py_str c room_id])).
Proof.
  intros Hc Hb Hl Hconv Hmem Hname.
  rewrite (inspect_room_run c members room_id in_space fields res rest tr Hc Hb Hl).
  rewrite (is_dm_in_space_true c members fields
             (conversation_is_dm c members fields user info Hconv Hmem)).
  destruct (correspondant_of_conversation c fields user info Hconv) as [-> _].
  rewrite Hname. reflexivity.
Qed.

(** X22.  A joined room that is not yet in the map, on the listing of its
    members.  A conversation between the acting user and a member of the
    space whose entry in that listing carries a display name is added at
    the end of the map as ["DM with <that display name>"]: the name comes
    from the listing of the room, not from the roster (first part).  A
    listing that has not exactly two members, or has a member other than
    the acting user who is not in the roster, leaves the map as it was
    (second to fourth parts). *)
Theorem direct_messages_are_told_apart c members room_id in_space fields res rest tr :
  dict_contains room_id in_space = Return false ->
  base_url c <> JNull ->
  lists_members res fields ->
  (forall user info name,
      conversation_with c fields user info ->
      In user (keys members) ->
      py_getitem info "display_name" = Return name ->
      inspect_room py_str c members room_id in_space (mkWorld (res :: rest) tr)
      = (Ok (in_space ++ [(room_id, JStr ("DM with " ++ py_str name))]),
         mkWorld rest (tr ++ [joined_members_request py_str c room_id]))) /\
  (~ is_dm c members fields ->
   inspect_room py_str c members room_id in_space (mkWorld (res :: rest) tr)
   = (Ok in_space, mkWorld rest (tr ++ [joined_members_request py_str c room_id]))) /\
  (List.length fields <> 2%nat -> ~ is_dm c members fields) /\
  (forall user,
      In user (keys fields) -> user <> user_id c -> ~ In user (keys members) ->
      ~ is_dm c members fields).
Proof.
  intros Hc Hb Hl. split; [| split; [| split]].
  - intros user info name Hconv Hmem Hname.
    apply (recorded_conversation c members room_id in_space fields res rest tr user info name);
      assumption.
  - intros Hno.
    rewrite (inspect_room_run c members room_id in_space fields res rest tr Hc Hb Hl).
    rewrite (is_dm_in_space_false c members fields Hno). reflexivity.
  - intros Hlen [Hlen' _]. contradiction.
  - intros user Hin Hne Hout [_ Hall]. apply Hout. apply Hall; assumption.
Qed.

(** The roster of the space is built from any listing whose entries are
    dicts, and names the same users. *)
Lemma roster_run roster :
  entries_are_dicts roster ->
  forall acc w,
    exists members,
      for_each roster roster_entry acc w = (Ok (acc ++ members), w) /\
      keys members = keys roster.
Proof.
  induction 1 as [| [key value] roster (info & Hv) _ IH]; intros acc w.
  - exists []. split; [cbn; rewrite app_nil_r; reflexivity | reflexivity].
  - cbn [snd] in Hv. subst value. cbn [for_each roster_entry py_get].
    destruct (lookup "display_name" info) as [name |]; cbn [lift]; rewrite !bind_ret.
    + destruct (IH (acc ++ [(key, name)]) w) as (members & Hrun & Hkeys).
      exists ((key, name) :: members). split.
      * rewrite Hrun, <- app_assoc. reflexivity.
      * cbn [keys map fst]. f_equal. exact Hkeys.
    + destruct (IH (acc ++ [(key, JStr key)]) w) as (members & Hrun & Hkeys).
      exists ((key, JStr key) :: members). split.
      * rewrite Hrun, <- app_assoc. reflexivity.
      * cbn [keys map fst]. f_equal. exact Hkeys.
Qed.

(** X23.  The direct-message discovery of a client that has joined one
    room, not yet in its map: the roster of the space is asked for, then
    the members of the room; when the room is a conversation between the
    acting user and a user of the roster whose entry in the listing of the
    room carries a display name, the discovery returns with the room added
    at the end of the map as ["DM with <that display name>"]. *)
Theorem conversation_with_a_member_is_found
        c space_id room_id roster roster_res fields res user info name rest tr :
  base_url c <> JNull ->
  joined_rooms c = JArr [room_id] ->
  dict_contains room_id (rooms_in_space c) = Return false ->
  lists_members roster_res roster ->
  entries_are_dicts roster ->
  lists_members res fields ->
  conversation_with c fields user info ->
  In user (keys roster) ->
  py_getitem info "display_name" = Return name ->
  _dm_rooms_in_space py_str c space_id (mkWorld (roster_res :: res :: rest) tr)
  = (Ok (set_rooms_in_space c
           (rooms_in_space c ++ [(room_id, JStr ("DM with " ++ py_str name))])),
     mkWorld rest
       (tr ++ [Print "Identifying related DMs...";
               joined_members_request py_str c space_id;
               joined_members_request py_str c room_id])).
Proof.
  intros Hb Hjoined Hc (Hs & body & Hj & Hf) Hdicts Hl Hconv Hmem Hname.
  unfold _dm_rooms_in_space.
  unfold bind at 1. unfold print, emit. cbn [script trace].
  rewrite (bind_ok _ _ _ body
             (mkWorld (res :: rest)
                (tr ++ [Print "Identifying related DMs...";
                        joined_members_request py_str c space_id]))).
  2:{ rewrite SetDisplayNameProofs.req_relative by (first [reflexivity | exact Hb]).
      rewrite Hs, Hj, <- app_assoc. reflexivity. }
  rewrite Hf. cbn [lift]. rewrite bind_ret. cbn [lift py_items]. rewrite bind_ret.
  destruct (roster_run roster Hdicts []
              (mkWorld (res :: rest)
                 (tr ++ [Print "Identifying related DMs...";
                         joined_members_request py_str c space_id])))
    as (members & Hrun & Hkeys).
  rewrite (bind_ok _ _ _ _ _ Hrun). cbn [app].
  rewrite Hjoined. cbn [py_len lift]. rewrite bind_ret.
  cbn [py_iter lift]. rewrite bind_ret. cbn [for_each].
  rewrite <- Hkeys in Hmem.
  rewrite (bind_ok _ _ _ _ _
             (bind_ok _ _ _ _ _
                (recorded_conversation c members room_id (rooms_in_space c) fields res rest
                   _ user info name Hc Hb Hl Hconv Hmem Hname))).
  cbn [ret]. rewrite <- app_assoc. reflexivity.
Qed.

End Sessions.


Lemma malformed_user_id_is_refused_witness :
  init render (new_client "me.example.org" "secret") (mkWorld sample_server [])
  = (Abort (Raised invalid_user_id), mkWorld sample_server []).
Proof.
  apply (malformed_user_id_is_refused render (new_client "me.example.org" "secret")
           (mkWorld sample_server [])).
  simpl. discriminate.
Defined.

Lemma discovery_is_asked_of_the_domain_witness :
  exists evs,
    trace (snd (init render (new_client "@me:example.org" "secret")
                  (mkWorld sample_server [])))
    = trace (mkWorld sample_server []) ++ well_known_request "example.org" :: evs.
Proof.
  apply (discovery_is_asked_of_the_domain render (new_client "@me:example.org" "secret")
           "@me" "example.org" (mkWorld sample_server [])
           (fst (init render (new_client "@me:example.org" "secret")
                   (mkWorld sample_server [])))).
  - reflexivity.
  - reflexivity.
  - reflexivity.
  - reflexivity.
Defined.

Lemma no_request_before_init_witness :
  find_rooms_in_space render identity (new_client "@me:example.org" "secret")
    "#space:example.org" (mkWorld sample_server [])
  = (Abort (Raised before_init),
     mkWorld (script (mkWorld sample_server []))
       (trace (mkWorld sample_server [])
          ++ [Print (if String.prefix "#" "#space:example.org" then "Resolving space..."
                     else "Retrieving space hierarchy...")])) /\
  change_display_name render (new_client "@me:example.org" "secret") "Me (work)"
    (mkWorld sample_server [])
  = (Abort (Raised before_init), mkWorld sample_server []).
Proof.
  apply (no_request_before_init render identity (new_client "@me:example.org" "secret")
           "#space:example.org" "Me (work)" (mkWorld sample_server [])).
  reflexivity.
Defined.

Lemma every_room_is_updated_whatever_fails_witness :
  change_display_name render searched_client "Me (work)"
    (mkWorld (profile_answer :: [mkResponse 403 "forbidden" None; answer (JObj [])] ++ []) [])
  = (Ok tt,
     mkWorld []
       ([] ++ Http "GET" (render (base_url searched_client) ++ "/_matrix/client/v3/profile/"
                            ++ user_id searched_client) None
           :: flat_map (update_events render searched_client
                          (evt_content "Me (work)"
                             (avatar_of [("avatar_url", JStr "mxc://example.org/me")])))
                (combine (rooms_in_space searched_client)
                   [mkResponse 403 "forbidden" None; answer (JObj [])]))).
Proof.
  apply (every_room_is_updated_whatever_fails render searched_client "Me (work)"
           profile_answer [("avatar_url", JStr "mxc://example.org/me")]
           [mkResponse 403 "forbidden" None; answer (JObj [])] [] []).
  - discriminate.
  - reflexivity.
  - reflexivity.
  - reflexivity.
  - reflexivity.
Defined.

Lemma dm_discovery_only_adds_witness :
  exists added,
    rooms_in_space searched_client
    = rooms_in_space (set_rooms_in_space initialised_client [(JStr "!general", JStr "General")])
        ++ added /\
    Forall dm_named added.
Proof.
  apply (dm_discovery_only_adds render
           (set_rooms_in_space initialised_client [(JStr "!general", JStr "General")])
           (JStr "!space:example.org")
           (mkWorld (skipn 3 sample_server) [])
           searched_client
           (snd (_dm_rooms_in_space render
                   (set_rooms_in_space initialised_client [(JStr "!general", JStr "General")])
                   (JStr "!space:example.org") (mkWorld (skipn 3 sample_server) [])))).
  reflexivity.
Defined.

Lemma rooms_in_space_are_distinct_joined_rooms_witness :
  joined_rooms searched_client
  = JArr [JStr "!general"; JStr "!dm"; JStr "!group"; JStr "!stranger"] /\
  keys_joined [JStr "!general"; JStr "!dm"; JStr "!group"; JStr "!stranger"]
    (rooms_in_space searched_client) /\
  distinct_keys (rooms_in_space searched_client).
Proof.
  apply (rooms_in_space_are_distinct_joined_rooms render identity initialised_client
           "!space:example.org"
           [JStr "!general"; JStr "!dm"; JStr "!group"; JStr "!stranger"]
           (mkWorld answers_after_init [])
           searched_client
           (snd (find_rooms_in_space render identity initialised_client "!space:example.org"
                   (mkWorld answers_after_init [])))).
  - reflexivity.
  - reflexivity.
Defined.

Lemma undecodable_success_ends_the_update_pass_witness :
  change_display_name render searched_client "Me (work)"
    (mkWorld (profile_answer :: mkResponse 200 "OK" None :: [answer (JObj [])]) [])
  = (Abort (Raised JSONDecodeError),
     mkWorld [answer (JObj [])]
       ([] ++ [Http "GET" (render (base_url searched_client) ++ "/_matrix/client/v3/profile/"
                             ++ user_id searched_client) None;
               Http "PUT" (render (base_url searched_client)
                             ++ member_state_path render searched_client (JStr "!general"))
                 (Some (evt_content "Me (work)"
                          (avatar_of [("avatar_url", JStr "mxc://example.org/me")])))])).
Proof.
  apply (undecodable_success_ends_the_update_pass render searched_client "Me (work)"
           profile_answer [("avatar_url", JStr "mxc://example.org/me")]
           (JStr "!general") (JStr "General") [(JStr "!dm", JStr "DM with Alice")]
           (mkResponse 200 "OK" None) [answer (JObj [])] []).
  - discriminate.
  - reflexivity.
  - reflexivity.
  - reflexivity.
  - reflexivity.
  - reflexivity.
Defined.

Lemma direct_messages_are_told_apart_witness :
  inspect_room render sample_client sample_roster (JStr "!dm")
    [(JStr "!general", JStr "General")]
    (mkWorld [answer (JObj [("joined", JObj dm_listing)])] [])
  = (Ok ([(JStr "!general", JStr "General")]
           ++ [(JStr "!dm", JStr ("DM with " ++ render (JStr "Alice")))]),
     mkWorld [] ([] ++ [joined_members_request render sample_client (JStr "!dm")])).
Proof.
  destruct (direct_messages_are_told_apart render sample_client sample_roster (JStr "!dm")
              [(JStr "!general", JStr "General")] dm_listing
              (answer (JObj [("joined", JObj dm_listing)])) [] [])
    as (H & _).
  - reflexivity.
  - discriminate.
  - split; [reflexivity |]. exists (JObj [("joined", JObj dm_listing)]).
    split; reflexivity.
  - apply (H "@al:example.org" (JObj [("display_name", JStr "Alice")]) (JStr "Alice")).
    + repeat split.
      * repeat constructor; simpl; intuition discriminate.
      * left. reflexivity.
      * right. left. reflexivity.
      * discriminate.
    + right. left. reflexivity.
    + reflexivity.
Defined.

Lemma conversation_with_a_member_is_found_witness :
  _dm_rooms_in_space render dm_client (JStr "!space:example.org") (mkWorld (dm_answers ++ []) [])
  = (Ok (set_rooms_in_space dm_client
           ([(JStr "!general", JStr "General")]
              ++ [(JStr "!dm", JStr ("DM with " ++ render (JStr "Alice")))])),
     mkWorld []
       ([] ++ [Print "Identifying related DMs...";
               joined_members_request render dm_client (JStr "!space:example.org");
               joined_members_request render dm_client (JStr "!dm")])).
Proof.
  apply (conversation_with_a_member_is_found render dm_client (JStr "!space:example.org")
           (JStr "!dm")
           [member "@me:example.org" "Me"; member "@al:example.org" "Al"]
           (answer (JObj [("joined",
                           JObj [member "@me:example.org" "Me"; member "@al:example.org" "Al"])]))
           dm_listing (answer (JObj [("joined", JObj dm_listing)]))
           "@al:example.org" (JObj [("display_name", JStr "Alice")]) (JStr "Alice") [] []).
  - discriminate.
  - reflexivity.
  - reflexivity.
  - split; [reflexivity |].
    exists (JObj [("joined",
                   JObj [member "@me:example.org" "Me"; member "@al:example.org" "Al"])]).
    split; reflexivity.
  - repeat constructor; eexists; reflexivity.
  - split; [reflexivity |]. exists (JObj [("joined", JObj dm_listing)]).
    split; reflexivity.
  - repeat split.
    + repeat constructor; simpl; intuition discriminate.
    + left. reflexivity.
    + right. left. reflexivity.
    + discriminate.
  - right. left. reflexivity.
  - reflexivity.
Defined.

End SetDisplayNameRunProofs.
